(** * PicoReg: the bit-banged SWD protocol engine of [picoreg_gpio.py]

    A shallow embedding of the driver classes [GpioDrv], [BitReg], [SwdMsg]
    and [SwdConnection], and the properties of the protocol engine that
    follow from the code.

    Conventions of the embedding:
    - Python integers are [Z]; [>>], [&], [^] are [Z.shiftr], [Z.land],
      [Z.lxor];
    - the buffers [txdata] and [rxdata] are lists of characters;
    - a [ctypes] structure of bit-fields is a finite map from field name to
      value, and storing into a field of width [w] keeps the value modulo
      [2^w], as [ctypes] does;
    - the module [RPi.GPIO] is an interface ([Gpio]) over an abstract line
      state, threaded explicitly through every call that touches the pins;
    - a raised exception is [None] in the option monad. *)

From Stdlib Require Import ZArith Lia Ascii String List.
From stdpp Require Import base option list gmap strings.

Local Open Scope Z_scope.

(** ** Module constants *)

Definition NUM_TRIES : Z := 3.
Definition SWD_DP : Z := 0.
Definition SWD_AP : Z := 1.
Definition SWD_WR : Z := 0.
Definition SWD_RD : Z := 1.
Definition DP_CORE0 : Z := 0x01002927.
Definition DP_CORE1 : Z := 0x11002927.
Definition SWD_ACK_OK : Z := 1.
Definition SWD_ACK_WAIT : Z := 2.
Definition SWD_ACK_ERROR : Z := 4.
Definition CLK_PIN : Z := 20.
Definition DAT_PIN : Z := 21.
Definition test_addr : Z := 0xd0000004.

(** ** [parity32] *)

Definition parity32 (i : Z) : Z :=
  let i := i - Z.land (Z.shiftr i 1) 0x55555555 in
  let i := Z.land i 0x33333333 + Z.land (Z.shiftr i 2) 0x33333333 in
  let i := Z.shiftr (Z.land (i + Z.shiftr i 4) 0x0F0F0F0F * 0x01010101) 24 in
  Z.land i 1.

(** Reference population count: the number of indices [k < n] at which
    bit [k] of [v] is set. *)
Fixpoint count_bits (n : nat) (v : Z) : Z :=
  match n with
  | O => 0
  | S k => Z.b2z (Z.testbit v (Z.of_nat k)) + count_bits k v
  end.

Definition popcount32 (v : Z) : Z := count_bits 32 v.

(** ** The [RPi.GPIO] module

    The pin driver is injected: the code only calls [GPIO.setup],
    [GPIO.output] and [GPIO.input].  [L] is the state of whatever sits
    behind the pins (the target, a mock, a recorder). *)

Inductive direction := GPIO_IN | GPIO_OUT.

Class Gpio (L : Type) := {
  gpio_setup : Z -> direction -> L -> L;
  gpio_output : Z -> Z -> L -> L;
  gpio_input : Z -> L -> bool * L
}.

(** Python strings are lists of characters; a one-character string is a
    singleton list and [""] is [[]]. *)
Abbreviation pystr := (list ascii).

(** [s[n:]] on a Python string, for any integer [n]. *)
Definition slice_from (n : Z) (s : pystr) : pystr :=
  if 0 <=? n then drop (Z.to_nat n) s
  else drop (length s - Z.to_nat (- n)) s.

(** Truth value of a Python integer. *)
Definition truthy (z : Z) : bool := negb (z =? 0).

(** ** [class GpioDrv] *)
Module GpioDrv.

Record t := mk { txdata : pystr; rxdata : pystr }.

Definition init : t := mk [] [].

Definition set_txdata (d : t) (s : pystr) : t := mk s (rxdata d).
Definition set_rxdata (d : t) (s : pystr) : t := mk (txdata d) s.

(** The character appended for bit [n] of [data]. *)
Definition bit_char (data n : Z) (recv : bool) : ascii :=
  if recv then "."%char
  else if truthy (Z.land data (Z.shiftl 1 n)) then "1"%char else "0"%char.

(** The [while n < nbits] loop of [send_bits], run [k] more times. *)
Fixpoint send_bits_loop (k : nat) (n : Z) (data : Z) (recv : bool)
         (tx : pystr) : pystr :=
  match k with
  | O => tx
  | S k' => send_bits_loop k' (n + 1) data recv (tx ++ [bit_char data n recv])
  end.

Definition send_bits (d : t) (data nbits : Z) (recv : bool) : t :=
  set_txdata d (send_bits_loop (Z.to_nat nbits) 0 data recv (txdata d)).

Definition send_bytes (d : t) (data : list Z) (recv : bool) : t :=
  fold_left (fun d b => send_bits d b 8 recv) data d.

(** The [while n < nbits] loop of [recv_bits]. *)
Fixpoint recv_bits_loop (k : nat) (n : Z) (rx : pystr) (val : Z) : Z :=
  match k with
  | O => val
  | S k' =>
      let val :=
        if bool_decide (rx !! Z.to_nat n = Some "1"%char)
        then Z.lor val (Z.shiftl 1 n) else val in
      recv_bits_loop k' (n + 1) rx val
  end.

Definition recv_bits (d : t) (nbits : Z) : option Z * t :=
  if nbits <=? Z.of_nat (length (rxdata d)) then
    (Some (recv_bits_loop (Z.to_nat nbits) 0 (rxdata d) 0),
     set_rxdata d (slice_from nbits (rxdata d)))
  else (None, d).

Section WithGpio.
Context {L : Type} `{Gpio L}.

(** Open and close only configure the two pins. *)
Definition open (l : L) : bool * L :=
  (true, gpio_setup DAT_PIN GPIO_IN (gpio_setup CLK_PIN GPIO_OUT l)).

Definition close (l : L) : bool * L :=
  (true, gpio_setup DAT_PIN GPIO_IN (gpio_setup CLK_PIN GPIO_IN l)).

(** One iteration of the [for bit in self.txdata] loop of [xfer]. *)
Definition xfer_bit (bit : ascii) (lastbit : pystr) (rx : pystr) (l : L)
  : pystr * L :=
  let '(rx, l) :=
    if Ascii.eqb bit "."%char then
      let '(v, l) := gpio_input DAT_PIN l in
      let rx := rx ++ [if v then "1"%char else "0"%char] in
      let l := if bool_decide ([bit] <> lastbit)
               then gpio_setup DAT_PIN GPIO_IN l else l in
      (rx, gpio_output CLK_PIN 1 l)
    else
      let l := if bool_decide (lastbit = []) || bool_decide (lastbit = ["."%char])
               then gpio_setup DAT_PIN GPIO_OUT l else l in
      let l := gpio_output DAT_PIN (if Ascii.eqb bit "1"%char then 1 else 0) l in
      (rx, gpio_output CLK_PIN 1 l) in
  (rx, gpio_output CLK_PIN 0 l).

Fixpoint xfer_loop (tx : pystr) (lastbit : pystr) (rx : pystr) (l : L)
  : pystr * L :=
  match tx with
  | [] => (rx, l)
  | bit :: tx' =>
      let '(rx, l) := xfer_bit bit lastbit rx l in
      xfer_loop tx' [bit] rx l
  end.

(** [xfer] returns [self.rxdata]; that is the [rxdata] of the result. *)
Definition xfer (d : t) (l : L) : t * L :=
  let '(rx, l) := xfer_loop (txdata d) [] [] l in
  (mk [] rx, l).
End WithGpio.

End GpioDrv.

(** ** Frame layouts

    Every field is a [c_uint] bit-field; a layout lists (name, width). *)

Definition swd_hdr : list (string * Z) :=
  [("Start", 1); ("APnDP", 1); ("RnW", 1); ("Addr", 2);
   ("Parity", 1); ("Stop", 1); ("Park", 1)]%string.

Definition swd_ack : list (string * Z) := [("ack", 3)]%string.

Definition swd_val32p : list (string * Z) := [("value", 32); ("parity", 1)]%string.

Definition swd_turn : list (string * Z) := [("turn", 1)]%string.

(** ** [class BitReg] *)
Module BitReg.

Record t := mk {
  fields : list (string * Z);
  recv : bool;
  vals : gmap string Z;
  nbits : Z
}.

Definition set_recv (r : t) (b : bool) : t := mk (fields r) b (vals r) (nbits r).
Definition set_vals (r : t) (v : gmap string Z) : t :=
  mk (fields r) (recv r) v (nbits r).

(** A fresh [Struct()]: every declared field is zero. *)
Definition Struct (fs : list (string * Z)) : gmap string Z :=
  list_to_map (map (fun f => (f.1, 0)) fs).

Definition init (fs : list (string * Z)) (recv : bool) : t :=
  mk fs recv (Struct fs) (foldr Z.add 0 (map snd fs)).

Fixpoint field_width (fs : list (string * Z)) (name : string) : option Z :=
  match fs with
  | [] => None
  | f :: fs' => if String.eqb f.1 name then Some f.2 else field_width fs' name
  end.

Definition getattr (r : t) (name : string) : Z := vals r !!! name.

(** Storing into a bit-field of width [w] keeps the low [w] bits; a name
    that is not a declared field becomes a plain attribute. *)
Definition setattr (r : t) (name : string) (val : Z) : t :=
  match field_width (fields r) name with
  | Some w => set_vals r (<[name := val mod 2 ^ w]> (vals r))
  | None => set_vals r (<[name := val]> (vals r))
  end.

Definition send_vals (r : t) (d : GpioDrv.t) : GpioDrv.t :=
  fold_left (fun d f => GpioDrv.send_bits d (getattr r f.1) f.2 (recv r))
            (fields r) d.

(** The [for field in self.fields] loop of [recv_vals].  [setattr] of the
    [None] that [recv_bits] returns on a short buffer raises [TypeError]. *)
Fixpoint recv_fields (fs : list (string * Z)) (r : t) (d : GpioDrv.t)
  : option (t * GpioDrv.t) :=
  match fs with
  | [] => Some (r, d)
  | f :: fs' =>
      if recv r then
        let '(val, d) := GpioDrv.recv_bits d f.2 in
        match val with
        | Some v => recv_fields fs' (setattr r f.1 v) d
        | None => None
        end
      else recv_fields fs' r d
  end.

Definition recv_vals (r : t) (d : GpioDrv.t) : option (t * GpioDrv.t) :=
  recv_fields (fields r) r d.

End BitReg.

(** ** [class SwdMsg] *)
Module SwdMsg.

(** The five [BitReg] objects a message owns; [regs] lists references to
    them, so an update of [val32p] is seen through [regs]. *)
Inductive reg := Hdr | Turn1 | Ack | Turn2 | Val32p.

Record t := mk {
  drv : GpioDrv.t;
  regs : list reg;
  ok : bool;
  verbose : bool;
  hdr : BitReg.t;
  turn1 : BitReg.t;
  ack : BitReg.t;
  turn2 : BitReg.t;
  val32p : BitReg.t
}.

Definition set_drv (m : t) (d : GpioDrv.t) : t :=
  mk d (regs m) (ok m) (verbose m) (hdr m) (turn1 m) (ack m) (turn2 m) (val32p m).
Definition set_regs (m : t) (rs : list reg) : t :=
  mk (drv m) rs (ok m) (verbose m) (hdr m) (turn1 m) (ack m) (turn2 m) (val32p m).
Definition set_ok (m : t) (b : bool) : t :=
  mk (drv m) (regs m) b (verbose m) (hdr m) (turn1 m) (ack m) (turn2 m) (val32p m).
Definition set_verbose (m : t) (b : bool) : t :=
  mk (drv m) (regs m) (ok m) b (hdr m) (turn1 m) (ack m) (turn2 m) (val32p m).

Definition get_reg (m : t) (r : reg) : BitReg.t :=
  match r with
  | Hdr => hdr m | Turn1 => turn1 m | Ack => ack m
  | Turn2 => turn2 m | Val32p => val32p m
  end.

Definition set_reg (m : t) (r : reg) (b : BitReg.t) : t :=
  match r with
  | Hdr => mk (drv m) (regs m) (ok m) (verbose m) b (turn1 m) (ack m) (turn2 m) (val32p m)
  | Turn1 => mk (drv m) (regs m) (ok m) (verbose m) (hdr m) b (ack m) (turn2 m) (val32p m)
  | Ack => mk (drv m) (regs m) (ok m) (verbose m) (hdr m) (turn1 m) b (turn2 m) (val32p m)
  | Turn2 => mk (drv m) (regs m) (ok m) (verbose m) (hdr m) (turn1 m) (ack m) b (val32p m)
  | Val32p => mk (drv m) (regs m) (ok m) (verbose m) (hdr m) (turn1 m) (ack m) (turn2 m) b
  end.

Definition init (d : GpioDrv.t) : t :=
  let h := BitReg.init swd_hdr false in
  let h := BitReg.setattr h "Start" 1 in
  let h := BitReg.setattr h "Stop" 0 in
  let h := BitReg.setattr h "Park" 1 in
  mk d [] false false h
     (BitReg.init swd_turn true) (BitReg.init swd_ack true)
     (BitReg.init swd_turn true) (BitReg.init swd_val32p false).

Definition arm_wakeup_msg (m : t) : t :=
  let d := GpioDrv.send_bytes (drv m) [0xff] false in
  let d := GpioDrv.send_bytes d
             [0x92; 0xF3; 0x09; 0x62; 0x95; 0x2D; 0x85; 0x86;
              0xE9; 0xAF; 0xDD; 0xE3; 0xA2; 0x0E; 0xBC; 0x19] false in
  let d := GpioDrv.send_bits d 0 4 false in
  let d := GpioDrv.send_bytes d [0x1a] false in
  set_drv m d.

Definition swd_reset_msg (m : t) : t :=
  set_drv m (GpioDrv.send_bytes (drv m)
               [0xff; 0xff; 0xff; 0xff; 0xff; 0xff; 0xff; 0x00] false).

Definition set (m : t) (ap rd addr val : Z) : t :=
  let h := BitReg.setattr (hdr m) "APnDP" ap in
  let h := BitReg.setattr h "RnW" rd in
  let h := BitReg.setattr h "Addr" (Z.shiftr addr 2) in
  let h := BitReg.setattr h "Parity"
             (Z.land (Z.lxor (Z.lxor (Z.lxor ap rd) (Z.shiftr addr 2))
                             (Z.shiftr addr 3)) 1) in
  let m := set_reg m Hdr h in
  let v := BitReg.setattr (val32p m) "value" val in
  let v := BitReg.setattr v "parity" (parity32 val) in
  let m := set_reg m Val32p v in
  let m := set_regs m [Hdr; Turn1; Ack] in
  let m := set_regs m (regs m ++ if truthy rd then [Val32p; Turn2]
                                 else [Turn2; Val32p]) in
  set_reg m Val32p (BitReg.set_recv (val32p m) (truthy rd)).

Definition send_vals (m : t) : t :=
  set_drv m (fold_left (fun d r => BitReg.send_vals (get_reg m r) d)
                       (regs m) (drv m)).

Definition check (m : t) : t :=
  set_ok m ((BitReg.getattr (ack m) "ack" =? 1) &&
            ((BitReg.getattr (hdr m) "RnW" =? 0) ||
             (parity32 (BitReg.getattr (val32p m) "value") =?
              BitReg.getattr (val32p m) "parity"))).

(** The [for reg in self.regs] loop of [recv_vals]. *)
Fixpoint recv_regs (rs : list reg) (m : t) : option t :=
  match rs with
  | [] => Some m
  | r :: rs' =>
      '(b, d) ← BitReg.recv_vals (get_reg m r) (drv m);
      recv_regs rs' (set_drv (set_reg m r b) d)
  end.

Definition recv_vals (m : t) : option t :=
  m ← recv_regs (regs m) m; Some (check m).

Section WithGpio.
Context {L : Type} `{Gpio L}.

Definition xfer (m : t) (l : L) : t * L :=
  let '(d, l) := GpioDrv.xfer (drv m) l in (set_drv m d, l).

(** Printing of the verbose line is not modelled. *)
Definition read (m : t) (ap addr : Z) (l : L) : option (t * L) :=
  let '(m, l) := xfer (send_vals (set m ap SWD_RD addr 0)) l in
  m ← recv_vals m; Some (m, l).

Definition write (m : t) (ap addr val : Z) (l : L) : option (t * L) :=
  let '(m, l) := xfer (send_vals (set m ap SWD_WR addr val)) l in
  m ← recv_vals m; Some (m, l).

End WithGpio.

End SwdMsg.

(** ** [class SwdConnection]

    The record is a connection after [open()]: [self.drv] is the driver
    object held by [self.msg], so it is reached through [msg]. *)
Module SwdConnection.

Record t := mk { msg : SwdMsg.t; connected : bool; dp : Z }.

Definition set_msg (c : t) (m : SwdMsg.t) : t := mk m (connected c) (dp c).
Definition set_connected (c : t) (b : bool) : t := mk (msg c) b (dp c).

Definition set_core (c : t) (core : Z) : t :=
  mk (msg c) (connected c) (if truthy core then DP_CORE1 else DP_CORE0).

Definition verbose (c : t) (enable : bool) : t :=
  set_msg c (SwdMsg.set_verbose (msg c) enable).

(** What is left when a loop with a fuel bound stops. *)
Inductive outcome (A : Type) :=
| Returned (a : A)
| Raised
| OutOfFuel.
Arguments Returned {A} a.
Arguments Raised {A}.
Arguments OutOfFuel {A}.

Section WithGpio.
Context {L : Type} `{Gpio L}.

(** [__init__] followed by [open()]. *)
Definition open (l : L) : bool * t * L :=
  let '(_, l) := GpioDrv.open l in
  (true, mk (SwdMsg.init GpioDrv.init) false DP_CORE0, l).

Definition connect (c : t) (l : L) : option (bool * t * L) :=
  let '(m, l) :=
    SwdMsg.xfer (SwdMsg.swd_reset_msg (SwdMsg.arm_wakeup_msg (msg c))) l in
  '(m, l) ← SwdMsg.write m SWD_DP 0xc (dp c) l;
  Some (true, set_msg c m, l).

Definition disconnect (c : t) (l : L) : t * L :=
  let '(m, l) := SwdMsg.xfer (SwdMsg.swd_reset_msg (msg c)) l in
  (mk m false (dp c), l).

(** [self.msg.val32p.vals.value if self.msg.ok else None] *)
Definition value_if_ok (m : SwdMsg.t) : option Z :=
  if SwdMsg.ok m then Some (BitReg.getattr (SwdMsg.val32p m) "value") else None.

Definition get_dpidr (c : t) (l : L) : option (option Z * t * L) :=
  '(m, l) ← SwdMsg.read (msg c) SWD_DP 0 l;
  Some (value_if_ok m, set_msg c m, l).

Definition power_up (c : t) (l : L) : option (option Z * t * L) :=
  '(m, l) ← SwdMsg.write (msg c) SWD_DP 0 0x1e l;
  '(m, l) ← SwdMsg.write m SWD_DP 8 0 l;
  '(m, l) ← SwdMsg.write m SWD_DP 4 0x50000001 l;
  '(m, l) ← SwdMsg.read m SWD_DP 4 l;
  '(m, l) ← SwdMsg.write m SWD_DP 8 0xf0 l;
  '(m, l) ← SwdMsg.read m SWD_AP 0xc l;
  '(m, l) ← SwdMsg.read m SWD_DP 0xc l;
  let idr := value_if_ok m in
  '(m, l) ← SwdMsg.write m SWD_AP 0 0xA2000012 l;
  '(m, l) ← SwdMsg.write m SWD_DP 8 0 l;
  Some (if SwdMsg.ok m then idr else None, set_msg c m, l).

(** The three transactions of [peek], with the message after each. *)
Definition peek_steps (c : t) (addr : Z) (l : L)
  : option (SwdMsg.t * SwdMsg.t * SwdMsg.t * L) :=
  '(m1, l) ← SwdMsg.write (msg c) SWD_AP 4 addr l;
  '(m2, l) ← SwdMsg.read m1 SWD_AP 0xc l;
  '(m3, l) ← SwdMsg.read m2 SWD_DP 0xc l;
  Some (m1, m2, m3, l).

Definition peek (c : t) (addr : Z) (l : L) : option (option Z * t * L) :=
  '(_, _, m, l) ← peek_steps c addr l;
  Some (value_if_ok m, set_msg c m, l).

(** A user function: it may use the connection and the pins, and returns a
    value or [None]. *)
Definition user_func := t -> L -> option (option Z * t * L).

(** The [if not self.connected and self.connect()] block of the retry loop. *)
Definition reconnect (tries : Z) (c : t) (l : L) : option (Z * t * L) :=
  if negb (connected c) then
    '(okc, c', l') ← connect c l;
    if (okc : bool) then
      let c := set_connected c' true in
      '(dpidr, c, l) ← get_dpidr c l';
      match dpidr with
      | None => Some (tries, set_connected c false, l)
      | Some _ =>
          '(apidr, c, l) ← power_up c l;
          match apidr with
          | None => Some (tries, set_connected c false, l)
          | Some _ => Some (NUM_TRIES, c, l)
          end
      end
    else Some (tries, c', l')
  else Some (tries, c, l).

(** One pass through the body of the [while]; the first component says
    whether the pass ended in [break]. *)
Definition retry_body (func : option user_func) (tries : Z) (c : t) (l : L)
  : option (bool * option Z * Z * t * L) :=
  '(tries, c, l) ← reconnect tries c l;
  if negb (connected c) then Some (false, None, tries - 1, c, l)
  else match func with
       | None => Some (true, None, tries, c, l)
       | Some f =>
           '(val, c, l) ← f c l;
           match val with
           | None => Some (false, None, tries - 1, set_connected c false, l)
           | Some v => Some (false, Some v, NUM_TRIES, c, l)
           end
       end.

(** The [while tries>0 and val is None] loop, at most [fuel] passes. *)
Fixpoint retry_loop (fuel : nat) (func : option user_func)
         (val : option Z) (tries : Z) (c : t) (l : L)
  : outcome (option Z * t * L) :=
  match fuel with
  | O => OutOfFuel
  | S fuel' =>
      if (0 <? tries) && bool_decide (val = None) then
        match retry_body func tries c l with
        | None => Raised
        | Some (brk, val, tries, c, l) =>
            if (brk : bool) then Returned (val, c, l)
            else retry_loop fuel' func val tries c l
        end
      else Returned (val, c, l)
  end.

Definition conn_func_retry (fuel : nat) (func : option user_func)
           (c : t) (l : L) : outcome (option Z * t * L) :=
  retry_loop fuel func None NUM_TRIES c l.

End WithGpio.

End SwdConnection.

(** ** Line drivers used to exercise the code *)

(** A data line that replays [pattern] over and over: sample number [k]
    reads [pattern[k mod len]].  Pin configuration and driven levels are
    ignored. *)
Module PatternLine.

Record t := mk { pattern : list bool; rest : list bool }.

Definition start (pat : list bool) : t := mk pat [].

Definition sample (s : t) : bool * t :=
  match rest s with
  | b :: r => (b, mk (pattern s) r)
  | [] => match pattern s with
          | b :: r => (b, mk (pattern s) r)
          | [] => (false, s)
          end
  end.

(** The next [k] samples of the line. *)
Fixpoint samples (k : nat) (s : t) : list bool * t :=
  match k with
  | O => ([], s)
  | S k' =>
      let '(b, s) := sample s in
      let '(bs, s) := samples k' s in
      (b :: bs, s)
  end.

#[global] Instance gpio : Gpio t := {|
  gpio_setup _ _ s := s;
  gpio_output _ _ s := s;
  gpio_input _ s := sample s
|}.

End PatternLine.

(** A recorder around any line driver: it forwards every call and logs it. *)
Module Traced.

Inductive gpio_op :=
| OpSetup (pin : Z) (dir : direction)
| OpOutput (pin : Z) (level : Z)
| OpInput (pin : Z) (level : bool).

Definition op_pin (op : gpio_op) : Z :=
  match op with
  | OpSetup p _ | OpOutput p _ | OpInput p _ => p
  end.

#[global] Instance gpio {L : Type} `{Gpio L} : Gpio (L * list gpio_op) := {|
  gpio_setup pin dir s := (gpio_setup pin dir s.1, s.2 ++ [OpSetup pin dir]);
  gpio_output pin level s := (gpio_output pin level s.1, s.2 ++ [OpOutput pin level]);
  gpio_input pin s :=
    let '(v, l) := gpio_input pin s.1 in (v, (l, s.2 ++ [OpInput pin v]))
|}.

(** Direction of the data pin after the calls of [tr], starting from [d0]. *)
Definition dat_dir (d0 : direction) (tr : list gpio_op) : direction :=
  fold_left (fun d op =>
               match op with
               | OpSetup pin d' => if pin =? DAT_PIN then d' else d
               | _ => d
               end) tr d0.

(** Every capture of the data line happens with the pin set as input. *)
Definition sampled_as_input (d0 : direction) (tr : list gpio_op) : Prop :=
  forall pre v post,
    tr = pre ++ OpInput DAT_PIN v :: post -> dat_dir d0 pre = GPIO_IN.

Definition clock_pulse : list gpio_op := [OpOutput CLK_PIN 1; OpOutput CLK_PIN 0].

(** The entry handled just before entry [i] of a plan: [lastbit] of the
    loop. *)
Definition prev_entry (lastbit : pystr) (tx : pystr) (i : nat) : pystr :=
  match i with
  | O => lastbit
  | S j => match tx !! j with Some c => [c] | None => [] end
  end.

(** What the calls [g] made for one plan entry [bit] look like, [before]
    being the calls made so far and [prev] the entry before it. *)
Definition entry_calls (d0 : direction) (before : list gpio_op)
           (prev : pystr) (bit : ascii) (g : list gpio_op) : Prop :=
  exists body,
    g = body ++ clock_pulse /\
    Forall (fun op => op_pin op = DAT_PIN) body /\
    (bit = "."%char ->
     exists v,
       if bool_decide (prev = ["."%char])
       then body = [OpInput DAT_PIN v] /\ dat_dir d0 before = GPIO_IN
       else body = [OpInput DAT_PIN v; OpSetup DAT_PIN GPIO_IN]).

End Traced.

(** ** Auxiliary definitions for the parity proof *)

(** A 32-bit word from its four bytes, least significant first. *)
Definition bytes4 (b0 b1 b2 b3 : Z) : Z :=
  b0 + 2 ^ 8 * (b1 + 2 ^ 8 * (b2 + 2 ^ 8 * b3)).

(** The first two lines of [parity32], restricted to one byte. *)
Definition pair_sums (b : Z) : Z := b - Z.land (Z.shiftr b 1) 0x55.
Definition nibble_sums (a : Z) : Z := Z.land a 0x33 + Z.land (Z.shiftr a 2) 0x33.

(** After those two lines each nibble of a byte holds the number of set
    bits of the corresponding nibble of the input. *)
Definition byte_ok (b : Z) : Prop :=
  0 <= pair_sums b < 256 /\
  nibble_sums (pair_sums b) mod 16 <= 4 /\
  0 <= nibble_sums (pair_sums b) / 16 <= 4 /\
  nibble_sums (pair_sums b) mod 16 + nibble_sums (pair_sums b) / 16 = count_bits 8 b.

#[local] Instance byte_ok_dec b : Decision (byte_ok b).
Proof. unfold byte_ok. apply _. Defined.

(** ** Vocabulary for statements about transactions *)

(** Number of ["."] (sample) entries of a bit-plan. *)
Fixpoint sample_count (plan : pystr) : nat :=
  match plan with
  | [] => O
  | c :: plan' => ((if Ascii.eqb c "."%char then 1 else 0) + sample_count plan')%nat
  end.

(** Declared width of a frame layout: the sum of its field widths. *)
Definition layout_width (fs : list (string * Z)) : Z :=
  foldr Z.add 0 (map snd fs).

(** Total declared width of the frames of [m.regs] that [recv_vals]
    decodes, that is, of those in sampled mode. *)
Definition decoded_width (m : SwdMsg.t) : Z :=
  foldr Z.add 0
        (map (fun r => if BitReg.recv (SwdMsg.get_reg m r)
                       then layout_width (BitReg.fields (SwdMsg.get_reg m r))
                       else 0)
             (SwdMsg.regs m)).

(** The layouts and modes that [SwdMsg.__init__] gives the five frames and
    that no method changes ([val32p.recv] is set by every [set]). *)
Definition msg_wf (m : SwdMsg.t) : Prop :=
  BitReg.fields (SwdMsg.hdr m) = swd_hdr /\ BitReg.recv (SwdMsg.hdr m) = false /\
  BitReg.fields (SwdMsg.turn1 m) = swd_turn /\ BitReg.recv (SwdMsg.turn1 m) = true /\
  BitReg.fields (SwdMsg.ack m) = swd_ack /\ BitReg.recv (SwdMsg.ack m) = true /\
  BitReg.fields (SwdMsg.turn2 m) = swd_turn /\ BitReg.recv (SwdMsg.turn2 m) = true /\
  BitReg.fields (SwdMsg.val32p m) = swd_val32p.

(** The same width as a number of buffer positions. *)
Definition layout_nat_width (fs : list (string * Z)) : nat :=
  foldr Nat.add O (map (fun f => Z.to_nat f.2) fs).

(** Sampled positions a frame contributes to a bit-plan. *)
Definition frame_samples (r : BitReg.t) : nat :=
  if BitReg.recv r then layout_nat_width (BitReg.fields r) else O.

(** Sampled positions of the frames [rs] of a message. *)
Definition regs_samples (m : SwdMsg.t) (rs : list SwdMsg.reg) : nat :=
  foldr Nat.add O (map (fun r => frame_samples (SwdMsg.get_reg m r)) rs).

(** [m'] has the layouts and modes of [m], and the very frames of [m] that
    are in driven mode. *)
Definition same_shape (m m' : SwdMsg.t) : Prop :=
  forall r,
    BitReg.fields (SwdMsg.get_reg m' r) = BitReg.fields (SwdMsg.get_reg m r) /\
    BitReg.recv (SwdMsg.get_reg m' r) = BitReg.recv (SwdMsg.get_reg m r) /\
    (BitReg.recv (SwdMsg.get_reg m r) = false ->
     SwdMsg.get_reg m' r = SwdMsg.get_reg m r).

(** ** What a target puts on the line *)

(** The low [n] bits of [z], least significant first. *)
Definition bits_lsb (n : nat) (z : Z) : list bool :=
  map (fun i => Z.testbit z (Z.of_nat i)) (seq 0 n).

(** Samples of a write transaction: turnaround, ack code, turnaround. *)
Definition write_samples (ack : Z) : list bool :=
  [false] ++ bits_lsb 3 ack ++ [false].

(** Samples of a read transaction: turnaround, ack code, data value, parity
    bit, turnaround. *)
Definition read_samples (ack value parity : Z) : list bool :=
  [false] ++ bits_lsb 3 ack ++ bits_lsb 32 value ++ bits_lsb 1 parity ++ [false].

(** A [peek] whose write gets ack WAIT and whose two reads get ack OK, with
    data 0 and then data 1, each with matching parity. *)
Definition wait_then_ok : list bool :=
  write_samples SWD_ACK_WAIT ++
  read_samples SWD_ACK_OK 0 (parity32 0) ++
  read_samples SWD_ACK_OK 1 (parity32 1).

(** One pass of the retry loop around [peek] on a target that answers the
    whole connection sequence but faults the memory access: the select
    write of [connect], the DPIDR read, the nine transactions of
    [power_up] and the first two of [peek] get ack OK; the last read of
    [peek] gets ack FAULT. *)
Definition peek_faults : list bool :=
  write_samples SWD_ACK_OK ++
  read_samples SWD_ACK_OK 0x0bc12477 (parity32 0x0bc12477) ++
  (write_samples SWD_ACK_OK ++ write_samples SWD_ACK_OK ++
   write_samples SWD_ACK_OK ++ read_samples SWD_ACK_OK 0 0 ++
   write_samples SWD_ACK_OK ++ read_samples SWD_ACK_OK 0 0 ++
   read_samples SWD_ACK_OK 0x04770031 (parity32 0x04770031) ++
   write_samples SWD_ACK_OK ++ write_samples SWD_ACK_OK) ++
  (write_samples SWD_ACK_OK ++ read_samples SWD_ACK_OK 0 0 ++
   read_samples SWD_ACK_ERROR 0 0).

(** The call of the main program: [conn_func_retry(conn.peek, test_addr)]. *)
Definition peek_test_addr : SwdConnection.user_func (L := PatternLine.t) :=
  fun c l => SwdConnection.peek c test_addr l.

(** The connection right after [open()]. *)
Definition opened : SwdConnection.t := (SwdConnection.open (PatternLine.start [])).1.2.

(** Connection and line after the first pass of the loop on [peek_faults]. *)
Definition after_failed_pass : SwdConnection.t * PatternLine.t :=
  match SwdConnection.retry_body (Some peek_test_addr) NUM_TRIES opened
          (PatternLine.start peek_faults) with
  | Some (_, _, _, c, l) => (c, l)
  | None => (opened, PatternLine.start peek_faults)
  end.

(** ** Definitions used to state further properties *)

(** The character [xfer] stores for a sampled level and [send_bits] emits
    for a driven bit. *)
Definition level_char (b : bool) : ascii := if b then "1"%char else "0"%char.

(** The levels returned by the [GPIO.input] calls of a trace, in order. *)
Definition input_levels (tr : list Traced.gpio_op) : list bool :=
  flat_map (fun op => match op with
                      | Traced.OpInput _ v => [v]
                      | _ => []
                      end) tr.

(** The calls [g] made for a driven plan entry [bit]: the data pin is
    switched to output first when the entry opens the plan or follows a
    sample entry, the level is driven with the pin configured as output,
    and the clock pulse follows. *)
Definition driven_calls (d0 : direction) (before : list Traced.gpio_op)
           (prev : pystr) (bit : ascii) (g : list Traced.gpio_op) : Prop :=
  let setup :=
    if bool_decide (prev = []) || bool_decide (prev = ["."%char])
    then [Traced.OpSetup DAT_PIN GPIO_OUT] else [] in
  g = setup ++
      [Traced.OpOutput DAT_PIN (if Ascii.eqb bit "1"%char then 1 else 0)] ++
      Traced.clock_pulse /\
  Traced.dat_dir d0 (before ++ setup) = GPIO_OUT.

(** The header bits that [SwdMsg.__init__] fixes. *)
Definition hdr_consts (m : SwdMsg.t) : Prop :=
  BitReg.getattr (SwdMsg.hdr m) "Start" = 1 /\
  BitReg.getattr (SwdMsg.hdr m) "Stop" = 0 /\
  BitReg.getattr (SwdMsg.hdr m) "Park" = 1.

(** The header parity expression of [set]. *)
Definition hdr_parity (ap rd addr : Z) : Z :=
  Z.land (Z.lxor (Z.lxor (Z.lxor ap rd) (Z.shiftr addr 2)) (Z.shiftr addr 3)) 1.

(** The eight header entries of a plan: Start, APnDP, RnW, address bits 2
    and 3, Parity, Stop, Park. *)
Definition hdr_plan (ap rd addr : Z) : pystr :=
  map level_char
      ([true] ++ bits_lsb 1 ap ++ bits_lsb 1 rd ++ bits_lsb 2 (Z.shiftr addr 2) ++
       bits_lsb 1 (hdr_parity ap rd addr) ++ [false; true]).

(** What a frame puts in the plan: one dot per declared bit in sampled
    mode, the bits of each field value, least significant first and in
    declaration order, in driven mode. *)
Definition frame_plan (r : BitReg.t) : pystr :=
  if BitReg.recv r then repeat "."%char (layout_nat_width (BitReg.fields r))
  else flat_map (fun f => map level_char
                              (bits_lsb (Z.to_nat f.2) (BitReg.getattr r f.1)))
                (BitReg.fields r).

(** Field values of a data frame holding [v] and parity bit [p]. *)
Definition data_fields (v p : Z) (name : string) : Z :=
  if String.eqb name "value" then v else p.

(** A message between transactions: the layouts and the fixed header bits
    of [__init__], and nothing pending in either buffer. *)
Definition msg_idle (m : SwdMsg.t) : Prop :=
  msg_wf m /\ hdr_consts m /\ SwdMsg.drv m = GpioDrv.init.

(** Samples of a target that acknowledges a write. *)
Definition ok_write : list bool := write_samples SWD_ACK_OK.

(** Samples of a target that answers a read with [v] and its parity. *)
Definition ok_read (v : Z) : list bool := read_samples SWD_ACK_OK v (parity32 v).

(** A target that answers the whole sequence of one loop pass around
    [peek]: the select write of [connect], the DPIDR read, the nine
    transactions of [power_up] and the three of [peek], every one with ack
    OK and every data word with its parity. *)
Definition target_answers (dpidr stat apr idr rd v : Z) : list bool :=
  ok_write ++ ok_read dpidr ++
  ok_write ++ ok_write ++ ok_write ++ ok_read stat ++ ok_write ++
  ok_read apr ++ ok_read idr ++ ok_write ++ ok_write ++
  ok_write ++ ok_read rd ++ ok_read v.

(** ** [picoreg_qt.TreeWidget]: the value column *)
Module TreeWidget.

(** The conversion [item_value_display] picks: [%u], or [%x] padded with
    zeros to a number of digits. *)
Inductive conversion := Unsigned | Hex (digits : Z).

(** The text put in the value column, as the conversion chosen and the
    number handed to it; [Blank] is the empty string. *)
Inductive shown := Blank | Number (c : conversion) (val : Z).

(** [bits] is what [item_bits] returns: [None], or the two numbers of the
    bit-range text, high bit first.  A negative shift count raises
    [ValueError]. *)
Definition item_value_display (bits : option (Z * Z)) (value : option Z)
  : option shown :=
  match value with
  | None => Some Blank
  | Some value =>
      let bits := match bits with Some b => b | None => (31, 0) end in
      let nbits := bits.1 - bits.2 + 1 in
      if (bits.2 <? 0) || (nbits <? 0) then None
      else
        let val := Z.land (Z.shiftr value bits.2) (Z.shiftl 1 nbits - 1) in
        Some (Number (if nbits <=? 3 then Unsigned
                      else if nbits <=? 4 then Hex 1
                      else if nbits <=? 8 then Hex 2
                      else if nbits <=? 16 then Hex 4
                      else Hex 8) val)
  end.

End TreeWidget.

(** * Properties

    ** [parity32] is the parity of the population count *)

(** Bits of a number given as a low part below [2^k] and a high part. *)
Lemma testbit_split k lo hi n :
  0 <= k -> 0 <= lo < 2 ^ k -> 0 <= n ->
  Z.testbit (lo + 2 ^ k * hi) n =
  if n <? k then Z.testbit lo n else Z.testbit hi (n - k).
Proof.
  intros Hk Hlo Hn.
  assert (Hp : 0 < 2 ^ k) by lia.
  destruct (Z.ltb_spec n k).
  - rewrite <- (Z.mod_pow2_bits_low (lo + 2 ^ k * hi) k n) by lia.
    f_equal. rewrite (Z.mul_comm (2 ^ k) hi), Z.mod_add by lia.
    apply Z.mod_small; lia.
  - replace n with ((n - k) + k) at 1 by lia.
    rewrite <- Z.div_pow2_bits by lia.
    f_equal. rewrite (Z.mul_comm (2 ^ k) hi), Z.div_add by lia.
    rewrite Z.div_small; lia.
Qed.

Lemma land_bound a m k :
  0 <= k -> 0 <= m < 2 ^ k -> 0 <= Z.land a m < 2 ^ k.
Proof.
  intros Hk Hm.
  assert (E : Z.land a m = Z.land a m mod 2 ^ k).
  { rewrite <- Z.land_ones, <- Z.land_assoc, Z.land_ones by lia.
    rewrite (Z.mod_small m) by lia. reflexivity. }
  rewrite E. apply Z.mod_pos_bound. lia.
Qed.

Lemma land_shiftr_split k s lo hi m M :
  0 <= s <= k -> 0 <= lo < 2 ^ k -> 0 <= hi -> 0 <= m < 2 ^ (k - s) -> 0 <= M ->
  Z.land (Z.shiftr (lo + 2 ^ k * hi) s) (m + 2 ^ k * M) =
  Z.land (Z.shiftr lo s) m + 2 ^ k * Z.land (Z.shiftr hi s) M.
Proof.
  intros Hs Hlo Hhi Hm HM.
  assert (Hmk : 0 <= m < 2 ^ k).
  { split; [lia|]. eapply Z.lt_le_trans; [apply Hm|]. apply Z.pow_le_mono_r; lia. }
  assert (HX := land_bound (Z.shiftr lo s) m k ltac:(lia) Hmk).
  apply Z.bits_inj'. intros n Hn.
  rewrite Z.land_spec, Z.shiftr_spec by lia.
  rewrite !testbit_split by lia.
  rewrite Z.land_spec, !Z.shiftr_spec by lia.
  destruct (Z.ltb_spec n k), (Z.ltb_spec (n + s) k); try lia.
  - reflexivity.
  - assert (Z.testbit m n = false) as ->.
    { destruct (Z.eq_dec m 0) as [->|]; [apply Z.bits_0|].
      apply Z.bits_above_log2; [lia|].
      apply Z.lt_le_trans with (k - s); [|lia].
      apply Z.log2_lt_pow2; lia. }
    rewrite !andb_false_r. reflexivity.
  - rewrite Z.land_spec, Z.shiftr_spec by lia. do 2 f_equal. lia.
Qed.

Lemma land_shiftr_bytes s m b0 b1 b2 b3 :
  0 <= s <= 8 -> 0 <= m < 2 ^ (8 - s) ->
  0 <= b0 < 256 -> 0 <= b1 < 256 -> 0 <= b2 < 256 -> 0 <= b3 ->
  Z.land (Z.shiftr (bytes4 b0 b1 b2 b3) s) (bytes4 m m m m) =
  bytes4 (Z.land (Z.shiftr b0 s) m) (Z.land (Z.shiftr b1 s) m)
         (Z.land (Z.shiftr b2 s) m) (Z.land (Z.shiftr b3 s) m).
Proof.
  intros Hs Hm H0 H1 H2 H3. unfold bytes4.
  change (2 ^ 8) with 256 in *.
  change 256 with (2 ^ 8).
  rewrite !land_shiftr_split; change (2 ^ 8) with 256; lia.
Qed.

Lemma byte_ok_all b : 0 <= b < 256 -> byte_ok b.
Proof.
  intros Hb.
  assert (H : Forall byte_ok (seqZ 0 256)).
  { refine (proj1 (bool_decide_eq_true (Forall byte_ok (seqZ 0 256))) _).
    vm_compute. reflexivity. }
  rewrite Forall_forall in H. apply H. apply elem_of_seqZ. lia.
Qed.

Lemma count_bits_app m n v :
  count_bits (m + n) v = count_bits m (v / 2 ^ Z.of_nat n) + count_bits n v.
Proof.
  induction m as [|m IH]; simpl count_bits; [lia|].
  rewrite IH, Z.div_pow2_bits by lia.
  rewrite Nat2Z.inj_add. lia.
Qed.

Lemma count_bits_mod k n v :
  (k <= n)%nat -> count_bits k (v mod 2 ^ Z.of_nat n) = count_bits k v.
Proof.
  induction k as [|k IH]; intros Hk; simpl count_bits; [reflexivity|].
  rewrite IH, Z.mod_pow2_bits_low by lia. reflexivity.
Qed.

Lemma count_bits_bytes b0 b1 b2 b3 :
  0 <= b0 < 256 -> 0 <= b1 < 256 -> 0 <= b2 < 256 -> 0 <= b3 < 256 ->
  count_bits 32 (bytes4 b0 b1 b2 b3) =
  count_bits 8 b0 + count_bits 8 b1 + count_bits 8 b2 + count_bits 8 b3.
Proof.
  intros H0 H1 H2 H3. unfold bytes4. change (2 ^ 8) with 256.
  assert (split8 : forall n lo hi, 0 <= lo < 256 ->
            count_bits (n + 8) (lo + 256 * hi) = count_bits n hi + count_bits 8 lo).
  { intros n lo hi Hlo. rewrite count_bits_app. f_equal.
    - f_equal. change (2 ^ Z.of_nat 8) with 256.
      rewrite (Z.mul_comm 256), Z.div_add, Z.div_small; lia.
    - rewrite <- (count_bits_mod 8 8 (lo + 256 * hi)) by lia.
      f_equal. change (2 ^ Z.of_nat 8) with 256.
      rewrite (Z.mul_comm 256), Z.mod_add, Z.mod_small; lia. }
  change 32%nat with (24 + 8)%nat. rewrite split8 by lia.
  change 24%nat with (16 + 8)%nat. rewrite split8 by lia.
  change 16%nat with (8 + 8)%nat. rewrite split8 by lia.
  lia.
Qed.

Lemma bytes4_of_word v :
  0 <= v < 2 ^ 32 ->
  exists b0 b1 b2 b3,
    v = bytes4 b0 b1 b2 b3 /\
    0 <= b0 < 256 /\ 0 <= b1 < 256 /\ 0 <= b2 < 256 /\ 0 <= b3 < 256.
Proof.
  intros Hv. change (2 ^ 32) with 4294967296 in Hv.
  exists (v mod 256), (v / 256 mod 256), (v / 65536 mod 256), (v / 16777216).
  unfold bytes4. change (2 ^ 8) with 256.
  repeat split; try (Z.div_mod_to_equations; lia).
Qed.

Lemma land_low_nibbles t :
  0 <= t < 2 ^ 32 ->
  Z.land t 0x0F0F0F0F =
  bytes4 (t mod 16) (t / 256 mod 16) (t / 65536 mod 16) (t / 16777216 mod 16).
Proof.
  intros Ht.
  destruct (bytes4_of_word t Ht) as (t0 & t1 & t2 & t3 & E & H0 & H1 & H2 & H3).
  rewrite <- (Z.shiftr_0_r t) at 1.
  change 0x0F0F0F0F with (bytes4 15 15 15 15).
  rewrite E at 1. rewrite land_shiftr_bytes by (simpl; lia).
  rewrite !Z.shiftr_0_r.
  change 15 with (Z.ones 4). rewrite !Z.land_ones by lia. change (2 ^ 4) with 16.
  f_equal; subst t; unfold bytes4; change (2 ^ 8) with 256;
    Z.div_mod_to_equations; lia.
Qed.

Lemma parity32_fold (n0 n1 n2 n3 n4 n5 n6 n7 : Z) :
  0 <= n0 <= 4 -> 0 <= n1 <= 4 -> 0 <= n2 <= 4 -> 0 <= n3 <= 4 ->
  0 <= n4 <= 4 -> 0 <= n5 <= 4 -> 0 <= n6 <= 4 -> 0 <= n7 <= 4 ->
  let i := bytes4 (n0 + 16 * n1) (n2 + 16 * n3) (n4 + 16 * n5) (n6 + 16 * n7) in
  Z.land (Z.shiftr (Z.land (i + Z.shiftr i 4) 0x0F0F0F0F * 0x01010101) 24) 1 =
  (n0 + n1 + n2 + n3 + n4 + n5 + n6 + n7) mod 2.
Proof.
  intros H0 H1 H2 H3 H4 H5 H6 H7 i.
  assert (Hs : Z.shiftr i 4 =
               bytes4 (n1 + 16 * n2) (n3 + 16 * n4) (n5 + 16 * n6) n7).
  { rewrite Z.shiftr_div_pow2 by lia. change (2 ^ 4) with 16.
    subst i. unfold bytes4. change (2 ^ 8) with 256.
    Z.div_mod_to_equations. lia. }
  assert (Ht : i + Z.shiftr i 4 =
               bytes4 ((n0 + n1) + 16 * (n1 + n2)) ((n2 + n3) + 16 * (n3 + n4))
                      ((n4 + n5) + 16 * (n5 + n6)) ((n6 + n7) + 16 * n7)).
  { rewrite Hs. subst i. unfold bytes4. lia. }
  rewrite land_low_nibbles.
  2:{ rewrite Ht. unfold bytes4. change (2 ^ 8) with 256. change (2 ^ 32) with 4294967296. lia. }
  rewrite Ht.
  assert (E : forall a b c d,
    0 <= a < 256 -> 0 <= b < 256 -> 0 <= c < 256 -> 0 <= d < 256 ->
    bytes4 (bytes4 a b c d mod 16) (bytes4 a b c d / 256 mod 16)
           (bytes4 a b c d / 65536 mod 16) (bytes4 a b c d / 16777216 mod 16) =
    bytes4 (a mod 16) (b mod 16) (c mod 16) (d mod 16)).
  { intros a b c d Ha Hb Hc Hd. f_equal; unfold bytes4; change (2 ^ 8) with 256;
      Z.div_mod_to_equations; lia. }
  rewrite E by lia. clear E.
  replace (((n0 + n1) + 16 * (n1 + n2)) mod 16) with (n0 + n1)
    by (Z.div_mod_to_equations; lia).
  replace (((n2 + n3) + 16 * (n3 + n4)) mod 16) with (n2 + n3)
    by (Z.div_mod_to_equations; lia).
  replace (((n4 + n5) + 16 * (n5 + n6)) mod 16) with (n4 + n5)
    by (Z.div_mod_to_equations; lia).
  replace (((n6 + n7) + 16 * n7) mod 16) with (n6 + n7)
    by (Z.div_mod_to_equations; lia).
  rewrite Z.shiftr_div_pow2 by lia. change (2 ^ 24) with 16777216.
  change 1 with (Z.ones 1) at 1. rewrite Z.land_ones by lia. change (2 ^ 1) with 2.
  replace (n0 + n1 + n2 + n3 + n4 + n5 + n6 + n7)
    with ((n0 + n1) + (n2 + n3) + (n4 + n5) + (n6 + n7)) by lia.
  set (e0 := n0 + n1). set (e1 := n2 + n3). set (e2 := n4 + n5). set (e3 := n6 + n7).
  assert (0 <= e0 <= 8 /\ 0 <= e1 <= 8 /\ 0 <= e2 <= 8 /\ 0 <= e3 <= 8)
    as (B0 & B1 & B2 & B3) by (unfold e0, e1, e2, e3; lia).
  clearbody e0 e1 e2 e3.
  replace (bytes4 e0 e1 e2 e3 * 16843009)
    with ((e0 + 256 * (e0 + e1) + 65536 * (e0 + e1 + e2)) +
          ((e0 + e1 + e2 + e3) + (128 * (e1 + e2 + e3 + 256 * (e2 + e3) + 65536 * e3)) * 2)
          * 16777216)
    by (unfold bytes4; change (2 ^ 8) with 256; lia).
  rewrite Z.div_add, Z.div_small, Z.add_0_l, Z.mod_add by lia.
  reflexivity.
Qed.

(** C6: for every 32-bit input [v], [parity32 v] is the number of set bits
    of [v] modulo 2. *)
Theorem parity32_popcount v :
  0 <= v < 2 ^ 32 -> parity32 v = popcount32 v mod 2.
Proof.
  intros Hv.
  destruct (bytes4_of_word v Hv) as (b0 & b1 & b2 & b3 & E & H0 & H1 & H2 & H3).
  destruct (byte_ok_all b0 H0) as (A0 & L0 & U0 & S0).
  destruct (byte_ok_all b1 H1) as (A1 & L1 & U1 & S1).
  destruct (byte_ok_all b2 H2) as (A2 & L2 & U2 & S2).
  destruct (byte_ok_all b3 H3) as (A3 & L3 & U3 & S3).
  unfold popcount32. rewrite E at 2. rewrite count_bits_bytes by assumption.
  rewrite <- S0, <- S1, <- S2, <- S3.
  unfold parity32.
  assert (E1 : v - Z.land (Z.shiftr v 1) 0x55555555 =
               bytes4 (pair_sums b0) (pair_sums b1) (pair_sums b2) (pair_sums b3)).
  { change 0x55555555 with (bytes4 0x55 0x55 0x55 0x55).
    rewrite E. rewrite land_shiftr_bytes by (simpl; lia).
    unfold pair_sums, bytes4. lia. }
  rewrite E1. clear E1.
  set (a0 := pair_sums b0) in *. set (a1 := pair_sums b1) in *.
  set (a2 := pair_sums b2) in *. set (a3 := pair_sums b3) in *.
  assert (E2 : Z.land (bytes4 a0 a1 a2 a3) 0x33333333 +
               Z.land (Z.shiftr (bytes4 a0 a1 a2 a3) 2) 0x33333333 =
               bytes4 (nibble_sums a0) (nibble_sums a1) (nibble_sums a2) (nibble_sums a3)).
  { rewrite <- (Z.shiftr_0_r (bytes4 a0 a1 a2 a3)) at 1.
    change 0x33333333 with (bytes4 0x33 0x33 0x33 0x33).
    rewrite !land_shiftr_bytes by (simpl; lia).
    rewrite !Z.shiftr_0_r. unfold nibble_sums, bytes4. lia. }
  cbv zeta. rewrite E2. clear E2.
  set (c0 := nibble_sums a0) in *. set (c1 := nibble_sums a1) in *.
  set (c2 := nibble_sums a2) in *. set (c3 := nibble_sums a3) in *.
  assert (Hm : forall c, 0 <= c mod 16) by (intros; apply Z.mod_pos_bound; lia).
  pose proof (Hm c0). pose proof (Hm c1). pose proof (Hm c2). pose proof (Hm c3).
  rewrite (Z.div_mod c0 16) at 1 2 by lia.
  rewrite (Z.div_mod c1 16) at 1 2 by lia.
  rewrite (Z.div_mod c2 16) at 1 2 by lia.
  rewrite (Z.div_mod c3 16) at 1 2 by lia.
  rewrite !(Z.add_comm (16 * _) (_ mod 16)).
  rewrite (parity32_fold (c0 mod 16) (c0 / 16) (c1 mod 16) (c1 / 16)
             (c2 mod 16) (c2 / 16) (c3 mod 16) (c3 / 16)) by lia.
  f_equal. lia.
Qed.

Lemma parity32_popcount_witness :
  0 <= 0x80000001 < 2 ^ 32 /\ parity32 0x80000001 = popcount32 0x80000001 mod 2.
Proof. split; [lia | apply (parity32_popcount 0x80000001); lia]. Defined.

(** ** The core-select identifiers *)

(** C4 as stated fails: the two identifiers do not differ in bit 4. *)
Lemma dp_core_xor_not_bit4 : Z.lxor DP_CORE0 DP_CORE1 <> 2 ^ 4.
Proof. vm_compute. discriminate. Qed.

(** C4 (amended): the two core-select identifiers are 32-bit constants
    that differ only in bit 28, and [set_core] stores one of them. *)
Theorem dp_core_differ_bit28 :
  0 <= DP_CORE0 < 2 ^ 32 /\ 0 <= DP_CORE1 < 2 ^ 32 /\
  Z.lxor DP_CORE0 DP_CORE1 = 2 ^ 28 /\
  (forall n, 0 <= n -> n <> 28 -> Z.testbit DP_CORE0 n = Z.testbit DP_CORE1 n) /\
  (forall c core,
      SwdConnection.dp (SwdConnection.set_core c core) =
      if core =? 0 then DP_CORE0 else DP_CORE1).
Proof.
  split; [vm_compute; split; [discriminate | reflexivity]|].
  split; [vm_compute; split; [discriminate | reflexivity]|].
  assert (E : Z.lxor DP_CORE0 DP_CORE1 = 2 ^ 28) by reflexivity.
  split; [exact E|]. split.
  - intros n Hn Hne.
    assert (Hx : Z.testbit (Z.lxor DP_CORE0 DP_CORE1) n = false).
    { rewrite E. apply Z.pow2_bits_false. lia. }
    rewrite Z.lxor_spec in Hx.
    destruct (Z.testbit DP_CORE0 n), (Z.testbit DP_CORE1 n); simpl in Hx; congruence.
  - intros c core. unfold SwdConnection.set_core, truthy. simpl.
    destruct (core =? 0); reflexivity.
Qed.

(** ** Validation of a transaction *)

Lemma check_ok_true (m : SwdMsg.t) :
  SwdMsg.ok (SwdMsg.check m) = true <->
  BitReg.getattr (SwdMsg.ack m) "ack" = SWD_ACK_OK /\
  (BitReg.getattr (SwdMsg.hdr m) "RnW" <> 0 ->
   parity32 (BitReg.getattr (SwdMsg.val32p m) "value") =
   BitReg.getattr (SwdMsg.val32p m) "parity").
Proof.
  unfold SwdMsg.check, SwdMsg.set_ok, SWD_ACK_OK. cbn [SwdMsg.ok].
  rewrite andb_true_iff, orb_true_iff, !Z.eqb_eq.
  split.
  - intros [Ha [Hw | Hp]]; split; auto. intros Hr. contradiction.
  - intros [Ha Hp]. split; [exact Ha|].
    destruct (Z.eq_dec (BitReg.getattr (SwdMsg.hdr m) "RnW") 0); auto.
Qed.

(** C5: [check] sets [ok] exactly when the ack code is 1 and, for a read
    (header bit [RnW] set), [parity32] of the data value equals the parity
    field; every other ack code and every parity mismatch on a read give
    [ok = False].  Nothing else in the message changes. *)
Theorem check_ok_iff (m : SwdMsg.t) :
  (SwdMsg.ok (SwdMsg.check m) = true <->
   BitReg.getattr (SwdMsg.ack m) "ack" = SWD_ACK_OK /\
   (BitReg.getattr (SwdMsg.hdr m) "RnW" <> 0 ->
    parity32 (BitReg.getattr (SwdMsg.val32p m) "value") =
    BitReg.getattr (SwdMsg.val32p m) "parity")) /\
  SwdMsg.check m = SwdMsg.set_ok m (SwdMsg.ok (SwdMsg.check m)).
Proof. split; [apply check_ok_true | reflexivity]. Qed.

(** ** Frame order of a transaction *)

(** C7: [set] lists the frames as Header, Turnaround, Ack and then, for a
    read, DataWord before the second Turnaround, and for a write the second
    Turnaround before the DataWord. *)
Theorem set_frame_order (m : SwdMsg.t) (ap addr val : Z) :
  SwdMsg.regs (SwdMsg.set m ap SWD_RD addr val) =
    [SwdMsg.Hdr; SwdMsg.Turn1; SwdMsg.Ack; SwdMsg.Val32p; SwdMsg.Turn2] /\
  SwdMsg.regs (SwdMsg.set m ap SWD_WR addr val) =
    [SwdMsg.Hdr; SwdMsg.Turn1; SwdMsg.Ack; SwdMsg.Turn2; SwdMsg.Val32p] /\
  (forall rd,
      SwdMsg.regs (SwdMsg.set m ap rd addr val) =
      [SwdMsg.Hdr; SwdMsg.Turn1; SwdMsg.Ack] ++
      (if rd =? 0 then [SwdMsg.Turn2; SwdMsg.Val32p]
       else [SwdMsg.Val32p; SwdMsg.Turn2])).
Proof.
  assert (G : forall rd,
      SwdMsg.regs (SwdMsg.set m ap rd addr val) =
      [SwdMsg.Hdr; SwdMsg.Turn1; SwdMsg.Ack] ++
      (if rd =? 0 then [SwdMsg.Turn2; SwdMsg.Val32p]
       else [SwdMsg.Val32p; SwdMsg.Turn2])).
  { intros rd. unfold SwdMsg.set, truthy.
    cbn [SwdMsg.set_reg SwdMsg.set_regs SwdMsg.regs].
    destruct (rd =? 0); reflexivity. }
  split; [exact (G SWD_RD)|]. split; [exact (G SWD_WR)|]. exact G.
Qed.

(** ** Decoding a driven frame *)

Lemma recv_fields_driven fs r d :
  BitReg.recv r = false -> BitReg.recv_fields fs r d = Some (r, d).
Proof.
  intros Hr. induction fs as [|f fs IH]; simpl; [reflexivity|].
  rewrite Hr. exact IH.
Qed.

(** C9: [recv_vals] on a frame in driven mode changes no field value and
    takes nothing from the receive buffer. *)
Theorem recv_vals_driven_noop (r : BitReg.t) (d : GpioDrv.t) :
  BitReg.recv r = false -> BitReg.recv_vals r d = Some (r, d).
Proof. intros Hr. apply recv_fields_driven, Hr. Qed.

Lemma recv_vals_driven_noop_witness :
  BitReg.recv_vals (BitReg.init swd_hdr false) (GpioDrv.mk [] ["1"%char; "0"%char]) =
  Some (BitReg.init swd_hdr false, GpioDrv.mk [] ["1"%char; "0"%char]).
Proof. apply (recv_vals_driven_noop (BitReg.init swd_hdr false)). reflexivity. Defined.

(** ** Buffers of the driver *)

Lemma sample_count_app (p q : pystr) :
  sample_count (p ++ q) = (sample_count p + sample_count q)%nat.
Proof. induction p as [|c p IH]; simpl; [reflexivity|]. rewrite IH. lia. Qed.

Lemma send_bits_loop_app k n data recv (tx : pystr) :
  GpioDrv.send_bits_loop k n data recv tx =
  tx ++ GpioDrv.send_bits_loop k n data recv [].
Proof.
  revert n tx. induction k as [|k IH]; intros n tx; simpl.
  - by rewrite app_nil_r.
  - rewrite IH, (IH _ [_]), <- app_assoc. reflexivity.
Qed.

Lemma send_bits_loop_length k n data recv :
  length (GpioDrv.send_bits_loop k n data recv []) = k.
Proof.
  revert n. induction k as [|k IH]; intros n; simpl; [reflexivity|].
  rewrite send_bits_loop_app, length_app, IH. simpl. lia.
Qed.

Lemma send_bits_loop_samples k n data recv :
  sample_count (GpioDrv.send_bits_loop k n data recv []) =
  if recv then k else O.
Proof.
  revert n. induction k as [|k IH]; intros n; simpl; [by destruct recv|].
  rewrite send_bits_loop_app, sample_count_app, IH.
  unfold GpioDrv.bit_char. destruct recv; simpl; [lia|].
  destruct (truthy _); reflexivity.
Qed.

Section Xfer.
Context {L : Type} `{Gpio L}.

Lemma xfer_bit_rx bit lastbit rx (l : L) :
  length (GpioDrv.xfer_bit bit lastbit rx l).1 =
  (length rx + sample_count [bit])%nat.
Proof.
  unfold GpioDrv.xfer_bit. simpl sample_count.
  destruct (Ascii.eqb bit "."); simpl.
  - destruct (gpio_input DAT_PIN l) as [v l']. simpl.
    rewrite length_app. simpl. lia.
  - lia.
Qed.

Lemma xfer_loop_rx tx : forall lastbit rx (l : L),
  length (GpioDrv.xfer_loop tx lastbit rx l).1 =
  (length rx + sample_count tx)%nat.
Proof.
  induction tx as [|bit tx IH]; intros lastbit rx l; simpl; [lia|].
  pose proof (xfer_bit_rx bit lastbit rx l) as Hb.
  destruct (GpioDrv.xfer_bit bit lastbit rx l) as [rx' l'].
  rewrite IH. simpl in Hb. rewrite Hb. simpl. lia.
Qed.

Lemma xfer_buffers d (l : L) :
  GpioDrv.txdata (GpioDrv.xfer d l).1 = [] /\
  length (GpioDrv.rxdata (GpioDrv.xfer d l).1) = sample_count (GpioDrv.txdata d).
Proof.
  unfold GpioDrv.xfer.
  pose proof (xfer_loop_rx (GpioDrv.txdata d) [] [] l) as Hl.
  destruct (GpioDrv.xfer_loop (GpioDrv.txdata d) [] [] l) as [rx l'].
  simpl in *. split; [reflexivity | exact Hl].
Qed.
End Xfer.

(** ** A frame through the buffers *)

Lemma bitreg_send_fold fs : forall (g : string -> Z) recv d,
  exists plan,
    fold_left (fun d f => GpioDrv.send_bits d (g f.1) f.2 recv) fs d =
      GpioDrv.mk (GpioDrv.txdata d ++ plan) (GpioDrv.rxdata d) /\
    length plan = layout_nat_width fs /\
    sample_count plan = if recv then layout_nat_width fs else O.
Proof.
  induction fs as [|f fs IH]; intros g recv d; simpl.
  - exists []. rewrite app_nil_r. destruct d, recv; done.
  - destruct (IH g recv (GpioDrv.send_bits d (g f.1) f.2 recv))
      as (plan & E & Hlen & Hcnt).
    exists (GpioDrv.send_bits_loop (Z.to_nat f.2) 0 (g f.1) recv [] ++ plan).
    rewrite E. unfold GpioDrv.send_bits, GpioDrv.set_txdata.
    cbn [GpioDrv.txdata GpioDrv.rxdata].
    rewrite send_bits_loop_app, <- app_assoc. split; [reflexivity|].
    rewrite length_app, sample_count_app, send_bits_loop_length,
      send_bits_loop_samples, Hlen, Hcnt.
    unfold layout_nat_width. simpl. destruct recv; split; lia.
Qed.

Lemma bitreg_send_vals r d :
  exists plan,
    BitReg.send_vals r d =
      GpioDrv.mk (GpioDrv.txdata d ++ plan) (GpioDrv.rxdata d) /\
    length plan = layout_nat_width (BitReg.fields r) /\
    sample_count plan =
      if BitReg.recv r then layout_nat_width (BitReg.fields r) else O.
Proof. apply (bitreg_send_fold (BitReg.fields r) (BitReg.getattr r)). Qed.

Lemma recv_bits_enough d nbits :
  0 <= nbits <= Z.of_nat (length (GpioDrv.rxdata d)) ->
  exists v,
    GpioDrv.recv_bits d nbits =
      (Some v, GpioDrv.mk (GpioDrv.txdata d)
                          (drop (Z.to_nat nbits) (GpioDrv.rxdata d))).
Proof.
  intros Hn. unfold GpioDrv.recv_bits.
  destruct (Z.leb_spec nbits (Z.of_nat (length (GpioDrv.rxdata d)))); [|lia].
  eexists. unfold GpioDrv.set_rxdata, slice_from.
  destruct (Z.leb_spec 0 nbits); [reflexivity | lia].
Qed.

Lemma setattr_shape r name v :
  BitReg.fields (BitReg.setattr r name v) = BitReg.fields r /\
  BitReg.recv (BitReg.setattr r name v) = BitReg.recv r.
Proof.
  unfold BitReg.setattr.
  destruct (BitReg.field_width (BitReg.fields r) name); split; reflexivity.
Qed.

Lemma recv_fields_enough fs : forall r d,
  BitReg.recv r = true ->
  Forall (fun f => 0 <= f.2) fs ->
  (layout_nat_width fs <= length (GpioDrv.rxdata d))%nat ->
  exists r',
    BitReg.recv_fields fs r d =
      Some (r', GpioDrv.mk (GpioDrv.txdata d)
                           (drop (layout_nat_width fs) (GpioDrv.rxdata d))) /\
    BitReg.fields r' = BitReg.fields r /\ BitReg.recv r' = true.
Proof.
  induction fs as [|f fs IH]; intros r d Hr Hpos Hlen.
  - exists r. simpl. rewrite drop_0. destruct d; done.
  - apply Forall_cons in Hpos as [Hf Hpos].
    unfold layout_nat_width in Hlen. simpl in Hlen.
    fold (layout_nat_width fs) in Hlen.
    simpl BitReg.recv_fields. rewrite Hr.
    destruct (recv_bits_enough d f.2 ltac:(lia)) as [v ->].
    destruct (setattr_shape r f.1 v) as [Hfs Hrv].
    destruct (IH (BitReg.setattr r f.1 v)
                 (GpioDrv.mk (GpioDrv.txdata d)
                             (drop (Z.to_nat f.2) (GpioDrv.rxdata d))))
      as (r' & E & Hfs' & Hrv').
    + congruence.
    + exact Hpos.
    + simpl. rewrite length_drop. lia.
    + exists r'. rewrite E. simpl. rewrite drop_drop.
      split; [|split; congruence].
      unfold layout_nat_width. simpl. reflexivity.
Qed.

(** ** A message through the buffers *)

Lemma same_shape_samples m m' rs :
  same_shape m m' -> regs_samples m' rs = regs_samples m rs.
Proof.
  intros Hs. unfold regs_samples. f_equal. apply map_ext. intros r.
  destruct (Hs r) as (Hf & Hr & _). unfold frame_samples. by rewrite Hf, Hr.
Qed.

Lemma send_regs_plan m rs : forall d,
  exists plan,
    fold_left (fun d r => BitReg.send_vals (SwdMsg.get_reg m r) d) rs d =
      GpioDrv.mk (GpioDrv.txdata d ++ plan) (GpioDrv.rxdata d) /\
    sample_count plan = regs_samples m rs.
Proof.
  induction rs as [|r rs IH]; intros d; simpl.
  - exists []. rewrite app_nil_r. destruct d; done.
  - destruct (bitreg_send_vals (SwdMsg.get_reg m r) d) as (p1 & E1 & _ & C1).
    destruct (IH (BitReg.send_vals (SwdMsg.get_reg m r) d)) as (p2 & E2 & C2).
    exists (p1 ++ p2). rewrite E2, E1. simpl. rewrite <- app_assoc.
    split; [reflexivity|]. rewrite sample_count_app, C1, C2.
    unfold regs_samples, frame_samples. reflexivity.
Qed.

Lemma recv_regs_enough rs : forall m,
  (forall r, Forall (fun f => 0 <= f.2) (BitReg.fields (SwdMsg.get_reg m r))) ->
  (regs_samples m rs <= length (GpioDrv.rxdata (SwdMsg.drv m)))%nat ->
  exists m',
    SwdMsg.recv_regs rs m = Some m' /\
    same_shape m m' /\
    SwdMsg.regs m' = SwdMsg.regs m /\
    SwdMsg.ok m' = SwdMsg.ok m /\
    SwdMsg.drv m' =
      GpioDrv.mk (GpioDrv.txdata (SwdMsg.drv m))
                 (drop (regs_samples m rs) (GpioDrv.rxdata (SwdMsg.drv m))).
Proof.
  induction rs as [|r rs IH]; intros m Hpos Hlen.
  - exists m. simpl. rewrite drop_0. repeat split; try done.
    destruct (SwdMsg.drv m); done.
  - unfold regs_samples in Hlen. simpl in Hlen. fold (regs_samples m rs) in Hlen.
    simpl SwdMsg.recv_regs.
    assert (Hstep : exists b d,
      BitReg.recv_vals (SwdMsg.get_reg m r) (SwdMsg.drv m) = Some (b, d) /\
      BitReg.fields b = BitReg.fields (SwdMsg.get_reg m r) /\
      BitReg.recv b = BitReg.recv (SwdMsg.get_reg m r) /\
      (BitReg.recv (SwdMsg.get_reg m r) = false -> b = SwdMsg.get_reg m r) /\
      d = GpioDrv.mk (GpioDrv.txdata (SwdMsg.drv m))
            (drop (frame_samples (SwdMsg.get_reg m r)) (GpioDrv.rxdata (SwdMsg.drv m)))).
    { unfold frame_samples in *.
      destruct (BitReg.recv (SwdMsg.get_reg m r)) eqn:Hr.
      - destruct (recv_fields_enough (BitReg.fields (SwdMsg.get_reg m r))
                    (SwdMsg.get_reg m r) (SwdMsg.drv m) Hr (Hpos r) ltac:(lia))
          as (b & E & Hf & Hb).
        exists b, (GpioDrv.mk (GpioDrv.txdata (SwdMsg.drv m))
            (drop (layout_nat_width (BitReg.fields (SwdMsg.get_reg m r)))
                  (GpioDrv.rxdata (SwdMsg.drv m)))).
        unfold BitReg.recv_vals. rewrite E. repeat split; try done.
      - exists (SwdMsg.get_reg m r), (SwdMsg.drv m).
        unfold BitReg.recv_vals. rewrite recv_fields_driven by exact Hr.
        rewrite drop_0. repeat split; try done. destruct (SwdMsg.drv m); done. }
    destruct Hstep as (b & d & -> & Hf & Hr & Hsame & ->).
    cbn [mbind option_bind].
    set (m1 := SwdMsg.set_drv (SwdMsg.set_reg m r b) _).
    assert (S1 : same_shape m m1).
    { intros r0. subst m1. destruct r, r0; cbn; repeat split; auto. }
    destruct (IH m1) as (m' & E & S' & Hregs & Hok & Hdrv).
    + intros r0. destruct (S1 r0) as (-> & _). apply Hpos.
    + rewrite (same_shape_samples _ _ _ S1). subst m1.
      change (SwdMsg.drv (SwdMsg.set_drv _ ?d)) with d.
      cbn [GpioDrv.rxdata]. rewrite length_drop. lia.
    + exists m'. split; [exact E|]. split; [|split; [|split]].
      * intros r0. destruct (S1 r0) as (F1 & R1 & K1), (S' r0) as (F2 & R2 & K2).
        split; [congruence|]. split; [congruence|].
        intros Hfalse. rewrite K2 by congruence. auto.
      * rewrite Hregs. subst m1. destruct r; reflexivity.
      * rewrite Hok. subst m1. destruct r; reflexivity.
      * rewrite Hdrv, (same_shape_samples _ _ _ S1). subst m1.
        change (SwdMsg.drv (SwdMsg.set_drv _ ?d)) with d.
        cbn [GpioDrv.rxdata GpioDrv.txdata]. rewrite drop_drop.
        reflexivity.
Qed.

Lemma setattr_declared r name w v :
  BitReg.field_width (BitReg.fields r) name = Some w ->
  BitReg.setattr r name v =
  BitReg.set_vals r (<[name := v mod 2 ^ w]> (BitReg.vals r)).
Proof. intros E. unfold BitReg.setattr. by rewrite E. Qed.

Lemma getattr_setattr r name w v :
  BitReg.field_width (BitReg.fields r) name = Some w ->
  BitReg.getattr (BitReg.setattr r name v) name = v mod 2 ^ w.
Proof.
  intros E. rewrite (setattr_declared _ _ _ _ E).
  unfold BitReg.getattr, BitReg.set_vals. cbn [BitReg.vals].
  by rewrite lookup_total_insert_eq.
Qed.

Lemma getattr_setattr_ne r name name' v :
  name <> name' ->
  BitReg.getattr (BitReg.setattr r name v) name' = BitReg.getattr r name'.
Proof.
  intros Hne. unfold BitReg.setattr, BitReg.getattr.
  destruct (BitReg.field_width _ _); unfold BitReg.set_vals; cbn [BitReg.vals];
    by rewrite lookup_total_insert_ne.
Qed.

Lemma set_shape m ap rd addr val :
  msg_wf m ->
  let m0 := SwdMsg.set m ap rd addr val in
  msg_wf m0 /\
  BitReg.recv (SwdMsg.val32p m0) = truthy rd /\
  SwdMsg.regs m0 =
    [SwdMsg.Hdr; SwdMsg.Turn1; SwdMsg.Ack] ++
    (if truthy rd then [SwdMsg.Val32p; SwdMsg.Turn2]
     else [SwdMsg.Turn2; SwdMsg.Val32p]) /\
  SwdMsg.drv m0 = SwdMsg.drv m /\
  BitReg.getattr (SwdMsg.hdr m0) "RnW" = rd mod 2.
Proof.
  intros (Hh & Hhr & Ht1 & Ht1r & Ha & Har & Ht2 & Ht2r & Hv) m0.
  subst m0. unfold SwdMsg.set.
  cbn [SwdMsg.set_reg SwdMsg.set_regs SwdMsg.regs SwdMsg.hdr SwdMsg.turn1
       SwdMsg.ack SwdMsg.turn2 SwdMsg.val32p SwdMsg.drv SwdMsg.ok SwdMsg.verbose].
  split; [|split; [|split; [|split]]].
  - unfold msg_wf.
    cbn [SwdMsg.hdr SwdMsg.turn1 SwdMsg.ack SwdMsg.turn2 SwdMsg.val32p].
    unfold BitReg.set_recv. cbn [BitReg.fields BitReg.recv].
    repeat (rewrite ?(proj1 (setattr_shape _ _ _)), ?(proj2 (setattr_shape _ _ _))).
    done.
  - reflexivity.
  - reflexivity.
  - reflexivity.
  - rewrite getattr_setattr_ne by done. rewrite getattr_setattr_ne by done.
    rewrite (getattr_setattr _ _ 1); [reflexivity|].
    rewrite (proj1 (setattr_shape _ _ _)), Hh. reflexivity.
Qed.

Lemma msg_wf_same_shape m m' : msg_wf m -> same_shape m m' -> msg_wf m'.
Proof.
  intros (Hh & Hhr & Ht1 & Ht1r & Ha & Har & Ht2 & Ht2r & Hv) S.
  destruct (S SwdMsg.Hdr) as (F0 & R0 & _), (S SwdMsg.Turn1) as (F1 & R1 & _),
    (S SwdMsg.Ack) as (F2 & R2 & _), (S SwdMsg.Turn2) as (F3 & R3 & _),
    (S SwdMsg.Val32p) as (F4 & R4 & _).
  cbn [SwdMsg.get_reg] in *. unfold msg_wf. repeat split; congruence.
Qed.

Lemma msg_wf_nonneg m r :
  msg_wf m -> Forall (fun f => 0 <= f.2) (BitReg.fields (SwdMsg.get_reg m r)).
Proof.
  intros (Hh & Hhr & Ht1 & Ht1r & Ha & Har & Ht2 & Ht2r & Hv).
  destruct r; cbn [SwdMsg.get_reg];
    rewrite ?Hh, ?Ht1, ?Ha, ?Ht2, ?Hv; repeat constructor; simpl; lia.
Qed.

Lemma wf_regs_samples m rd :
  msg_wf m ->
  BitReg.recv (SwdMsg.val32p m) = truthy rd ->
  regs_samples m ([SwdMsg.Hdr; SwdMsg.Turn1; SwdMsg.Ack] ++
                  (if truthy rd then [SwdMsg.Val32p; SwdMsg.Turn2]
                   else [SwdMsg.Turn2; SwdMsg.Val32p])) =
  (if (rd =? 0)%Z then 5 else 38)%nat.
Proof.
  intros (Hh & Hhr & Ht1 & Ht1r & Ha & Har & Ht2 & Ht2r & Hv) Hvr.
  unfold truthy in *. unfold regs_samples, frame_samples.
  destruct (rd =? 0); cbn [negb app map SwdMsg.get_reg foldr] in *;
    rewrite Hh, Hhr, Ht1, Ht1r, Ha, Har, Ht2, Ht2r, Hv, Hvr; reflexivity.
Qed.

Section Transaction.
Context {L : Type} `{Gpio L}.

Lemma transaction_runs (m : SwdMsg.t) (ap rd addr val : Z) (l : L) :
  msg_wf m ->
  let m0 := SwdMsg.set m ap rd addr val in
  let m1 := SwdMsg.send_vals m0 in
  exists plan m3,
    GpioDrv.txdata (SwdMsg.drv m1) = GpioDrv.txdata (SwdMsg.drv m) ++ plan /\
    sample_count plan = regs_samples m0 (SwdMsg.regs m0) /\
    regs_samples m0 (SwdMsg.regs m0) = (if (rd =? 0)%Z then 5 else 38)%nat /\
    SwdMsg.recv_vals (SwdMsg.xfer m1 l).1 = Some (SwdMsg.check m3) /\
    msg_wf m3 /\ SwdMsg.hdr m3 = SwdMsg.hdr m0 /\
    GpioDrv.txdata (SwdMsg.drv m3) = [] /\
    length (GpioDrv.rxdata (SwdMsg.drv m3)) =
      sample_count (GpioDrv.txdata (SwdMsg.drv m)).
Proof.
  intros Hwf m0 m1.
  destruct (set_shape m ap rd addr val Hwf) as (Hwf0 & Hrecv & Hregs & Hdrv & _).
  fold m0 in Hwf0, Hrecv, Hregs, Hdrv.
  destruct (send_regs_plan m0 (SwdMsg.regs m0) (SwdMsg.drv m0)) as (plan & E & Hcnt).
  assert (Hn : regs_samples m0 (SwdMsg.regs m0) = (if (rd =? 0)%Z then 5 else 38)%nat).
  { rewrite Hregs. apply wf_regs_samples; assumption. }
  assert (Hd1 : SwdMsg.drv m1 =
                GpioDrv.mk (GpioDrv.txdata (SwdMsg.drv m) ++ plan)
                           (GpioDrv.rxdata (SwdMsg.drv m))).
  { subst m1. unfold SwdMsg.send_vals.
    change (SwdMsg.drv (SwdMsg.set_drv _ ?d)) with d. rewrite E, Hdrv. reflexivity. }
  destruct (xfer_buffers (SwdMsg.drv m1) l) as (Htx & Hrx).
  set (m2 := (SwdMsg.xfer m1 l).1).
  assert (Hm2 : m2 = SwdMsg.set_drv m0 (GpioDrv.xfer (SwdMsg.drv m1) l).1).
  { subst m2. unfold SwdMsg.xfer.
    destruct (GpioDrv.xfer (SwdMsg.drv m1) l) as [d l']. subst m1.
    destruct m0; reflexivity. }
  assert (S02 : same_shape m0 m2).
  { intros r. rewrite Hm2. destruct m0, r; cbn; auto. }
  assert (Hwf2 : msg_wf m2) by (eapply msg_wf_same_shape; eassumption).
  assert (Hregs2 : SwdMsg.regs m2 = SwdMsg.regs m0).
  { rewrite Hm2. destruct m0; reflexivity. }
  assert (Hdrv2 : SwdMsg.drv m2 = (GpioDrv.xfer (SwdMsg.drv m1) l).1).
  { rewrite Hm2. reflexivity. }
  assert (Hrx' : length (GpioDrv.rxdata (GpioDrv.xfer (SwdMsg.drv m1) l).1) =
                 (sample_count (GpioDrv.txdata (SwdMsg.drv m)) + sample_count plan)%nat).
  { rewrite Hrx, Hd1. apply sample_count_app. }
  clear Hrx. rename Hrx' into Hrx.
  destruct (recv_regs_enough (SwdMsg.regs m2) m2) as (m3 & E3 & S23 & R3 & _ & D3).
  { intros r. apply msg_wf_nonneg, Hwf2. }
  { rewrite (same_shape_samples _ _ _ S02), Hregs2, Hdrv2, Hrx. lia. }
  exists plan, m3.
  split; [rewrite Hd1; reflexivity|].
  split; [exact Hcnt|]. split; [exact Hn|].
  split; [unfold SwdMsg.recv_vals; rewrite E3; reflexivity|].
  split; [eapply msg_wf_same_shape; eassumption|].
  split.
  { destruct (S23 SwdMsg.Hdr) as (_ & _ & K), (S02 SwdMsg.Hdr) as (_ & _ & K0).
    cbn [SwdMsg.get_reg] in K, K0.
    destruct Hwf0 as (_ & Hhr0 & _). destruct Hwf2 as (_ & Hhr2 & _).
    rewrite K, K0; auto. }
  rewrite D3. cbn [GpioDrv.txdata GpioDrv.rxdata].
  rewrite Hdrv2, Htx. split; [reflexivity|].
  rewrite length_drop, (same_shape_samples _ _ _ S02), Hregs2, Hrx, Hcnt. lia.
Qed.

End Transaction.

(** ** Transactions and [peek] *)

Lemma bind_Some_eq {A B} (f : A -> option B) (x : option A) (a : A) :
  x = Some a -> x ≫= f = f a.
Proof. intros ->. reflexivity. Qed.

Lemma msg_wf_init d : msg_wf (SwdMsg.init d).
Proof. repeat split. Qed.

Lemma msg_wf_check m : msg_wf m -> msg_wf (SwdMsg.check m).
Proof. intros Hwf. exact Hwf. Qed.

Lemma wf_decoded_width m rd :
  msg_wf m ->
  BitReg.recv (SwdMsg.val32p m) = truthy rd ->
  SwdMsg.regs m = [SwdMsg.Hdr; SwdMsg.Turn1; SwdMsg.Ack] ++
                  (if truthy rd then [SwdMsg.Val32p; SwdMsg.Turn2]
                   else [SwdMsg.Turn2; SwdMsg.Val32p]) ->
  decoded_width m = if rd =? 0 then 5 else 38.
Proof.
  intros (Hh & Hhr & Ht1 & Ht1r & Ha & Har & Ht2 & Ht2r & Hv) Hvr Hregs.
  unfold decoded_width. rewrite Hregs. unfold truthy in *.
  destruct (rd =? 0); cbn [negb app map SwdMsg.get_reg foldr] in *;
    rewrite Hh, Hhr, Ht1, Ht1r, Ha, Har, Ht2, Ht2r, Hv, Hvr; reflexivity.
Qed.

Section PeekResults.
Context {L : Type} `{Gpio L}.

(** C10: for a transaction assembled by [set], read or write, the plan that
    [send_vals] emits holds as many sample entries as the total declared
    width of the frames that [recv_vals] decodes, and [recv_vals] after
    [xfer] completes: no [recv_bits] call comes back with [None]. *)
Theorem transaction_samples_match (m : SwdMsg.t) (ap rd addr val : Z) (l : L) :
  msg_wf m ->
  let m0 := SwdMsg.set m ap rd addr val in
  let m1 := SwdMsg.send_vals m0 in
  exists plan,
    GpioDrv.txdata (SwdMsg.drv m1) = GpioDrv.txdata (SwdMsg.drv m) ++ plan /\
    Z.of_nat (sample_count plan) = decoded_width m0 /\
    exists m3, SwdMsg.recv_vals (SwdMsg.xfer m1 l).1 = Some m3.
Proof.
  intros Hwf m0 m1.
  destruct (transaction_runs m ap rd addr val l Hwf)
    as (plan & m3 & Htx & Hcnt & Hn & Hrecv & _).
  destruct (set_shape m ap rd addr val Hwf) as (Hwf0 & Hr0 & Hregs0 & _).
  exists plan. split; [exact Htx|]. split.
  - fold m0 in Hcnt, Hn. rewrite Hcnt, Hn.
    unfold m0. rewrite (wf_decoded_width _ rd Hwf0 Hr0 Hregs0).
    destruct (rd =? 0); reflexivity.
  - eexists. exact Hrecv.
Qed.

Lemma msg_read_runs (m : SwdMsg.t) (ap addr : Z) (l : L) :
  msg_wf m ->
  exists m3 l',
    SwdMsg.read m ap addr l = Some (SwdMsg.check m3, l') /\
    msg_wf m3 /\ BitReg.getattr (SwdMsg.hdr m3) "RnW" = 1.
Proof.
  intros Hwf. unfold SwdMsg.read.
  destruct (transaction_runs m ap SWD_RD addr 0 l Hwf)
    as (plan & m3 & _ & _ & _ & Hrecv & Hwf3 & Hhdr & _).
  destruct (set_shape m ap SWD_RD addr 0 Hwf) as (_ & _ & _ & _ & Hrnw).
  destruct (SwdMsg.xfer _ l) as [m2 l'] eqn:E. cbn [fst] in Hrecv.
  exists m3, l'. rewrite Hrecv. split; [reflexivity|]. split; [exact Hwf3|].
  rewrite Hhdr. exact Hrnw.
Qed.

Lemma msg_write_runs (m : SwdMsg.t) (ap addr val : Z) (l : L) :
  msg_wf m ->
  exists m3 l',
    SwdMsg.write m ap addr val l = Some (SwdMsg.check m3, l') /\ msg_wf m3.
Proof.
  intros Hwf. unfold SwdMsg.write.
  destruct (transaction_runs m ap SWD_WR addr val l Hwf)
    as (plan & m3 & _ & _ & _ & Hrecv & Hwf3 & _).
  destruct (SwdMsg.xfer _ l) as [m2 l'] eqn:E. cbn [fst] in Hrecv.
  exists m3, l'. rewrite Hrecv. split; [reflexivity | exact Hwf3].
Qed.

(** C1 (amended): [peek] runs its three transactions to the end, and
    returns the data value of the third one exactly when that third
    transaction (the read of DP register 0xC) passes [check], that is, when
    its ack code is 1 and its parity matches; otherwise it returns no
    value.  The outcome of [check] for the first two is not consulted. *)
Theorem peek_value_iff_last_read_ok (c : SwdConnection.t) (addr : Z) (l : L) :
  msg_wf (SwdConnection.msg c) ->
  exists m1 m2 m3 l',
    SwdConnection.peek_steps c addr l = Some (m1, m2, m3, l') /\
    SwdConnection.peek c addr l =
      Some (if SwdMsg.ok m3
            then Some (BitReg.getattr (SwdMsg.val32p m3) "value") else None,
            SwdConnection.set_msg c m3, l') /\
    (SwdMsg.ok m3 = true <->
     BitReg.getattr (SwdMsg.ack m3) "ack" = SWD_ACK_OK /\
     parity32 (BitReg.getattr (SwdMsg.val32p m3) "value") =
     BitReg.getattr (SwdMsg.val32p m3) "parity").
Proof.
  intros Hwf.
  destruct (msg_write_runs (SwdConnection.msg c) SWD_AP 4 addr l Hwf)
    as (m1 & l1 & E1 & Hwf1).
  destruct (msg_read_runs (SwdMsg.check m1) SWD_AP 0xc l1 (msg_wf_check _ Hwf1))
    as (m2 & l2 & E2 & Hwf2 & _).
  destruct (msg_read_runs (SwdMsg.check m2) SWD_DP 0xc l2 (msg_wf_check _ Hwf2))
    as (m3 & l3 & E3 & Hwf3 & Hrnw).
  exists (SwdMsg.check m1), (SwdMsg.check m2), (SwdMsg.check m3), l3.
  assert (Hsteps : SwdConnection.peek_steps c addr l =
                   Some (SwdMsg.check m1, SwdMsg.check m2, SwdMsg.check m3, l3)).
  { unfold SwdConnection.peek_steps.
    rewrite (bind_Some_eq _ _ _ E1). cbv beta iota.
    rewrite (bind_Some_eq _ _ _ E2). cbv beta iota.
    rewrite (bind_Some_eq _ _ _ E3). reflexivity. }
  split; [exact Hsteps|]. split.
  - unfold SwdConnection.peek. rewrite (bind_Some_eq _ _ _ Hsteps). reflexivity.
  - pose proof (check_ok_true m3) as Hc. rewrite Hrnw in Hc.
    split.
    + intros Hok. apply Hc in Hok as [Ha Hp]. split; [exact Ha | apply Hp; lia].
    + intros [Ha Hp]. apply Hc. split; [exact Ha | intros _; exact Hp].
Qed.

End PeekResults.

(** C1 as stated fails: on [wait_then_ok] the first sub-transaction does not
    pass [check] (ack WAIT), and [peek] still returns the value 1. *)
Lemma peek_value_after_failed_write :
  let c := (SwdConnection.open (PatternLine.start [])).1.2 in
  let l := PatternLine.start wait_then_ok in
  (fun r => (SwdMsg.ok r.1.1.1, SwdMsg.ok r.1.1.2, SwdMsg.ok r.1.2)) <$>
    SwdConnection.peek_steps c test_addr l = Some (false, true, true) /\
  (fun r => r.1.1) <$> SwdConnection.peek c test_addr l = Some (Some 1).
Proof. split; vm_compute; reflexivity. Qed.

Lemma peek_value_iff_last_read_ok_witness :
  exists m1 m2 m3 l',
    SwdConnection.peek_steps (SwdConnection.mk (SwdMsg.init GpioDrv.init) false DP_CORE0)
      test_addr (PatternLine.start wait_then_ok) = Some (m1, m2, m3, l') /\
    SwdConnection.peek (SwdConnection.mk (SwdMsg.init GpioDrv.init) false DP_CORE0)
      test_addr (PatternLine.start wait_then_ok) =
      Some (if SwdMsg.ok m3
            then Some (BitReg.getattr (SwdMsg.val32p m3) "value") else None,
            SwdConnection.set_msg
              (SwdConnection.mk (SwdMsg.init GpioDrv.init) false DP_CORE0) m3, l') /\
    (SwdMsg.ok m3 = true <->
     BitReg.getattr (SwdMsg.ack m3) "ack" = SWD_ACK_OK /\
     parity32 (BitReg.getattr (SwdMsg.val32p m3) "value") =
     BitReg.getattr (SwdMsg.val32p m3) "parity").
Proof.
  apply (peek_value_iff_last_read_ok
           (SwdConnection.mk (SwdMsg.init GpioDrv.init) false DP_CORE0)).
  apply msg_wf_init.
Defined.

Lemma transaction_samples_match_witness :
  exists plan,
    GpioDrv.txdata (SwdMsg.drv (SwdMsg.send_vals
       (SwdMsg.set (SwdMsg.init GpioDrv.init) SWD_AP SWD_RD 0xc 0))) =
      GpioDrv.txdata (SwdMsg.drv (SwdMsg.init GpioDrv.init)) ++ plan /\
    Z.of_nat (sample_count plan) =
      decoded_width (SwdMsg.set (SwdMsg.init GpioDrv.init) SWD_AP SWD_RD 0xc 0) /\
    exists m3,
      SwdMsg.recv_vals (SwdMsg.xfer (SwdMsg.send_vals
        (SwdMsg.set (SwdMsg.init GpioDrv.init) SWD_AP SWD_RD 0xc 0))
        (PatternLine.start [])).1 = Some m3.
Proof.
  apply (transaction_samples_match (SwdMsg.init GpioDrv.init) SWD_AP SWD_RD 0xc 0
           (PatternLine.start [])).
  apply msg_wf_init.
Defined.

(** ** Field codec round trip *)

Lemma land_bit data n :
  0 <= n ->
  Z.land data (Z.shiftl 1 n) = if Z.testbit data n then 2 ^ n else 0.
Proof.
  intros Hn. rewrite Z.shiftl_1_l. apply Z.bits_inj'. intros i Hi.
  rewrite Z.land_spec, Z.pow2_bits_eqb by lia.
  destruct (Z.eqb_spec n i) as [->|Hne].
  - destruct (Z.testbit data i); simpl.
    + rewrite Z.pow2_bits_true by lia. reflexivity.
    + rewrite Z.bits_0. reflexivity.
  - rewrite andb_false_r.
    destruct (Z.testbit data n); [|by rewrite Z.bits_0].
    rewrite Z.pow2_bits_false by lia. reflexivity.
Qed.

Lemma bit_char_driven data n :
  0 <= n ->
  GpioDrv.bit_char data n false =
  if Z.testbit data n then "1"%char else "0"%char.
Proof.
  intros Hn. unfold GpioDrv.bit_char, truthy. rewrite land_bit by lia.
  destruct (Z.testbit data n); [|reflexivity].
  destruct (Z.eqb_spec (2 ^ n) 0); [lia | reflexivity].
Qed.

Lemma mod_pow2_next data n :
  0 <= n ->
  data mod 2 ^ (n + 1) =
  if Z.testbit data n then Z.lor (data mod 2 ^ n) (Z.shiftl 1 n)
  else data mod 2 ^ n.
Proof.
  intros Hn. apply Z.bits_inj'. intros i Hi.
  rewrite Z.testbit_mod_pow2 by lia.
  destruct (Z.testbit data n) eqn:Hb.
  - rewrite Z.lor_spec, Z.testbit_mod_pow2, Z.shiftl_1_l, Z.pow2_bits_eqb by lia.
    destruct (Z.ltb_spec i (n + 1)), (Z.ltb_spec i n), (Z.eqb_spec n i);
      try lia; subst; simpl; rewrite ?Hb, ?orb_false_r; reflexivity.
  - rewrite Z.testbit_mod_pow2 by lia.
    destruct (Z.ltb_spec i (n + 1)), (Z.ltb_spec i n); try lia; try reflexivity.
    assert (i = n) as -> by lia. simpl. exact Hb.
Qed.

Lemma send_bits_loop_lookup k : forall n data recv i,
  (i < k)%nat ->
  GpioDrv.send_bits_loop k n data recv [] !! i =
  Some (GpioDrv.bit_char data (n + Z.of_nat i) recv).
Proof.
  induction k as [|k IH]; intros n data recv i Hi; [lia|].
  simpl. rewrite send_bits_loop_app.
  destruct i as [|i]; simpl.
  - rewrite Z.add_0_r. reflexivity.
  - rewrite IH by lia. do 2 f_equal. lia.
Qed.

Lemma recv_bits_loop_decodes k : forall n rx val data,
  0 <= n ->
  (forall i, (i < k)%nat ->
             rx !! (Z.to_nat n + i)%nat =
             Some (GpioDrv.bit_char data (n + Z.of_nat i) false)) ->
  val = data mod 2 ^ n ->
  GpioDrv.recv_bits_loop k n rx val = data mod 2 ^ (n + Z.of_nat k).
Proof.
  induction k as [|k IH]; intros n rx val data Hn Hrx Hval.
  - simpl. rewrite Z.add_0_r. exact Hval.
  - simpl GpioDrv.recv_bits_loop.
    rewrite (IH (n + 1) rx _ data).
    + f_equal. f_equal. lia.
    + lia.
    + intros i Hi. specialize (Hrx (S i) ltac:(lia)).
      replace (Z.to_nat (n + 1) + i)%nat with (Z.to_nat n + S i)%nat by lia.
      rewrite Hrx. do 2 f_equal. lia.
    + specialize (Hrx O ltac:(lia)).
      rewrite Nat.add_0_r, Z.add_0_r in Hrx. rewrite Hrx.
      rewrite bit_char_driven, mod_pow2_next by lia. subst val.
      destruct (Z.testbit data n).
      * rewrite bool_decide_eq_true_2 by reflexivity. reflexivity.
      * rewrite bool_decide_eq_false_2 by discriminate. reflexivity.
Qed.

Lemma recv_bits_decodes data w t (rest : pystr) :
  0 <= w -> 0 <= data < 2 ^ w ->
  GpioDrv.recv_bits
    (GpioDrv.mk t (GpioDrv.send_bits_loop (Z.to_nat w) 0 data false [] ++ rest)) w =
  (Some data, GpioDrv.mk t rest).
Proof.
  intros Hw Hdata. unfold GpioDrv.recv_bits, GpioDrv.set_rxdata, slice_from.
  cbn [GpioDrv.rxdata GpioDrv.txdata].
  rewrite length_app, send_bits_loop_length.
  destruct (Z.leb_spec w (Z.of_nat (Z.to_nat w + length rest))); [|lia].
  destruct (Z.leb_spec 0 w); [|lia].
  rewrite (recv_bits_loop_decodes _ 0 _ 0 data).
  - rewrite Z.add_0_l, Z2Nat.id, Z.mod_small by lia.
    rewrite drop_app_length'; [reflexivity | symmetry; apply send_bits_loop_length].
  - lia.
  - intros i Hi. simpl. rewrite lookup_app_l by (rewrite send_bits_loop_length; lia).
    apply send_bits_loop_lookup, Hi.
  - simpl. rewrite Z.mod_1_r. reflexivity.
Qed.

Lemma send_fold_app fs : forall (g : string -> Z) recv d,
  fold_left (fun d f => GpioDrv.send_bits d (g f.1) f.2 recv) fs d =
  GpioDrv.mk
    (GpioDrv.txdata d ++
     GpioDrv.txdata
       (fold_left (fun d f => GpioDrv.send_bits d (g f.1) f.2 recv) fs GpioDrv.init))
    (GpioDrv.rxdata d).
Proof.
  induction fs as [|f fs IH]; intros g recv d; simpl.
  - rewrite app_nil_r. destruct d; reflexivity.
  - rewrite IH. rewrite (IH _ _ (GpioDrv.send_bits GpioDrv.init _ _ _)).
    unfold GpioDrv.send_bits, GpioDrv.set_txdata, GpioDrv.init.
    cbn [GpioDrv.txdata GpioDrv.rxdata].
    rewrite (send_bits_loop_app _ _ _ _ (GpioDrv.txdata d)), <- app_assoc.
    reflexivity.
Qed.

Lemma field_width_in fs name w :
  NoDup (map fst fs) -> (name, w) ∈ fs -> BitReg.field_width fs name = Some w.
Proof.
  induction fs as [|f fs IH]; intros Hnd Hin; [by apply elem_of_nil in Hin|].
  simpl in Hnd. apply NoDup_cons in Hnd as [Hnotin Hnd].
  apply elem_of_cons in Hin as [<-|Hin]; simpl.
  - by rewrite String.eqb_refl.
  - destruct (String.eqb_spec f.1 name) as [E|_]; [|by apply IH].
    exfalso. apply Hnotin. rewrite E.
    apply list_elem_of_In. apply (in_map fst fs (name, w)).
    apply list_elem_of_In. exact Hin.
Qed.

Lemma codec_fields fs : forall (g : string -> Z) r0 t0 rest,
  NoDup (map fst fs) ->
  (forall name w, (name, w) ∈ fs ->
     0 <= w /\ 0 <= g name < 2 ^ w /\
     BitReg.field_width (BitReg.fields r0) name = Some w) ->
  BitReg.recv r0 = true ->
  exists r',
    BitReg.recv_fields fs r0
      (GpioDrv.mk t0
         (GpioDrv.txdata
            (fold_left (fun d f => GpioDrv.send_bits d (g f.1) f.2 false)
                       fs GpioDrv.init) ++ rest)) =
      Some (r', GpioDrv.mk t0 rest) /\
    BitReg.fields r' = BitReg.fields r0 /\
    (forall name w, (name, w) ∈ fs -> BitReg.getattr r' name = g name) /\
    (forall name, name ∉ map fst fs -> BitReg.getattr r' name = BitReg.getattr r0 name).
Proof.
  induction fs as [|[n w] fs IH]; intros g r0 t0 rest Hnd Hfs Hrecv.
  - exists r0. simpl. repeat split; try done.
    intros name w Hin. by apply elem_of_nil in Hin.
  - simpl in Hnd. apply NoDup_cons in Hnd as [Hnotin Hnd].
    destruct (Hfs n w ltac:(left)) as (Hw & Hg & Hfw).
    simpl fold_left. rewrite send_fold_app.
    unfold GpioDrv.send_bits at 1, GpioDrv.set_txdata, GpioDrv.init.
    cbn [GpioDrv.txdata GpioDrv.rxdata fst snd app].
    simpl BitReg.recv_fields. rewrite Hrecv.
    rewrite <- app_assoc, recv_bits_decodes by assumption.
    destruct (setattr_shape r0 n (g n)) as [Hsf Hsr].
    destruct (IH g (BitReg.setattr r0 n (g n)) t0 rest Hnd) as (r' & E & Hf' & Hin' & Hout').
    + intros name w' Hin. destruct (Hfs name w' ltac:(by right)) as (? & ? & ?).
      rewrite Hsf. done.
    + congruence.
    + exists r'. split; [exact E|]. split; [congruence|]. split.
      * intros name w' Hin. apply elem_of_cons in Hin as [Heq|Hin]; [|by eapply Hin'].
        injection Heq as -> ->. rewrite Hout' by exact Hnotin.
        rewrite (getattr_setattr _ _ _ _ Hfw). apply Z.mod_small, Hg.
      * intros name Hname. simpl in Hname. apply not_elem_of_cons in Hname as [Hne Hname].
        rewrite Hout' by exact Hname. apply getattr_setattr_ne. congruence.
Qed.

(** C8: for each of the four frame layouts and every assignment of field
    values within their widths, decoding (in sampled mode) the bits that
    encoding (in driven mode) produced gives back every field value, and
    uses up exactly those bits. *)
Theorem codec_roundtrip (fs : list (string * Z)) (r r0 : BitReg.t) :
  fs ∈ [swd_hdr; swd_ack; swd_turn; swd_val32p] ->
  BitReg.fields r = fs -> BitReg.recv r = false ->
  BitReg.fields r0 = fs -> BitReg.recv r0 = true ->
  (forall name w, (name, w) ∈ fs -> 0 <= BitReg.getattr r name < 2 ^ w) ->
  exists r',
    BitReg.recv_vals r0
      (GpioDrv.mk [] (GpioDrv.txdata (BitReg.send_vals r GpioDrv.init))) =
      Some (r', GpioDrv.mk [] []) /\
    forall name w, (name, w) ∈ fs -> BitReg.getattr r' name = BitReg.getattr r name.
Proof.
  intros Hshape Hfr Hrr Hf0 Hr0 Hvals.
  assert (Hnd : NoDup (map fst fs)).
  { repeat (apply elem_of_cons in Hshape as [->|Hshape]);
      [| | | |by apply elem_of_nil in Hshape];
      compute_done. }
  assert (Hpos : forall name w, (name, w) ∈ fs -> 0 <= w).
  { repeat (apply elem_of_cons in Hshape as [->|Hshape]);
      [| | | |by apply elem_of_nil in Hshape];
      intros name w Hin;
      repeat (apply elem_of_cons in Hin as [Heq|Hin];
              [injection Heq as -> ->; lia|]);
      by apply elem_of_nil in Hin. }
  destruct (codec_fields fs (BitReg.getattr r) r0 [] [] Hnd) as (r' & E & _ & Hin & _).
  - intros name w Hin. split; [by eapply Hpos|]. split; [by apply Hvals|].
    rewrite Hf0. by apply field_width_in.
  - exact Hr0.
  - exists r'. split; [|exact Hin].
    unfold BitReg.recv_vals, BitReg.send_vals. rewrite Hf0, Hfr, Hrr.
    rewrite app_nil_r in E. exact E.
Qed.

Lemma codec_roundtrip_witness :
  exists r',
    BitReg.recv_vals (BitReg.init swd_val32p true)
      (GpioDrv.mk []
         (GpioDrv.txdata
            (BitReg.send_vals
               (BitReg.setattr (BitReg.setattr (BitReg.init swd_val32p false)
                                               "value" 0xDEADBEEF) "parity" 0)
               GpioDrv.init))) =
      Some (r', GpioDrv.mk [] []) /\
    forall name w,
      (name, w) ∈ swd_val32p ->
      BitReg.getattr r' name =
      BitReg.getattr
        (BitReg.setattr (BitReg.setattr (BitReg.init swd_val32p false)
                                        "value" 0xDEADBEEF) "parity" 0) name.
Proof.
  apply (codec_roundtrip swd_val32p
           (BitReg.setattr (BitReg.setattr (BitReg.init swd_val32p false)
                                           "value" 0xDEADBEEF) "parity" 0)
           (BitReg.init swd_val32p true)).
  - apply list_elem_of_In. simpl. tauto.
  - reflexivity.
  - reflexivity.
  - reflexivity.
  - reflexivity.
  - intros name w Hin.
    repeat (apply elem_of_cons in Hin as [Heq|Hin];
            [injection Heq as -> ->; vm_compute; split; [discriminate | reflexivity]|]).
    by apply elem_of_nil in Hin.
Defined.

(** ** The calls [xfer] makes on the pins *)

Lemma dat_dir_app d0 a b :
  Traced.dat_dir d0 (a ++ b) = Traced.dat_dir (Traced.dat_dir d0 a) b.
Proof. apply fold_left_app. Qed.

Section XferCalls.
Context {L : Type} `{Gpio L}.

Lemma xfer_bit_calls bit lastbit rx (l : L) tr d0 :
  (lastbit = ["."%char] -> Traced.dat_dir d0 tr = GPIO_IN) ->
  exists g,
    (GpioDrv.xfer_bit bit lastbit rx (l, tr)).2.2 = tr ++ g /\
    Traced.entry_calls d0 tr lastbit bit g /\
    (bit = "."%char -> Traced.dat_dir d0 (tr ++ g) = GPIO_IN).
Proof.
  intros Hpre. unfold GpioDrv.xfer_bit, Traced.entry_calls.
  destruct (Ascii.eqb_spec bit ".") as [->|Hbit].
  - cbn [gpio_input Traced.gpio fst snd].
    destruct (gpio_input DAT_PIN l) as [v l'].
    destruct (decide (lastbit = ["."%char])) as [Hl|Hl].
    + rewrite (bool_decide_eq_false_2 (["."%char] <> lastbit)) by (intros Hn; by apply Hn).
      cbn [gpio_output Traced.gpio fst snd].
      exists ([Traced.OpInput DAT_PIN v] ++ Traced.clock_pulse).
      split; [by rewrite <- !app_assoc|]. split.
      * exists [Traced.OpInput DAT_PIN v]. split; [reflexivity|].
        split; [repeat constructor|]. intros _. exists v.
        rewrite bool_decide_eq_true_2 by exact Hl. auto.
      * intros _. rewrite dat_dir_app, (Hpre Hl). reflexivity.
    + rewrite (bool_decide_eq_true_2 (["."%char] <> lastbit)) by congruence.
      cbn [gpio_output gpio_setup Traced.gpio fst snd].
      exists ([Traced.OpInput DAT_PIN v; Traced.OpSetup DAT_PIN GPIO_IN]
                ++ Traced.clock_pulse).
      split; [by rewrite <- !app_assoc|]. split.
      * exists [Traced.OpInput DAT_PIN v; Traced.OpSetup DAT_PIN GPIO_IN].
        split; [reflexivity|]. split; [repeat constructor|].
        intros _. exists v. rewrite bool_decide_eq_false_2 by exact Hl. reflexivity.
      * intros _. rewrite dat_dir_app. reflexivity.
  - destruct (bool_decide (lastbit = []) || bool_decide (lastbit = ["."%char]));
      cbn [gpio_output gpio_setup Traced.gpio fst snd].
    + exists ([Traced.OpSetup DAT_PIN GPIO_OUT;
               Traced.OpOutput DAT_PIN (if Ascii.eqb bit "1" then 1 else 0)]
                ++ Traced.clock_pulse).
      split; [by rewrite <- !app_assoc|]. split; [|done].
      eexists. split; [reflexivity|]. split; [repeat constructor | done].
    + exists ([Traced.OpOutput DAT_PIN (if Ascii.eqb bit "1" then 1 else 0)]
                ++ Traced.clock_pulse).
      split; [by rewrite <- !app_assoc|]. split; [|done].
      eexists. split; [reflexivity|]. split; [repeat constructor | done].
Qed.

Lemma xfer_loop_calls tx : forall lastbit rx (l : L) tr d0,
  (lastbit = ["."%char] -> Traced.dat_dir d0 tr = GPIO_IN) ->
  exists groups,
    (GpioDrv.xfer_loop tx lastbit rx (l, tr)).2.2 = tr ++ concat groups /\
    length groups = length tx /\
    forall i bit g,
      tx !! i = Some bit -> groups !! i = Some g ->
      Traced.entry_calls d0 (tr ++ concat (take i groups))
                         (Traced.prev_entry lastbit tx i) bit g.
Proof.
  induction tx as [|b tx IH]; intros lastbit rx l tr d0 Hpre.
  - exists []. simpl. rewrite app_nil_r. repeat split. intros i bit g Hi. done.
  - destruct (xfer_bit_calls b lastbit rx l tr d0 Hpre) as (g0 & Eg & Hcalls & Hpost).
    simpl GpioDrv.xfer_loop.
    destruct (GpioDrv.xfer_bit b lastbit rx (l, tr)) as [rx1 [l1 tr1]].
    cbn [snd] in Eg. subst tr1.
    destruct (IH [b] rx1 l1 (tr ++ g0) d0) as (groups & Etr & Hlen & Hall).
    { intros Hb. apply Hpost. congruence. }
    exists (g0 :: groups). split; [|split].
    + rewrite Etr. simpl. by rewrite <- app_assoc.
    + simpl. by rewrite Hlen.
    + intros [|j] bit g Hi Hg; simpl in Hi, Hg.
      * injection Hi as <-. injection Hg as <-.
        simpl. rewrite app_nil_r. exact Hcalls.
      * specialize (Hall j bit g Hi Hg).
        simpl take. simpl concat. rewrite app_assoc.
        destruct j as [|k]; exact Hall.
Qed.

(** C3 (amended): [xfer] handles the entries of its bit-plan one after the
    other; the calls made for each entry end with exactly one clock pulse
    (clock high, then low) and touch only the data pin before it.  A sample
    entry that directly follows another sample entry is captured with the
    data pin configured as input; a sample entry that opens the plan or
    follows a driven entry is captured first and the data pin is switched
    to input right after, before the clock pulse. *)
Theorem xfer_calls (d : GpioDrv.t) (l : L) (tr : list Traced.gpio_op)
        (d0 : direction) :
  exists groups,
    (GpioDrv.xfer d (l, tr)).2.2 = tr ++ concat groups /\
    length groups = length (GpioDrv.txdata d) /\
    forall i bit g,
      GpioDrv.txdata d !! i = Some bit -> groups !! i = Some g ->
      Traced.entry_calls d0 (tr ++ concat (take i groups))
                         (Traced.prev_entry [] (GpioDrv.txdata d) i) bit g.
Proof.
  destruct (xfer_loop_calls (GpioDrv.txdata d) [] [] l tr d0) as (groups & E & Hlen & Hall).
  { discriminate. }
  exists groups. split; [|split; assumption].
  unfold GpioDrv.xfer.
  destruct (GpioDrv.xfer_loop (GpioDrv.txdata d) [] [] (l, tr)) as [rx [l' tr']].
  exact E.
Qed.

End XferCalls.

(** C3 as stated fails: in the plan ["0."], the sample entry is captured
    while the data pin is still configured as output. *)
Lemma xfer_samples_before_input_setup :
  ~ Traced.sampled_as_input GPIO_IN
      (GpioDrv.xfer (GpioDrv.mk ["0"%char; "."%char] [])
                    (PatternLine.start [], [])).2.2.
Proof.
  intros Hs.
  specialize (Hs [Traced.OpSetup DAT_PIN GPIO_OUT; Traced.OpOutput DAT_PIN 0;
                  Traced.OpOutput CLK_PIN 1; Traced.OpOutput CLK_PIN 0]
                 false
                 [Traced.OpSetup DAT_PIN GPIO_IN;
                  Traced.OpOutput CLK_PIN 1; Traced.OpOutput CLK_PIN 0]
                 eq_refl).
  vm_compute in Hs. discriminate.
Qed.

(** ** The retry loop *)

Lemma retry_loop_pass {L : Type} `{Gpio L} fuel func tries (c : SwdConnection.t) (l : L)
      tries' c' l' :
  0 < tries ->
  SwdConnection.retry_body func tries c l = Some (false, None, tries', c', l') ->
  SwdConnection.retry_loop (S fuel) func None tries c l =
  SwdConnection.retry_loop fuel func None tries' c' l'.
Proof.
  intros Ht E. cbn [SwdConnection.retry_loop].
  rewrite E. destruct (Z.ltb_spec 0 tries); [reflexivity | lia].
Qed.

(** While every pass reconnects, resets the budget and then sees the user
    function fail, the loop does not end. *)
Lemma retry_loop_never_ends {L : Type} `{Gpio L} func
      (P : SwdConnection.t -> L -> Prop) :
  (forall tries c l,
      P c l ->
      exists c' l',
        SwdConnection.retry_body func tries c l =
          Some (false, None, NUM_TRIES - 1, c', l') /\ P c' l') ->
  forall fuel tries c l,
    0 < tries -> P c l ->
    SwdConnection.retry_loop fuel func None tries c l = SwdConnection.OutOfFuel.
Proof.
  intros Hpass fuel.
  induction fuel as [|fuel IH]; intros tries c l Ht HP; [reflexivity|].
  destruct (Hpass tries c l HP) as (c' & l' & E & HP').
  rewrite (retry_loop_pass fuel func tries c l _ _ _ Ht E).
  apply IH; [reflexivity | exact HP'].
Qed.

Lemma first_pass_fails tries :
  SwdConnection.retry_body (Some peek_test_addr) tries opened
    (PatternLine.start peek_faults) =
  Some (false, None, NUM_TRIES - 1, after_failed_pass.1, after_failed_pass.2).
Proof. vm_compute. reflexivity. Qed.

Lemma next_pass_fails tries :
  SwdConnection.retry_body (Some peek_test_addr) tries
    after_failed_pass.1 after_failed_pass.2 =
  Some (false, None, NUM_TRIES - 1, after_failed_pass.1, after_failed_pass.2).
Proof. vm_compute. reflexivity. Qed.

(** The pattern line is periodic: after one period it is back at its start. *)
Lemma pattern_line_rest pat r :
  PatternLine.samples (length r) (PatternLine.mk pat r) = (r, PatternLine.mk pat []).
Proof.
  induction r as [|b r IH]; [reflexivity|].
  cbn [length PatternLine.samples]. unfold PatternLine.sample at 1.
  cbn [PatternLine.rest PatternLine.pattern]. rewrite IH. reflexivity.
Qed.

Lemma pattern_line_period pat :
  PatternLine.samples (length pat) (PatternLine.start pat) =
  (pat, PatternLine.start pat).
Proof.
  destruct pat as [|b r]; [reflexivity|].
  cbn [length PatternLine.samples]. unfold PatternLine.sample at 1, PatternLine.start.
  cbn [PatternLine.rest PatternLine.pattern]. rewrite pattern_line_rest. reflexivity.
Qed.

(** C2 fails on the code: when every reconnection succeeds and [peek] gets
    ack FAULT on its last read each time, the budget is reset to
    [NUM_TRIES] by the reconnection of every pass, so it never reaches zero
    and the loop does not return, whatever the number of passes allowed. *)
Theorem conn_func_retry_never_returns :
  forall fuel,
    SwdConnection.conn_func_retry fuel (Some peek_test_addr) opened
      (PatternLine.start peek_faults) = SwdConnection.OutOfFuel.
Proof.
  intros fuel. unfold SwdConnection.conn_func_retry.
  apply (retry_loop_never_ends (Some peek_test_addr)
           (fun c l => (c = opened /\ l = PatternLine.start peek_faults) \/
                       (c = after_failed_pass.1 /\ l = after_failed_pass.2))).
  - intros tries c l [[-> ->] | [-> ->]];
      exists after_failed_pass.1, after_failed_pass.2.
    + split; [apply first_pass_fails | right; split; reflexivity].
    + split; [apply next_pass_fails | right; split; reflexivity].
  - reflexivity.
  - left. split; reflexivity.
Qed.

(** When the connection itself cannot be made the budget does run out: on a
    line that always reads 0 the loop returns no value after [NUM_TRIES]
    passes. *)
Example retry_budget_used_up_on_dead_line :
  match SwdConnection.conn_func_retry 4 (Some peek_test_addr) opened
          (PatternLine.start []) with
  | SwdConnection.Returned (val, c, _) =>
      val = None /\ SwdConnection.connected c = false
  | _ => False
  end /\
  SwdConnection.conn_func_retry 3 (Some peek_test_addr) opened
    (PatternLine.start []) = SwdConnection.OutOfFuel.
Proof. split; vm_compute; auto. Qed.

(** * Further properties of the code *)

(** ** Bits in and out of the buffers *)

Lemma bits_lsb_length n z : length (bits_lsb n z) = n.
Proof. unfold bits_lsb. by rewrite length_map, length_seq. Qed.

Lemma send_bits_loop_sampled k : forall n data,
  GpioDrv.send_bits_loop k n data true [] = repeat "."%char k.
Proof.
  induction k as [|k IH]; intros n data; [reflexivity|].
  cbn [GpioDrv.send_bits_loop app]. rewrite send_bits_loop_app, IH. reflexivity.
Qed.

Lemma send_bits_loop_driven k : forall n data,
  0 <= n ->
  GpioDrv.send_bits_loop k n data false [] =
  map (fun i => level_char (Z.testbit data (n + Z.of_nat i))) (seq 0 k).
Proof.
  induction k as [|k IH]; intros n data Hn; [reflexivity|].
  cbn [GpioDrv.send_bits_loop app]. rewrite send_bits_loop_app, IH by lia.
  rewrite bit_char_driven by lia. cbn [seq map app].
  rewrite <- seq_shift, map_map, Z.add_0_r.
  fold (level_char (Z.testbit data n)).
  f_equal. apply map_ext. intros i. do 2 f_equal. lia.
Qed.

Lemma send_bits_loop_bits k data :
  GpioDrv.send_bits_loop k 0 data false [] = map level_char (bits_lsb k data).
Proof.
  rewrite send_bits_loop_driven by lia. unfold bits_lsb. rewrite map_map.
  reflexivity.
Qed.

Lemma send_bits_eq (d : GpioDrv.t) (data nbits : Z) (recv : bool) :
  GpioDrv.send_bits d data nbits recv =
  GpioDrv.mk
    (GpioDrv.txdata d ++
     if recv then repeat "."%char (Z.to_nat nbits)
     else map level_char (bits_lsb (Z.to_nat nbits) data))
    (GpioDrv.rxdata d).
Proof.
  unfold GpioDrv.send_bits, GpioDrv.set_txdata. rewrite send_bits_loop_app.
  destruct recv.
  - by rewrite send_bits_loop_sampled.
  - by rewrite send_bits_loop_bits.
Qed.

(** X1: [send_bits] appends exactly [nbits] entries (none when [nbits <= 0])
    and leaves the receive buffer alone: dots in sampled mode, the low
    [nbits] bits of [data], least significant first, in driven mode. *)
Theorem send_bits_appends (d : GpioDrv.t) (data nbits : Z) (recv : bool) :
  GpioDrv.send_bits d data nbits recv =
  GpioDrv.mk
    (GpioDrv.txdata d ++
     if recv then repeat "."%char (Z.to_nat nbits)
     else map level_char (bits_lsb (Z.to_nat nbits) data))
    (GpioDrv.rxdata d) /\
  (nbits <= 0 -> GpioDrv.send_bits d data nbits recv = d).
Proof.
  split; [apply send_bits_eq|].
  intros Hn. rewrite send_bits_eq. replace (Z.to_nat nbits) with O by lia.
  destruct recv, d; cbn; by rewrite app_nil_r.
Qed.

Lemma sample_count_level_chars (bs : list bool) :
  sample_count (map level_char bs) = O.
Proof. induction bs as [|[] bs IH]; simpl; auto. Qed.

Lemma send_bytes_fold bs : forall d,
  GpioDrv.send_bytes d bs false =
  GpioDrv.mk
    (GpioDrv.txdata d ++ concat (map (fun b => map level_char (bits_lsb 8 b)) bs))
    (GpioDrv.rxdata d).
Proof.
  unfold GpioDrv.send_bytes.
  induction bs as [|b bs IH]; intros d; simpl.
  - rewrite app_nil_r. by destruct d.
  - rewrite IH, send_bits_eq. cbn [GpioDrv.txdata GpioDrv.rxdata].
    by rewrite <- app_assoc.
Qed.

(** X2: [send_bytes] in driven mode appends eight entries per byte, the bits of
    each byte least significant first, in the order of the bytes; none of
    them is a sample entry. *)
Theorem send_bytes_driven (d : GpioDrv.t) (bs : list Z) :
  exists plan,
    GpioDrv.send_bytes d bs false =
      GpioDrv.mk (GpioDrv.txdata d ++ plan) (GpioDrv.rxdata d) /\
    plan = concat (map (fun b => map level_char (bits_lsb 8 b)) bs) /\
    length plan = (8 * length bs)%nat /\
    sample_count plan = O.
Proof.
  eexists. split; [apply send_bytes_fold|]. split; [reflexivity|].
  induction bs as [|b bs [IH1 IH2]]; [done|]. cbn [map concat].
  rewrite length_app, sample_count_app, length_map, bits_lsb_length,
    sample_count_level_chars, IH1, IH2. cbn [length]. split; lia.
Qed.

Lemma recv_bits_loop_bound k : forall n rx val,
  0 <= n -> 0 <= val < 2 ^ n ->
  0 <= GpioDrv.recv_bits_loop k n rx val < 2 ^ (n + Z.of_nat k).
Proof.
  induction k as [|k IH]; intros n rx val Hn Hval.
  - simpl. by rewrite Z.add_0_r.
  - simpl GpioDrv.recv_bits_loop.
    replace (n + Z.of_nat (S k)) with ((n + 1) + Z.of_nat k) by lia.
    apply IH; [lia|].
    rewrite Z.pow_add_r by lia. change (2 ^ 1) with 2.
    destruct (bool_decide _); [|lia].
    rewrite Z.shiftl_1_l.
    assert (E : Z.lor val (2 ^ n) = val + 2 ^ n).
    { rewrite <- Z.lxor_lor, <- Z.add_nocarry_lxor; try reflexivity.
      all: apply Z.bits_inj'; intros i Hi;
        rewrite Z.land_spec, Z.bits_0, Z.pow2_bits_eqb by lia;
        destruct (Z.eqb_spec n i) as [<-|]; [|by rewrite andb_false_r];
        rewrite andb_true_r;
        destruct (Z.eq_dec val 0) as [->|]; [apply Z.bits_0|];
        apply Z.bits_above_log2; [lia|]; apply Z.log2_lt_pow2; lia. }
    rewrite E. lia.
Qed.

(** X3: [recv_bits] on a buffer shorter than [nbits] returns [None] and takes
    nothing; otherwise it returns a value below [2^nbits] and removes
    exactly the first [nbits] entries. *)
Theorem recv_bits_bounds (d : GpioDrv.t) (nbits : Z) :
  0 <= nbits ->
  (Z.of_nat (length (GpioDrv.rxdata d)) < nbits ->
   GpioDrv.recv_bits d nbits = (None, d)) /\
  (nbits <= Z.of_nat (length (GpioDrv.rxdata d)) ->
   exists v,
     GpioDrv.recv_bits d nbits =
       (Some v, GpioDrv.mk (GpioDrv.txdata d)
                           (drop (Z.to_nat nbits) (GpioDrv.rxdata d))) /\
     0 <= v < 2 ^ nbits).
Proof.
  intros Hn. unfold GpioDrv.recv_bits. split; intros Hlen.
  - destruct (Z.leb_spec nbits (Z.of_nat (length (GpioDrv.rxdata d)))); [lia|].
    reflexivity.
  - destruct (Z.leb_spec nbits (Z.of_nat (length (GpioDrv.rxdata d)))); [|lia].
    eexists. unfold GpioDrv.set_rxdata, slice_from.
    destruct (Z.leb_spec 0 nbits); [|lia]. split; [reflexivity|].
    pose proof (recv_bits_loop_bound (Z.to_nat nbits) 0 (GpioDrv.rxdata d) 0
                  ltac:(lia) ltac:(simpl; lia)) as Hb.
    rewrite Z.add_0_l, Z2Nat.id in Hb by lia. exact Hb.
Qed.

Lemma recv_bits_bounds_witness :
  (Z.of_nat (length (GpioDrv.rxdata (GpioDrv.mk [] ["1"%char; "0"%char; "1"%char]))) < 2 ->
   GpioDrv.recv_bits (GpioDrv.mk [] ["1"%char; "0"%char; "1"%char]) 2 =
     (None, GpioDrv.mk [] ["1"%char; "0"%char; "1"%char])) /\
  (2 <= Z.of_nat (length (GpioDrv.rxdata (GpioDrv.mk [] ["1"%char; "0"%char; "1"%char]))) ->
   exists v,
     GpioDrv.recv_bits (GpioDrv.mk [] ["1"%char; "0"%char; "1"%char]) 2 =
       (Some v, GpioDrv.mk [] (drop (Z.to_nat 2) ["1"%char; "0"%char; "1"%char])) /\
     0 <= v < 2 ^ 2).
Proof.
  apply (recv_bits_bounds (GpioDrv.mk [] ["1"%char; "0"%char; "1"%char]) 2). lia.
Defined.

(** X4: Any integer sent by [send_bits] in driven mode and read back by
    [recv_bits] with the same width comes back reduced modulo [2^nbits];
    what follows it in the buffer is left in place. *)
Theorem send_recv_bits_mod (data nbits : Z) (t rest : pystr) :
  0 <= nbits ->
  GpioDrv.recv_bits
    (GpioDrv.mk t
       (GpioDrv.txdata (GpioDrv.send_bits GpioDrv.init data nbits false) ++ rest))
    nbits =
  (Some (data mod 2 ^ nbits), GpioDrv.mk t rest).
Proof.
  intros Hw. unfold GpioDrv.send_bits, GpioDrv.set_txdata, GpioDrv.init.
  cbn [GpioDrv.txdata]. rewrite send_bits_loop_app. cbn [app].
  unfold GpioDrv.recv_bits, GpioDrv.set_rxdata, slice_from.
  cbn [GpioDrv.rxdata GpioDrv.txdata].
  rewrite length_app, send_bits_loop_length.
  destruct (Z.leb_spec nbits (Z.of_nat (Z.to_nat nbits + length rest))); [|lia].
  destruct (Z.leb_spec 0 nbits); [|lia].
  rewrite (recv_bits_loop_decodes _ 0 _ 0 data).
  - rewrite Z.add_0_l, Z2Nat.id by lia.
    rewrite drop_app_length'; [reflexivity | symmetry; apply send_bits_loop_length].
  - lia.
  - intros i Hi. simpl. rewrite lookup_app_l by (rewrite send_bits_loop_length; lia).
    apply send_bits_loop_lookup, Hi.
  - simpl. rewrite Z.mod_1_r. reflexivity.
Qed.

Lemma send_recv_bits_mod_witness :
  GpioDrv.recv_bits
    (GpioDrv.mk []
       (GpioDrv.txdata (GpioDrv.send_bits GpioDrv.init (-3) 4 false) ++ ["."%char]))
    4 =
  (Some ((-3) mod 2 ^ 4), GpioDrv.mk [] ["."%char]).
Proof. apply (send_recv_bits_mod (-3) 4 [] ["."%char]). lia. Defined.

(** ** What [xfer] samples and drives *)

Lemma input_levels_app a b : input_levels (a ++ b) = input_levels a ++ input_levels b.
Proof. unfold input_levels. apply flat_map_app. Qed.

Section XferLevels.
Context {L : Type} `{Gpio L}.

Lemma xfer_bit_levels bit lastbit rx (l : L) tr :
  exists new,
    (GpioDrv.xfer_bit bit lastbit rx (l, tr)).2.2 = tr ++ new /\
    (GpioDrv.xfer_bit bit lastbit rx (l, tr)).1 =
      rx ++ map level_char (input_levels new).
Proof.
  unfold GpioDrv.xfer_bit.
  destruct (Ascii.eqb bit ".").
  - cbn [gpio_input Traced.gpio fst snd].
    destruct (gpio_input DAT_PIN l) as [v l'].
    destruct (bool_decide _); cbn [gpio_output gpio_setup Traced.gpio fst snd];
      eexists; (split; [rewrite <- !app_assoc; reflexivity|]); reflexivity.
  - destruct (_ || _); cbn [gpio_output gpio_setup Traced.gpio fst snd];
      eexists; (split; [rewrite <- !app_assoc; reflexivity|]);
      cbn; by rewrite app_nil_r.
Qed.

Lemma xfer_loop_levels tx : forall lastbit rx (l : L) tr,
  exists new,
    (GpioDrv.xfer_loop tx lastbit rx (l, tr)).2.2 = tr ++ new /\
    (GpioDrv.xfer_loop tx lastbit rx (l, tr)).1 =
      rx ++ map level_char (input_levels new).
Proof.
  induction tx as [|b tx IH]; intros lastbit rx l tr.
  - exists []. simpl. by rewrite !app_nil_r.
  - destruct (xfer_bit_levels b lastbit rx l tr) as (n1 & E1 & R1).
    cbn [GpioDrv.xfer_loop].
    destruct (GpioDrv.xfer_bit b lastbit rx (l, tr)) as [rx1 [l1 tr1]].
    cbn [fst snd] in E1, R1. subst tr1 rx1.
    destruct (IH [b] (rx ++ map level_char (input_levels n1)) l1 (tr ++ n1))
      as (n2 & E2 & R2).
    exists (n1 ++ n2). rewrite E2, R2, input_levels_app, map_app, <- !app_assoc.
    split; reflexivity.
Qed.

(** X5: [xfer] returns exactly the levels that [GPIO.input] gave, in the order
    of the calls, one per sample entry of the plan; the old content of the
    receive buffer is dropped and the transmit buffer is left empty. *)
Theorem xfer_returns_sampled_levels (d : GpioDrv.t) (l : L)
        (tr : list Traced.gpio_op) :
  exists new,
    (GpioDrv.xfer d (l, tr)).2.2 = tr ++ new /\
    GpioDrv.rxdata (GpioDrv.xfer d (l, tr)).1 = map level_char (input_levels new) /\
    length (input_levels new) = sample_count (GpioDrv.txdata d) /\
    GpioDrv.txdata (GpioDrv.xfer d (l, tr)).1 = [].
Proof.
  destruct (xfer_loop_levels (GpioDrv.txdata d) [] [] l tr) as (new & E & R).
  pose proof (xfer_loop_rx (GpioDrv.txdata d) [] [] (l, tr)) as Hlen.
  exists new. unfold GpioDrv.xfer.
  destruct (GpioDrv.xfer_loop (GpioDrv.txdata d) [] [] (l, tr)) as [rx [l' tr']].
  cbn [fst snd GpioDrv.rxdata GpioDrv.txdata] in *. subst rx tr'.
  repeat split. cbn [app] in Hlen. rewrite length_map in Hlen. exact Hlen.
Qed.

Lemma xfer_bit_driven bit lastbit rx (l : L) tr d0 :
  (lastbit <> [] -> lastbit <> ["."%char] -> Traced.dat_dir d0 tr = GPIO_OUT) ->
  exists g,
    (GpioDrv.xfer_bit bit lastbit rx (l, tr)).2.2 = tr ++ g /\
    (bit <> "."%char -> driven_calls d0 tr lastbit bit g) /\
    (bit <> "."%char -> Traced.dat_dir d0 (tr ++ g) = GPIO_OUT).
Proof.
  intros Hpre. unfold GpioDrv.xfer_bit, driven_calls.
  destruct (Ascii.eqb_spec bit ".") as [->|Hbit].
  - cbn [gpio_input Traced.gpio fst snd].
    destruct (gpio_input DAT_PIN l) as [v l'].
    destruct (bool_decide _); cbn [gpio_output gpio_setup Traced.gpio fst snd];
      eexists; (split; [rewrite <- !app_assoc; reflexivity|]); split; done.
  - destruct (decide (lastbit = [])) as [E1|E1];
      [|destruct (decide (lastbit = ["."%char])) as [E2|E2]].
    + rewrite (bool_decide_eq_true_2 _ E1). cbn [orb].
      cbn [gpio_output gpio_setup Traced.gpio fst snd].
      eexists. split; [rewrite <- !app_assoc; reflexivity|].
      split; intros _; [split; [reflexivity|]|]; rewrite !dat_dir_app; reflexivity.
    + rewrite (bool_decide_eq_true_2 _ E2), orb_true_r.
      cbn [gpio_output gpio_setup Traced.gpio fst snd].
      eexists. split; [rewrite <- !app_assoc; reflexivity|].
      split; intros _; [split; [reflexivity|]|]; rewrite !dat_dir_app; reflexivity.
    + rewrite (bool_decide_eq_false_2 _ E1), (bool_decide_eq_false_2 _ E2). cbn [orb].
      cbn [gpio_output gpio_setup Traced.gpio fst snd].
      eexists. split; [rewrite <- !app_assoc; reflexivity|].
      split; intros _; [split; [reflexivity|]|].
      * rewrite app_nil_r. by apply Hpre.
      * rewrite dat_dir_app, (Hpre E1 E2). reflexivity.
Qed.

Lemma xfer_loop_driven tx : forall lastbit rx (l : L) tr d0,
  (lastbit <> [] -> lastbit <> ["."%char] -> Traced.dat_dir d0 tr = GPIO_OUT) ->
  exists groups,
    (GpioDrv.xfer_loop tx lastbit rx (l, tr)).2.2 = tr ++ concat groups /\
    length groups = length tx /\
    forall i bit g,
      tx !! i = Some bit -> groups !! i = Some g -> bit <> "."%char ->
      driven_calls d0 (tr ++ concat (take i groups))
                   (Traced.prev_entry lastbit tx i) bit g.
Proof.
  induction tx as [|b tx IH]; intros lastbit rx l tr d0 Hpre.
  - exists []. simpl. rewrite app_nil_r. split; [done|]. split; [done|].
    intros i bit g Hi. done.
  - destruct (xfer_bit_driven b lastbit rx l tr d0 Hpre) as (g0 & Eg & Hcalls & Hpost).
    simpl GpioDrv.xfer_loop.
    destruct (GpioDrv.xfer_bit b lastbit rx (l, tr)) as [rx1 [l1 tr1]].
    cbn [snd] in Eg. subst tr1.
    destruct (IH [b] rx1 l1 (tr ++ g0) d0) as (groups & Etr & Hlen & Hall).
    { intros _ Hb. apply Hpost. congruence. }
    exists (g0 :: groups). split; [|split].
    + rewrite Etr. simpl. by rewrite <- app_assoc.
    + simpl. by rewrite Hlen.
    + intros [|j] bit g Hi Hg Hbit; simpl in Hi, Hg.
      * injection Hi as <-. injection Hg as <-.
        simpl. rewrite app_nil_r. by apply Hcalls.
      * specialize (Hall j bit g Hi Hg Hbit).
        simpl take. simpl concat. rewrite app_assoc.
        destruct j as [|k]; exact Hall.
Qed.

(** X6: Every driven entry of a plan has its level put on the data pin while
    the pin is configured as output: [xfer] switches the pin to output
    exactly when the entry opens the plan or follows a sample entry, drives
    1 for ["1"] and 0 for any other character, then pulses the clock. *)
Theorem xfer_drives_as_output (d : GpioDrv.t) (l : L)
        (tr : list Traced.gpio_op) (d0 : direction) :
  exists groups,
    (GpioDrv.xfer d (l, tr)).2.2 = tr ++ concat groups /\
    length groups = length (GpioDrv.txdata d) /\
    forall i bit g,
      GpioDrv.txdata d !! i = Some bit -> groups !! i = Some g ->
      bit <> "."%char ->
      driven_calls d0 (tr ++ concat (take i groups))
                   (Traced.prev_entry [] (GpioDrv.txdata d) i) bit g.
Proof.
  destruct (xfer_loop_driven (GpioDrv.txdata d) [] [] l tr d0) as (groups & E & Hlen & Hall).
  { done. }
  exists groups. split; [|split; assumption].
  unfold GpioDrv.xfer.
  destruct (GpioDrv.xfer_loop (GpioDrv.txdata d) [] [] (l, tr)) as [rx [l' tr']].
  exact E.
Qed.

End XferLevels.

(** ** The header and the plan of a transaction *)

Lemma bits_lsb_mod n w z :
  (n <= w)%nat -> bits_lsb n (z mod 2 ^ Z.of_nat w) = bits_lsb n z.
Proof.
  intros Hn. unfold bits_lsb. apply map_ext_in. intros i Hi.
  apply in_seq in Hi. apply Z.mod_pow2_bits_low. lia.
Qed.

Lemma set_header_fields m ap rd addr val :
  msg_wf m ->
  let h := SwdMsg.hdr (SwdMsg.set m ap rd addr val) in
  BitReg.getattr h "APnDP" = ap mod 2 /\
  BitReg.getattr h "RnW" = rd mod 2 /\
  BitReg.getattr h "Addr" = Z.shiftr addr 2 mod 4 /\
  BitReg.getattr h "Parity" = hdr_parity ap rd addr mod 2 /\
  BitReg.getattr h "Start" = BitReg.getattr (SwdMsg.hdr m) "Start" /\
  BitReg.getattr h "Stop" = BitReg.getattr (SwdMsg.hdr m) "Stop" /\
  BitReg.getattr h "Park" = BitReg.getattr (SwdMsg.hdr m) "Park".
Proof.
  intros (Hh & _) h. subst h. unfold SwdMsg.set.
  cbn [SwdMsg.set_reg SwdMsg.set_regs SwdMsg.regs SwdMsg.hdr SwdMsg.turn1
       SwdMsg.ack SwdMsg.turn2 SwdMsg.val32p SwdMsg.drv SwdMsg.ok SwdMsg.verbose].
  assert (W : forall r name, BitReg.fields r = swd_hdr ->
              forall w, BitReg.field_width swd_hdr name = Some w ->
              BitReg.field_width (BitReg.fields r) name = Some w)
    by (intros r name ->; auto).
  repeat split.
  - rewrite !getattr_setattr_ne by done.
    apply (getattr_setattr _ _ 1). by rewrite Hh.
  - rewrite !getattr_setattr_ne by done.
    apply (getattr_setattr _ _ 1). by rewrite (proj1 (setattr_shape _ _ _)), Hh.
  - rewrite !getattr_setattr_ne by done.
    apply (getattr_setattr _ _ 2). by rewrite !(proj1 (setattr_shape _ _ _)), Hh.
  - apply (getattr_setattr _ _ 1). by rewrite !(proj1 (setattr_shape _ _ _)), Hh.
  - by rewrite !getattr_setattr_ne.
  - by rewrite !getattr_setattr_ne.
  - by rewrite !getattr_setattr_ne.
Qed.

Lemma hdr_parity_bit ap rd addr :
  hdr_parity ap rd addr =
  Z.b2z (xorb (xorb (xorb (Z.odd ap) (Z.odd rd)) (Z.testbit addr 2)) (Z.testbit addr 3)).
Proof.
  unfold hdr_parity. change 1 with (Z.ones 1) at 1.
  rewrite Z.land_ones, <- Z.bit0_mod by lia.
  rewrite !Z.lxor_spec, !Z.shiftr_spec, !Z.bit0_odd by lia. reflexivity.
Qed.

(** X7: [set] gives the header a parity bit that makes the five protected
    bits (APnDP, RnW, the two address bits, Parity) an even number of ones,
    whatever [ap], [rd] and [addr] are; the address field holds bits 2 and 3
    of [addr]. *)
Theorem set_header_parity_even (m : SwdMsg.t) (ap rd addr val : Z) :
  msg_wf m ->
  let h := SwdMsg.hdr (SwdMsg.set m ap rd addr val) in
  BitReg.getattr h "Addr" = addr / 4 mod 4 /\
  (BitReg.getattr h "APnDP" + BitReg.getattr h "RnW" +
   BitReg.getattr h "Addr" mod 2 + BitReg.getattr h "Addr" / 2 +
   BitReg.getattr h "Parity") mod 2 = 0.
Proof.
  intros Hwf h.
  destruct (set_header_fields m ap rd addr val Hwf) as (Ha & Hr & Hd & Hp & _).
  fold h in Ha, Hr, Hd, Hp. rewrite Ha, Hr, Hd, Hp.
  rewrite Z.shiftr_div_pow2 by lia. change (2 ^ 2) with 4.
  split; [reflexivity|].
  rewrite hdr_parity_bit.
  rewrite <- (Z.bit0_mod ap), <- (Z.bit0_mod rd), !Z.bit0_odd.
  assert (T : forall n, 0 <= n -> Z.testbit addr n = Z.odd (addr / 2 ^ n)).
  { intros n Hn. rewrite <- Z.bit0_odd, Z.div_pow2_bits by lia. reflexivity. }
  rewrite (T 2), (T 3) by lia. change (2 ^ 2) with 4. change (2 ^ 3) with (4 * 2).
  rewrite <- Z.div_div by lia.
  set (a := addr / 4).
  replace (a mod 4 mod 2) with (Z.b2z (Z.odd a))
    by (rewrite <- Z.bit0_odd, Z.bit0_mod; Z.div_mod_to_equations; lia).
  replace (a mod 4 / 2) with (Z.b2z (Z.odd (a / 2)))
    by (rewrite <- Z.bit0_odd, Z.bit0_mod; Z.div_mod_to_equations; lia).
  destruct (Z.odd ap), (Z.odd rd), (Z.odd a), (Z.odd (a / 2)); reflexivity.
Qed.

Lemma set_header_parity_even_witness :
  BitReg.getattr (SwdMsg.hdr (SwdMsg.set (SwdMsg.init GpioDrv.init) SWD_AP SWD_RD 0xc 0))
                 "Addr" = 0xc / 4 mod 4 /\
  (BitReg.getattr (SwdMsg.hdr (SwdMsg.set (SwdMsg.init GpioDrv.init) SWD_AP SWD_RD 0xc 0))
                  "APnDP" +
   BitReg.getattr (SwdMsg.hdr (SwdMsg.set (SwdMsg.init GpioDrv.init) SWD_AP SWD_RD 0xc 0))
                  "RnW" +
   BitReg.getattr (SwdMsg.hdr (SwdMsg.set (SwdMsg.init GpioDrv.init) SWD_AP SWD_RD 0xc 0))
                  "Addr" mod 2 +
   BitReg.getattr (SwdMsg.hdr (SwdMsg.set (SwdMsg.init GpioDrv.init) SWD_AP SWD_RD 0xc 0))
                  "Addr" / 2 +
   BitReg.getattr (SwdMsg.hdr (SwdMsg.set (SwdMsg.init GpioDrv.init) SWD_AP SWD_RD 0xc 0))
                  "Parity") mod 2 = 0.
Proof.
  apply (set_header_parity_even (SwdMsg.init GpioDrv.init) SWD_AP SWD_RD 0xc 0).
  apply msg_wf_init.
Defined.

Lemma bitreg_send_fold_plan fs : forall (g : string -> Z) recv d,
  fold_left (fun d f => GpioDrv.send_bits d (g f.1) f.2 recv) fs d =
  GpioDrv.mk
    (GpioDrv.txdata d ++
     if recv then repeat "."%char (layout_nat_width fs)
     else flat_map (fun f => map level_char (bits_lsb (Z.to_nat f.2) (g f.1))) fs)
    (GpioDrv.rxdata d).
Proof.
  induction fs as [|f fs IH]; intros g recv d.
  - simpl. destruct recv; rewrite app_nil_r; by destruct d.
  - cbn [fold_left]. rewrite IH, send_bits_eq.
    cbn [GpioDrv.txdata GpioDrv.rxdata]. rewrite <- app_assoc.
    destruct recv; [|reflexivity].
    unfold layout_nat_width. cbn [map foldr]. by rewrite repeat_app.
Qed.

Lemma bitreg_send_vals_eq (r : BitReg.t) (d : GpioDrv.t) :
  BitReg.send_vals r d =
  GpioDrv.mk (GpioDrv.txdata d ++ frame_plan r) (GpioDrv.rxdata d).
Proof. apply (bitreg_send_fold_plan (BitReg.fields r) (BitReg.getattr r)). Qed.

(** X8: [BitReg.send_vals] appends the plan of the frame and nothing else: a
    dot for every declared bit when the frame is sampled, whatever its
    field values, and the bits of the field values in declaration order,
    least significant first, with no dot, when it is driven. *)
Theorem bitreg_send_vals_plan (r : BitReg.t) (d : GpioDrv.t) :
  BitReg.send_vals r d =
    GpioDrv.mk (GpioDrv.txdata d ++ frame_plan r) (GpioDrv.rxdata d) /\
  sample_count (frame_plan r) =
    (if BitReg.recv r then length (frame_plan r) else O).
Proof.
  split; [apply bitreg_send_vals_eq|].
  unfold frame_plan. destruct (BitReg.recv r).
  - rewrite repeat_length. induction (layout_nat_width _) as [|n IH]; simpl; auto.
  - induction (BitReg.fields r) as [|f fs IH]; [reflexivity|].
    cbn [flat_map]. by rewrite sample_count_app, sample_count_level_chars.
Qed.

Lemma msg_send_vals_plan m :
  SwdMsg.send_vals m =
  SwdMsg.set_drv m
    (GpioDrv.mk (GpioDrv.txdata (SwdMsg.drv m) ++
                 flat_map (fun r => frame_plan (SwdMsg.get_reg m r)) (SwdMsg.regs m))
                (GpioDrv.rxdata (SwdMsg.drv m))).
Proof.
  unfold SwdMsg.send_vals. f_equal.
  generalize (SwdMsg.drv m) as d.
  induction (SwdMsg.regs m) as [|r rs IH]; intros d.
  - simpl. rewrite app_nil_r. by destruct d.
  - cbn [fold_left flat_map]. rewrite IH, bitreg_send_vals_eq.
    cbn [GpioDrv.txdata GpioDrv.rxdata]. by rewrite <- app_assoc.
Qed.

Lemma bits_lsb_1_mod z : bits_lsb 1 (z mod 2) = bits_lsb 1 z.
Proof. apply (bits_lsb_mod 1 1 z). lia. Qed.

Lemma bits_lsb_2_mod z : bits_lsb 2 (z mod 4) = bits_lsb 2 z.
Proof. apply (bits_lsb_mod 2 2 z). lia. Qed.

Lemma bits_lsb_32_mod z : bits_lsb 32 (z mod 2 ^ 32) = bits_lsb 32 z.
Proof. apply (bits_lsb_mod 32 32 z). lia. Qed.

Lemma set_data_fields m ap rd addr val :
  msg_wf m ->
  let v := SwdMsg.val32p (SwdMsg.set m ap rd addr val) in
  BitReg.getattr v "value" = val mod 2 ^ 32 /\
  BitReg.getattr v "parity" = parity32 val mod 2.
Proof.
  intros (_ & _ & _ & _ & _ & _ & _ & _ & Hv) v. subst v. unfold SwdMsg.set.
  cbn [SwdMsg.set_reg SwdMsg.set_regs SwdMsg.regs SwdMsg.hdr SwdMsg.turn1
       SwdMsg.ack SwdMsg.turn2 SwdMsg.val32p SwdMsg.drv SwdMsg.ok SwdMsg.verbose].
  unfold BitReg.set_recv, BitReg.getattr at 1 2. cbn [BitReg.vals].
  fold (BitReg.getattr (BitReg.setattr (BitReg.setattr (SwdMsg.val32p m) "value" val)
                          "parity" (parity32 val)) "value").
  fold (BitReg.getattr (BitReg.setattr (BitReg.setattr (SwdMsg.val32p m) "value" val)
                          "parity" (parity32 val)) "parity").
  split.
  - rewrite getattr_setattr_ne by done.
    apply (getattr_setattr _ _ 32). by rewrite Hv.
  - apply (getattr_setattr _ _ 1). by rewrite (proj1 (setattr_shape _ _ _)), Hv.
Qed.

(** X9: The plan of a transaction, entry by entry.  Every transaction opens
    with the eight driven header bits; a write then has five sample entries
    (turnaround, ack, turnaround) and drives the low 32 bits of [val],
    least significant first, and its parity bit; a read has 38 sample
    entries and drives nothing more. *)
Theorem transaction_plan (m : SwdMsg.t) (ap rd addr val : Z) :
  msg_wf m -> hdr_consts m ->
  GpioDrv.txdata (SwdMsg.drv (SwdMsg.send_vals (SwdMsg.set m ap rd addr val))) =
  GpioDrv.txdata (SwdMsg.drv m) ++ hdr_plan ap rd addr ++
  (if rd =? 0
   then repeat "."%char 5 ++
        map level_char (bits_lsb 32 val ++ bits_lsb 1 (parity32 val))
   else repeat "."%char 38).
Proof.
  intros Hwf (Hs & Ht & Hp).
  destruct (set_shape m ap rd addr val Hwf) as (Hwf0 & Hrecv & Hregs & Hdrv & _).
  destruct (set_header_fields m ap rd addr val Hwf)
    as (Ha & Hr & Hd & Hpar & Hs' & Ht' & Hp').
  destruct (set_data_fields m ap rd addr val Hwf) as (Hval & Hvp).
  cbv zeta in *.
  set (m0 := SwdMsg.set m ap rd addr val) in *.
  destruct Hwf0 as (Hh & Hhr & Ht1 & Ht1r & Hak & Hakr & Ht2 & Ht2r & Hv).
  rewrite msg_send_vals_plan.
  change (SwdMsg.drv (SwdMsg.set_drv _ ?d)) with d.
  cbn [GpioDrv.txdata]. rewrite Hdrv. f_equal.
  rewrite Hregs. unfold truthy in *.
  assert (Hhdr : frame_plan (SwdMsg.hdr m0) = hdr_plan ap rd addr).
  { unfold frame_plan, hdr_plan. rewrite Hhr, Hh.
    cbn [flat_map swd_hdr fst snd]. rewrite Hs', Ht', Hp', Hs, Ht, Hp, Ha, Hr, Hd, Hpar.
    change (Z.to_nat 1) with 1%nat. change (Z.to_nat 2) with 2%nat.
    rewrite !bits_lsb_1_mod, bits_lsb_2_mod, !map_app. reflexivity. }
  assert (Hturn1 : frame_plan (SwdMsg.turn1 m0) = ["."%char]).
  { unfold frame_plan. rewrite Ht1r, Ht1. reflexivity. }
  assert (Hturn2 : frame_plan (SwdMsg.turn2 m0) = ["."%char]).
  { unfold frame_plan. rewrite Ht2r, Ht2. reflexivity. }
  assert (Hack : frame_plan (SwdMsg.ack m0) = repeat "."%char 3).
  { unfold frame_plan. rewrite Hakr, Hak. reflexivity. }
  destruct (rd =? 0);
    cbn [negb app flat_map SwdMsg.get_reg] in *;
    rewrite Hhdr, Hturn1, Hturn2, Hack; f_equal.
  - unfold frame_plan. rewrite Hrecv, Hv.
    cbn [flat_map swd_val32p fst snd]. rewrite Hval, Hvp.
    change (Z.to_nat 32) with 32%nat. change (Z.to_nat 1) with 1%nat.
    rewrite bits_lsb_32_mod, bits_lsb_1_mod, map_app, !app_nil_r. reflexivity.
  - unfold frame_plan. rewrite Hrecv, Hv. reflexivity.
Qed.

Lemma transaction_plan_witness :
  GpioDrv.txdata (SwdMsg.drv (SwdMsg.send_vals
     (SwdMsg.set (SwdMsg.init GpioDrv.init) SWD_AP SWD_WR 4 test_addr))) =
  GpioDrv.txdata (SwdMsg.drv (SwdMsg.init GpioDrv.init)) ++ hdr_plan SWD_AP SWD_WR 4 ++
  (if SWD_WR =? 0
   then repeat "."%char 5 ++
        map level_char (bits_lsb 32 test_addr ++ bits_lsb 1 (parity32 test_addr))
   else repeat "."%char 38).
Proof.
  apply (transaction_plan (SwdMsg.init GpioDrv.init) SWD_AP SWD_WR 4 test_addr).
  - apply msg_wf_init.
  - vm_compute. auto.
Defined.

(** ** Transactions against a scripted target *)

Lemma pattern_xfer_loop tx : forall lastbit rx pat s rest,
  sample_count tx = length s ->
  GpioDrv.xfer_loop tx lastbit rx (PatternLine.mk pat (s ++ rest)) =
  (rx ++ map level_char s, PatternLine.mk pat rest).
Proof.
  induction tx as [|b tx IH]; intros lastbit rx pat s rest Hcnt.
  - destruct s; [|discriminate]. simpl. by rewrite app_nil_r.
  - cbn [GpioDrv.xfer_loop sample_count] in *. unfold GpioDrv.xfer_bit.
    destruct (Ascii.eqb b ".").
    + destruct s as [|v s]; [discriminate|].
      cbn [gpio_input gpio_setup gpio_output PatternLine.gpio].
      unfold PatternLine.sample. cbn [PatternLine.rest PatternLine.pattern app].
      destruct (bool_decide _);
        rewrite (IH _ _ pat s rest) by (simpl in Hcnt; lia);
        rewrite <- app_assoc; reflexivity.
    + cbn [gpio_input gpio_setup gpio_output PatternLine.gpio].
      destruct (_ || _); apply IH; simpl in Hcnt; lia.
Qed.

Lemma pattern_xfer d pat s rest :
  sample_count (GpioDrv.txdata d) = length s ->
  GpioDrv.xfer d (PatternLine.mk pat (s ++ rest)) =
  (GpioDrv.mk [] (map level_char s), PatternLine.mk pat rest).
Proof.
  intros Hcnt. unfold GpioDrv.xfer. rewrite pattern_xfer_loop by exact Hcnt.
  reflexivity.
Qed.

(** Decoding one sampled frame from the characters of its field values. *)
Lemma frame_decode (r0 : BitReg.t) (g : string -> Z) (t rest : pystr) :
  NoDup (map fst (BitReg.fields r0)) ->
  (forall name w, (name, w) ∈ BitReg.fields r0 -> 0 <= w /\ 0 <= g name < 2 ^ w) ->
  BitReg.recv r0 = true ->
  exists r',
    BitReg.recv_vals r0
      (GpioDrv.mk t
         (flat_map (fun f => map level_char (bits_lsb (Z.to_nat f.2) (g f.1)))
                   (BitReg.fields r0) ++ rest)) =
      Some (r', GpioDrv.mk t rest) /\
    BitReg.fields r' = BitReg.fields r0 /\ BitReg.recv r' = true /\
    forall name w, (name, w) ∈ BitReg.fields r0 -> BitReg.getattr r' name = g name.
Proof.
  intros Hnd Hfs Hrecv.
  destruct (codec_fields (BitReg.fields r0) g r0 t rest Hnd) as (r' & E & Hf & Hin & _).
  { intros name w Hin. destruct (Hfs name w Hin) as [Hw Hg].
    split; [exact Hw|]. split; [exact Hg|]. by apply field_width_in. }
  { exact Hrecv. }
  rewrite bitreg_send_fold_plan in E. cbn [GpioDrv.txdata GpioDrv.init app] in E.
  exists r'. unfold BitReg.recv_vals. split; [exact E|]. split; [exact Hf|].
  split; [|exact Hin].
  destruct (recv_fields_enough (BitReg.fields r0) r0
              (GpioDrv.mk t
                 (flat_map (fun f => map level_char (bits_lsb (Z.to_nat f.2) (g f.1)))
                           (BitReg.fields r0) ++ rest)) Hrecv)
    as (r'' & E' & _ & Hr'').
  - apply Forall_forall. intros [name w] Hin'. by destruct (Hfs name w Hin').
  - cbn [GpioDrv.rxdata]. rewrite length_app.
    assert (length (flat_map (fun f => map level_char (bits_lsb (Z.to_nat f.2) (g f.1)))
                             (BitReg.fields r0)) = layout_nat_width (BitReg.fields r0)).
    { clear. induction (BitReg.fields r0) as [|f fs IH]; [done|].
      cbn [flat_map]. rewrite length_app, length_map, bits_lsb_length, IH.
      reflexivity. }
    lia.
  - rewrite E in E'. injection E' as <- _. exact Hr''.
Qed.

Lemma recv_regs_step m r rs b d :
  BitReg.recv_vals (SwdMsg.get_reg m r) (SwdMsg.drv m) = Some (b, d) ->
  SwdMsg.recv_regs (r :: rs) m =
  SwdMsg.recv_regs rs (SwdMsg.set_drv (SwdMsg.set_reg m r b) d).
Proof. intros E. cbn [SwdMsg.recv_regs]. by rewrite (bind_Some_eq _ _ _ E). Qed.


Lemma read_samples_chars ack v p :
  map level_char (read_samples ack v p) =
  map level_char (bits_lsb 1 0) ++ map level_char (bits_lsb 3 ack) ++
  map level_char (bits_lsb 32 v ++ bits_lsb 1 p) ++ map level_char (bits_lsb 1 0) ++ [].
Proof. unfold read_samples. rewrite !map_app, app_nil_r. reflexivity. Qed.

Lemma write_samples_chars ack :
  map level_char (write_samples ack) =
  map level_char (bits_lsb 1 0) ++ map level_char (bits_lsb 3 ack) ++
  map level_char (bits_lsb 1 0) ++ [].
Proof. unfold write_samples. rewrite !map_app, app_nil_r. reflexivity. Qed.

Ltac layout_cases Hin :=
  repeat (apply elem_of_cons in Hin as [Hin|Hin];
          [injection Hin as -> ->|]);
  [..|by apply elem_of_nil in Hin].

Lemma decode_turn r t rest :
  BitReg.fields r = swd_turn -> BitReg.recv r = true ->
  exists r',
    BitReg.recv_vals r (GpioDrv.mk t (map level_char (bits_lsb 1 0) ++ rest)) =
      Some (r', GpioDrv.mk t rest) /\
    BitReg.fields r' = swd_turn /\ BitReg.recv r' = true.
Proof.
  intros Hf Hr.
  destruct (frame_decode r (fun _ => 0) t rest) as (r' & E & Hf' & Hr' & _).
  - rewrite Hf. compute_done.
  - rewrite Hf. intros name w Hin. layout_cases Hin. simpl. lia.
  - exact Hr.
  - exists r'. rewrite Hf in E, Hf'. cbn [flat_map swd_turn fst snd] in E.
    rewrite app_nil_r in E. auto.
Qed.

Lemma decode_ack r t rest ack :
  BitReg.fields r = swd_ack -> BitReg.recv r = true -> 0 <= ack < 8 ->
  exists r',
    BitReg.recv_vals r (GpioDrv.mk t (map level_char (bits_lsb 3 ack) ++ rest)) =
      Some (r', GpioDrv.mk t rest) /\
    BitReg.fields r' = swd_ack /\ BitReg.recv r' = true /\
    BitReg.getattr r' "ack" = ack.
Proof.
  intros Hf Hr Hack.
  destruct (frame_decode r (fun _ => ack) t rest) as (r' & E & Hf' & Hr' & Hv).
  - rewrite Hf. compute_done.
  - rewrite Hf. intros name w Hin. layout_cases Hin. simpl. lia.
  - exact Hr.
  - exists r'. rewrite Hf in E, Hf', Hv. cbn [flat_map swd_ack fst snd] in E.
    rewrite app_nil_r in E. repeat split; auto.
    apply (Hv "ack"%string 3). left.
Qed.

Lemma decode_data r t rest v p :
  BitReg.fields r = swd_val32p -> BitReg.recv r = true ->
  0 <= v < 2 ^ 32 -> 0 <= p < 2 ->
  exists r',
    BitReg.recv_vals r
      (GpioDrv.mk t (map level_char (bits_lsb 32 v ++ bits_lsb 1 p) ++ rest)) =
      Some (r', GpioDrv.mk t rest) /\
    BitReg.fields r' = swd_val32p /\ BitReg.recv r' = true /\
    BitReg.getattr r' "value" = v /\ BitReg.getattr r' "parity" = p.
Proof.
  intros Hf Hr Hv Hp.
  destruct (frame_decode r (data_fields v p) t rest) as (r' & E & Hf' & Hr' & Hg).
  - rewrite Hf. compute_done.
  - rewrite Hf. intros name w Hin. layout_cases Hin; unfold data_fields; simpl; lia.
  - exact Hr.
  - exists r'. rewrite Hf in E, Hf', Hg. cbn [flat_map swd_val32p fst snd] in E.
    rewrite app_nil_r in E. change (data_fields v p "value") with v in E.
    change (data_fields v p "parity") with p in E.
    rewrite map_app. repeat split; auto.
    + apply (Hg "value"%string 32). left.
    + apply (Hg "parity"%string 1). right. left.
Qed.

Lemma recv_vals_read_script m t ack v p :
  msg_wf m -> BitReg.recv (SwdMsg.val32p m) = true ->
  SwdMsg.regs m = [SwdMsg.Hdr; SwdMsg.Turn1; SwdMsg.Ack; SwdMsg.Val32p; SwdMsg.Turn2] ->
  SwdMsg.drv m = GpioDrv.mk t (map level_char (read_samples ack v p)) ->
  0 <= ack < 8 -> 0 <= v < 2 ^ 32 -> 0 <= p < 2 ->
  exists m3,
    SwdMsg.recv_vals m = Some (SwdMsg.check m3) /\
    msg_wf m3 /\ SwdMsg.hdr m3 = SwdMsg.hdr m /\
    SwdMsg.drv m3 = GpioDrv.mk t [] /\
    BitReg.getattr (SwdMsg.ack m3) "ack" = ack /\
    BitReg.getattr (SwdMsg.val32p m3) "value" = v /\
    BitReg.getattr (SwdMsg.val32p m3) "parity" = p.
Proof.
  intros (Hh & Hhr & Ht1 & Ht1r & Ha & Har & Ht2 & Ht2r & Hv) Hvr Hregs Hdrv
         Hack Hval Hpar.
  destruct m as [d rs okf vb h t1 a t2 vp].
  cbn [SwdMsg.hdr SwdMsg.turn1 SwdMsg.ack SwdMsg.turn2 SwdMsg.val32p
       SwdMsg.regs SwdMsg.drv] in *.
  subst rs d. rewrite read_samples_chars.
  unfold SwdMsg.recv_vals. cbn [SwdMsg.regs].
  erewrite (recv_regs_step _ SwdMsg.Hdr)
    by (unfold BitReg.recv_vals; apply recv_fields_driven; exact Hhr).
  cbn [SwdMsg.set_reg SwdMsg.set_drv SwdMsg.get_reg SwdMsg.hdr SwdMsg.turn1
       SwdMsg.ack SwdMsg.turn2 SwdMsg.val32p SwdMsg.regs SwdMsg.drv
       SwdMsg.ok SwdMsg.verbose].
  destruct (decode_turn t1 t ((map level_char (bits_lsb 3 ack)) ++ (map level_char (bits_lsb 32 v ++ bits_lsb 1 p)) ++ (map level_char (bits_lsb 1 0)) ++ []) Ht1 Ht1r) as (t1' & E1 & Hf1 & Hr1).
  erewrite (recv_regs_step _ SwdMsg.Turn1) by exact E1.
  cbn [SwdMsg.set_reg SwdMsg.set_drv SwdMsg.get_reg SwdMsg.hdr SwdMsg.turn1
       SwdMsg.ack SwdMsg.turn2 SwdMsg.val32p SwdMsg.regs SwdMsg.drv
       SwdMsg.ok SwdMsg.verbose].
  destruct (decode_ack a t ((map level_char (bits_lsb 32 v ++ bits_lsb 1 p)) ++ (map level_char (bits_lsb 1 0)) ++ []) ack Ha Har Hack) as (a' & E2 & Hf2 & Hr2 & Hav).
  erewrite (recv_regs_step _ SwdMsg.Ack) by exact E2.
  cbn [SwdMsg.set_reg SwdMsg.set_drv SwdMsg.get_reg SwdMsg.hdr SwdMsg.turn1
       SwdMsg.ack SwdMsg.turn2 SwdMsg.val32p SwdMsg.regs SwdMsg.drv
       SwdMsg.ok SwdMsg.verbose].
  destruct (decode_data vp t ((map level_char (bits_lsb 1 0)) ++ []) v p Hv Hvr Hval Hpar) as (vp' & E3 & Hf3 & Hr3 & Hvv & Hvp).
  erewrite (recv_regs_step _ SwdMsg.Val32p) by exact E3.
  cbn [SwdMsg.set_reg SwdMsg.set_drv SwdMsg.get_reg SwdMsg.hdr SwdMsg.turn1
       SwdMsg.ack SwdMsg.turn2 SwdMsg.val32p SwdMsg.regs SwdMsg.drv
       SwdMsg.ok SwdMsg.verbose].
  destruct (decode_turn t2 t [] Ht2 Ht2r) as (t2' & E4 & Hf4 & Hr4).
  erewrite (recv_regs_step _ SwdMsg.Turn2) by exact E4.
  cbn [SwdMsg.set_reg SwdMsg.set_drv SwdMsg.get_reg SwdMsg.hdr SwdMsg.turn1
       SwdMsg.ack SwdMsg.turn2 SwdMsg.val32p SwdMsg.regs SwdMsg.drv
       SwdMsg.ok SwdMsg.verbose SwdMsg.recv_regs].
  eexists. split; [reflexivity|].
  unfold msg_wf.
  cbn [SwdMsg.hdr SwdMsg.turn1 SwdMsg.ack SwdMsg.turn2 SwdMsg.val32p SwdMsg.drv].
  repeat split; assumption.
Qed.

Lemma recv_vals_write_script m t ack :
  msg_wf m -> BitReg.recv (SwdMsg.val32p m) = false ->
  SwdMsg.regs m = [SwdMsg.Hdr; SwdMsg.Turn1; SwdMsg.Ack; SwdMsg.Turn2; SwdMsg.Val32p] ->
  SwdMsg.drv m = GpioDrv.mk t (map level_char (write_samples ack)) ->
  0 <= ack < 8 ->
  exists m3,
    SwdMsg.recv_vals m = Some (SwdMsg.check m3) /\
    msg_wf m3 /\ SwdMsg.hdr m3 = SwdMsg.hdr m /\
    SwdMsg.val32p m3 = SwdMsg.val32p m /\
    SwdMsg.drv m3 = GpioDrv.mk t [] /\
    BitReg.getattr (SwdMsg.ack m3) "ack" = ack.
Proof.
  intros (Hh & Hhr & Ht1 & Ht1r & Ha & Har & Ht2 & Ht2r & Hv) Hvr Hregs Hdrv Hack.
  destruct m as [d rs okf vb h t1 a t2 vp].
  cbn [SwdMsg.hdr SwdMsg.turn1 SwdMsg.ack SwdMsg.turn2 SwdMsg.val32p
       SwdMsg.regs SwdMsg.drv] in *.
  subst rs d. rewrite write_samples_chars.
  unfold SwdMsg.recv_vals. cbn [SwdMsg.regs].
  erewrite (recv_regs_step _ SwdMsg.Hdr)
    by (unfold BitReg.recv_vals; apply recv_fields_driven; exact Hhr).
  cbn [SwdMsg.set_reg SwdMsg.set_drv SwdMsg.get_reg SwdMsg.hdr SwdMsg.turn1
       SwdMsg.ack SwdMsg.turn2 SwdMsg.val32p SwdMsg.regs SwdMsg.drv
       SwdMsg.ok SwdMsg.verbose].
  destruct (decode_turn t1 t ((map level_char (bits_lsb 3 ack)) ++ (map level_char (bits_lsb 1 0)) ++ []) Ht1 Ht1r) as (t1' & E1 & Hf1 & Hr1).
  erewrite (recv_regs_step _ SwdMsg.Turn1) by exact E1.
  cbn [SwdMsg.set_reg SwdMsg.set_drv SwdMsg.get_reg SwdMsg.hdr SwdMsg.turn1
       SwdMsg.ack SwdMsg.turn2 SwdMsg.val32p SwdMsg.regs SwdMsg.drv
       SwdMsg.ok SwdMsg.verbose].
  destruct (decode_ack a t ((map level_char (bits_lsb 1 0)) ++ []) ack Ha Har Hack) as (a' & E2 & Hf2 & Hr2 & Hav).
  erewrite (recv_regs_step _ SwdMsg.Ack) by exact E2.
  cbn [SwdMsg.set_reg SwdMsg.set_drv SwdMsg.get_reg SwdMsg.hdr SwdMsg.turn1
       SwdMsg.ack SwdMsg.turn2 SwdMsg.val32p SwdMsg.regs SwdMsg.drv
       SwdMsg.ok SwdMsg.verbose].
  destruct (decode_turn t2 t [] Ht2 Ht2r) as (t2' & E4 & Hf4 & Hr4).
  erewrite (recv_regs_step _ SwdMsg.Turn2) by exact E4.
  cbn [SwdMsg.set_reg SwdMsg.set_drv SwdMsg.get_reg SwdMsg.hdr SwdMsg.turn1
       SwdMsg.ack SwdMsg.turn2 SwdMsg.val32p SwdMsg.regs SwdMsg.drv
       SwdMsg.ok SwdMsg.verbose].
  erewrite (recv_regs_step _ SwdMsg.Val32p)
    by (unfold BitReg.recv_vals; apply recv_fields_driven; exact Hvr).
  cbn [SwdMsg.set_reg SwdMsg.set_drv SwdMsg.get_reg SwdMsg.hdr SwdMsg.turn1
       SwdMsg.ack SwdMsg.turn2 SwdMsg.val32p SwdMsg.regs SwdMsg.drv
       SwdMsg.ok SwdMsg.verbose SwdMsg.recv_regs].
  eexists. split; [reflexivity|].
  unfold msg_wf.
  cbn [SwdMsg.hdr SwdMsg.turn1 SwdMsg.ack SwdMsg.turn2 SwdMsg.val32p SwdMsg.drv].
  repeat split; assumption.
Qed.

Lemma read_samples_length ack v p : length (read_samples ack v p) = 38%nat.
Proof. unfold read_samples. rewrite !length_app, !bits_lsb_length. reflexivity. Qed.

Lemma write_samples_length ack : length (write_samples ack) = 5%nat.
Proof. unfold write_samples. rewrite !length_app, !bits_lsb_length. reflexivity. Qed.

Lemma msg_xfer_script m pat s rest :
  sample_count (GpioDrv.txdata (SwdMsg.drv m)) = length s ->
  SwdMsg.xfer m (PatternLine.mk pat (s ++ rest)) =
  (SwdMsg.set_drv m (GpioDrv.mk [] (map level_char s)), PatternLine.mk pat rest).
Proof. intros Hc. unfold SwdMsg.xfer. by rewrite pattern_xfer. Qed.

Lemma send_vals_frames m :
  SwdMsg.hdr (SwdMsg.send_vals m) = SwdMsg.hdr m /\
  SwdMsg.val32p (SwdMsg.send_vals m) = SwdMsg.val32p m /\
  SwdMsg.regs (SwdMsg.send_vals m) = SwdMsg.regs m /\
  (msg_wf m -> msg_wf (SwdMsg.send_vals m)).
Proof. split; [|split; [|split]]; try reflexivity. intros Hwf. exact Hwf. Qed.

Lemma transaction_sent m ap rd addr val :
  msg_wf m -> sample_count (GpioDrv.txdata (SwdMsg.drv m)) = O ->
  let m1 := SwdMsg.send_vals (SwdMsg.set m ap rd addr val) in
  sample_count (GpioDrv.txdata (SwdMsg.drv m1)) = (if (rd =? 0)%Z then 5 else 38)%nat /\
  msg_wf m1 /\
  BitReg.recv (SwdMsg.val32p m1) = truthy rd /\
  SwdMsg.regs m1 =
    [SwdMsg.Hdr; SwdMsg.Turn1; SwdMsg.Ack] ++
    (if truthy rd then [SwdMsg.Val32p; SwdMsg.Turn2]
     else [SwdMsg.Turn2; SwdMsg.Val32p]) /\
  SwdMsg.hdr m1 = SwdMsg.hdr (SwdMsg.set m ap rd addr val) /\
  SwdMsg.val32p m1 = SwdMsg.val32p (SwdMsg.set m ap rd addr val).
Proof.
  intros Hwf Hclean m1.
  destruct (set_shape m ap rd addr val Hwf) as (Hwf0 & Hrecv & Hregs & Hdrv & _).
  assert (Hcnt : sample_count (GpioDrv.txdata (SwdMsg.drv m1)) =
                 (if (rd =? 0)%Z then 5 else 38)%nat).
  { subst m1. unfold SwdMsg.send_vals.
    change (SwdMsg.drv (SwdMsg.set_drv _ ?d)) with d.
    destruct (send_regs_plan (SwdMsg.set m ap rd addr val)
                (SwdMsg.regs (SwdMsg.set m ap rd addr val))
                (SwdMsg.drv (SwdMsg.set m ap rd addr val))) as (plan & -> & Hp).
    cbn [GpioDrv.txdata].
    rewrite sample_count_app, Hdrv, Hclean, Hp, Hregs.
    apply (wf_regs_samples _ rd Hwf0 Hrecv). }
  split; [exact Hcnt|]. subst m1.
  destruct (send_vals_frames (SwdMsg.set m ap rd addr val)) as (Eh & Ev & Er & Hw).
  rewrite Eh, Ev, Er. auto.
Qed.

Lemma msg_read_script (m : SwdMsg.t) (ap addr ack v p : Z)
        (pat rest : list bool) :
  msg_wf m -> sample_count (GpioDrv.txdata (SwdMsg.drv m)) = O ->
  0 <= ack < 8 -> 0 <= v < 2 ^ 32 -> 0 <= p < 2 ->
  exists m',
    SwdMsg.read m ap addr (PatternLine.mk pat (read_samples ack v p ++ rest)) =
      Some (m', PatternLine.mk pat rest) /\
    msg_wf m' /\ SwdMsg.drv m' = GpioDrv.init /\
    BitReg.getattr (SwdMsg.ack m') "ack" = ack /\
    BitReg.getattr (SwdMsg.val32p m') "value" = v /\
    BitReg.getattr (SwdMsg.val32p m') "parity" = p /\
    SwdMsg.ok m' = (ack =? SWD_ACK_OK) && (parity32 v =? p).
Proof.
  intros Hwf Hclean Hack Hv Hp.
  pose proof (transaction_sent m ap SWD_RD addr 0 Hwf Hclean) as Hs.
  destruct (set_shape m ap SWD_RD addr 0 Hwf) as (_ & _ & _ & _ & Hrnw).
  cbv zeta in Hs, Hrnw. unfold SwdMsg.read.
  remember (SwdMsg.hdr (SwdMsg.set m ap SWD_RD addr 0)) as h0 eqn:Eh0.
  remember (SwdMsg.send_vals (SwdMsg.set m ap SWD_RD addr 0)) as m1 eqn:Em1.
  clear Em1 Eh0. destruct Hs as (Hcnt & Hwf1 & Hrecv & Hregs & Hhdr & _).
  rewrite msg_xfer_script by (rewrite read_samples_length; exact Hcnt).
  destruct (recv_vals_read_script
              (SwdMsg.set_drv m1 (GpioDrv.mk [] (map level_char (read_samples ack v p))))
              [] ack v p Hwf1 Hrecv Hregs eq_refl Hack Hv Hp)
    as (m3 & E & Hwf3 & Hh3 & Hd3 & Ha3 & Hv3 & Hp3).
  exists (SwdMsg.check m3).
  split; [cbv beta iota; rewrite (bind_Some_eq _ _ _ E); reflexivity|].
  split; [exact Hwf3|]. split; [exact Hd3|].
  split; [exact Ha3|]. split; [exact Hv3|]. split; [exact Hp3|].
  unfold SwdMsg.check, SwdMsg.set_ok. cbn [SwdMsg.ok].
  rewrite Ha3, Hv3, Hp3, Hh3.
  change (SwdMsg.hdr (SwdMsg.set_drv m1 _)) with (SwdMsg.hdr m1).
  rewrite Hhdr, Hrnw. reflexivity.
Qed.

Lemma msg_write_script (m : SwdMsg.t) (ap addr val ack : Z)
        (pat rest : list bool) :
  msg_wf m -> sample_count (GpioDrv.txdata (SwdMsg.drv m)) = O ->
  0 <= ack < 8 ->
  exists m',
    SwdMsg.write m ap addr val (PatternLine.mk pat (write_samples ack ++ rest)) =
      Some (m', PatternLine.mk pat rest) /\
    msg_wf m' /\ SwdMsg.drv m' = GpioDrv.init /\
    BitReg.getattr (SwdMsg.ack m') "ack" = ack /\
    BitReg.getattr (SwdMsg.val32p m') "value" = val mod 2 ^ 32 /\
    SwdMsg.ok m' = (ack =? SWD_ACK_OK).
Proof.
  intros Hwf Hclean Hack.
  pose proof (transaction_sent m ap SWD_WR addr val Hwf Hclean) as Hs.
  destruct (set_shape m ap SWD_WR addr val Hwf) as (_ & _ & _ & _ & Hrnw).
  destruct (set_data_fields m ap SWD_WR addr val Hwf) as (Hdv & _).
  cbv zeta in Hs, Hrnw, Hdv. unfold SwdMsg.write.
  remember (SwdMsg.hdr (SwdMsg.set m ap SWD_WR addr val)) as h0 eqn:Eh0.
  remember (SwdMsg.val32p (SwdMsg.set m ap SWD_WR addr val)) as v0 eqn:Ev0.
  remember (SwdMsg.send_vals (SwdMsg.set m ap SWD_WR addr val)) as m1 eqn:Em1.
  clear Em1 Eh0 Ev0. destruct Hs as (Hcnt & Hwf1 & Hrecv & Hregs & Hhdr & Hval).
  rewrite msg_xfer_script by (rewrite write_samples_length; exact Hcnt).
  destruct (recv_vals_write_script
              (SwdMsg.set_drv m1 (GpioDrv.mk [] (map level_char (write_samples ack))))
              [] ack Hwf1 Hrecv Hregs eq_refl Hack)
    as (m3 & E & Hwf3 & Hh3 & Hv3 & Hd3 & Ha3).
  exists (SwdMsg.check m3).
  split; [cbv beta iota; rewrite (bind_Some_eq _ _ _ E); reflexivity|].
  split; [exact Hwf3|]. split; [exact Hd3|]. split; [exact Ha3|].
  split.
  { change (SwdMsg.val32p (SwdMsg.check m3)) with (SwdMsg.val32p m3).
    rewrite Hv3. change (SwdMsg.val32p (SwdMsg.set_drv m1 _)) with (SwdMsg.val32p m1).
    rewrite Hval. exact Hdv. }
  unfold SwdMsg.check, SwdMsg.set_ok. cbn [SwdMsg.ok].
  rewrite Ha3, Hh3.
  change (SwdMsg.hdr (SwdMsg.set_drv m1 _)) with (SwdMsg.hdr m1).
  rewrite Hhdr, Hrnw. cbn [Z.eqb SWD_WR Z.modulo]. apply andb_true_r.
Qed.

(** X10: A read transaction against a target that answers with ack [ack], data
    [v] and parity bit [p] decodes exactly those three values, takes
    exactly the 38 samples of the answer from the line, leaves both
    buffers empty, and passes [check] exactly when [ack] is OK and [p] is
    [parity32 v]. *)
Theorem read_decodes_target_answer (m : SwdMsg.t) (ap addr ack v p : Z)
        (pat rest : list bool) :
  msg_wf m -> sample_count (GpioDrv.txdata (SwdMsg.drv m)) = O ->
  0 <= ack < 8 -> 0 <= v < 2 ^ 32 -> 0 <= p < 2 ->
  exists m',
    SwdMsg.read m ap addr (PatternLine.mk pat (read_samples ack v p ++ rest)) =
      Some (m', PatternLine.mk pat rest) /\
    msg_wf m' /\ SwdMsg.drv m' = GpioDrv.init /\
    BitReg.getattr (SwdMsg.ack m') "ack" = ack /\
    BitReg.getattr (SwdMsg.val32p m') "value" = v /\
    BitReg.getattr (SwdMsg.val32p m') "parity" = p /\
    SwdMsg.ok m' = (ack =? SWD_ACK_OK) && (parity32 v =? p).
Proof. apply msg_read_script. Qed.

Lemma read_decodes_target_answer_witness :
  exists m',
    SwdMsg.read (SwdMsg.init GpioDrv.init) SWD_DP 0
      (PatternLine.mk [] (read_samples SWD_ACK_OK 0x0bc12477 1 ++ [true])) =
      Some (m', PatternLine.mk [] [true]) /\
    msg_wf m' /\ SwdMsg.drv m' = GpioDrv.init /\
    BitReg.getattr (SwdMsg.ack m') "ack" = SWD_ACK_OK /\
    BitReg.getattr (SwdMsg.val32p m') "value" = 0x0bc12477 /\
    BitReg.getattr (SwdMsg.val32p m') "parity" = 1 /\
    SwdMsg.ok m' = (SWD_ACK_OK =? SWD_ACK_OK) && (parity32 0x0bc12477 =? 1).
Proof.
  apply (read_decodes_target_answer (SwdMsg.init GpioDrv.init) SWD_DP 0
           SWD_ACK_OK 0x0bc12477 1 [] [true]).
  - apply msg_wf_init.
  - reflexivity.
  - unfold SWD_ACK_OK. lia.
  - lia.
  - lia.
Defined.

(** X11: A write transaction against a target that answers with ack [ack] takes
    exactly the five samples of the answer, keeps the data word it sent
    (the low 32 bits of [val]), leaves both buffers empty, and passes
    [check] exactly when [ack] is OK. *)
Theorem write_decodes_target_answer (m : SwdMsg.t) (ap addr val ack : Z)
        (pat rest : list bool) :
  msg_wf m -> sample_count (GpioDrv.txdata (SwdMsg.drv m)) = O ->
  0 <= ack < 8 ->
  exists m',
    SwdMsg.write m ap addr val (PatternLine.mk pat (write_samples ack ++ rest)) =
      Some (m', PatternLine.mk pat rest) /\
    msg_wf m' /\ SwdMsg.drv m' = GpioDrv.init /\
    BitReg.getattr (SwdMsg.ack m') "ack" = ack /\
    BitReg.getattr (SwdMsg.val32p m') "value" = val mod 2 ^ 32 /\
    SwdMsg.ok m' = (ack =? SWD_ACK_OK).
Proof. apply msg_write_script. Qed.

Lemma write_decodes_target_answer_witness :
  exists m',
    SwdMsg.write (SwdMsg.init GpioDrv.init) SWD_AP 4 test_addr
      (PatternLine.mk [] (write_samples SWD_ACK_WAIT ++ [])) =
      Some (m', PatternLine.mk [] []) /\
    msg_wf m' /\ SwdMsg.drv m' = GpioDrv.init /\
    BitReg.getattr (SwdMsg.ack m') "ack" = SWD_ACK_WAIT /\
    BitReg.getattr (SwdMsg.val32p m') "value" = test_addr mod 2 ^ 32 /\
    SwdMsg.ok m' = (SWD_ACK_WAIT =? SWD_ACK_OK).
Proof.
  apply (write_decodes_target_answer (SwdMsg.init GpioDrv.init) SWD_AP 4 test_addr
           SWD_ACK_WAIT [] []).
  - apply msg_wf_init.
  - reflexivity.
  - unfold SWD_ACK_WAIT. lia.
Defined.

(** ** Transactions on any line *)

Lemma drv_empty d :
  GpioDrv.txdata d = [] -> length (GpioDrv.rxdata d) = O -> d = GpioDrv.init.
Proof.
  destruct d as [tx rx]. cbn. intros -> Hl. by apply nil_length_inv in Hl as ->.
Qed.

Section Idle.
Context {L : Type} `{Gpio L}.

Lemma hdr_consts_set m ap rd addr val h :
  msg_wf m -> h = SwdMsg.hdr (SwdMsg.set m ap rd addr val) ->
  BitReg.getattr (SwdMsg.hdr m) "Start" = 1 /\
  BitReg.getattr (SwdMsg.hdr m) "Stop" = 0 /\
  BitReg.getattr (SwdMsg.hdr m) "Park" = 1 ->
  BitReg.getattr h "Start" = 1 /\ BitReg.getattr h "Stop" = 0 /\
  BitReg.getattr h "Park" = 1.
Proof.
  intros Hwf -> (Hs & Ht & Hp).
  destruct (set_header_fields m ap rd addr val Hwf) as (_ & _ & _ & _ & -> & -> & ->).
  auto.
Qed.

Lemma msg_read_completes (m : SwdMsg.t) (ap addr : Z) (l : L) :
  msg_wf m -> sample_count (GpioDrv.txdata (SwdMsg.drv m)) = O ->
  exists m' l',
    SwdMsg.read m ap addr l = Some (m', l') /\
    msg_wf m' /\ SwdMsg.drv m' = GpioDrv.init /\ (hdr_consts m -> hdr_consts m').
Proof.
  intros Hwf Hclean. unfold SwdMsg.read.
  destruct (transaction_runs m ap SWD_RD addr 0 l Hwf)
    as (plan & m3 & _ & _ & _ & Hrecv & Hwf3 & Hh3 & Htx & Hrx).
  destruct (SwdMsg.xfer _ l) as [m2 l'] eqn:E. cbn [fst] in Hrecv.
  exists (SwdMsg.check m3), l'. rewrite (bind_Some_eq _ _ _ Hrecv).
  split; [reflexivity|]. split; [exact Hwf3|]. split.
  - change (SwdMsg.drv m3 = GpioDrv.init).
    apply drv_empty; [exact Htx | by rewrite Hrx].
  - intros Hc. unfold hdr_consts.
    change (SwdMsg.hdr (SwdMsg.check m3)) with (SwdMsg.hdr m3).
    apply (hdr_consts_set m ap SWD_RD addr 0 _ Hwf Hh3 Hc).
Qed.

Lemma msg_write_completes (m : SwdMsg.t) (ap addr val : Z) (l : L) :
  msg_wf m -> sample_count (GpioDrv.txdata (SwdMsg.drv m)) = O ->
  exists m' l',
    SwdMsg.write m ap addr val l = Some (m', l') /\
    msg_wf m' /\ SwdMsg.drv m' = GpioDrv.init /\ (hdr_consts m -> hdr_consts m').
Proof.
  intros Hwf Hclean. unfold SwdMsg.write.
  destruct (transaction_runs m ap SWD_WR addr val l Hwf)
    as (plan & m3 & _ & _ & _ & Hrecv & Hwf3 & Hh3 & Htx & Hrx).
  destruct (SwdMsg.xfer _ l) as [m2 l'] eqn:E. cbn [fst] in Hrecv.
  exists (SwdMsg.check m3), l'. rewrite (bind_Some_eq _ _ _ Hrecv).
  split; [reflexivity|]. split; [exact Hwf3|]. split.
  - change (SwdMsg.drv m3 = GpioDrv.init).
    apply drv_empty; [exact Htx | by rewrite Hrx].
  - intros Hc. unfold hdr_consts.
    change (SwdMsg.hdr (SwdMsg.check m3)) with (SwdMsg.hdr m3).
    apply (hdr_consts_set m ap SWD_WR addr val _ Hwf Hh3 Hc).
Qed.

Lemma idle_clean m : msg_idle m -> sample_count (GpioDrv.txdata (SwdMsg.drv m)) = O.
Proof. intros (_ & _ & ->). reflexivity. Qed.

Lemma msg_read_idle (m : SwdMsg.t) (ap addr : Z) (l : L) :
  msg_idle m ->
  exists m' l', SwdMsg.read m ap addr l = Some (m', l') /\ msg_idle m'.
Proof.
  intros Hi.
  destruct (msg_read_completes m ap addr l (proj1 Hi) (idle_clean _ Hi))
    as (m' & l' & E & Hwf & Hd & Hc).
  exists m', l'. split; [exact E|]. split; [exact Hwf|]. split; [|exact Hd].
  apply Hc, Hi.
Qed.

Lemma msg_write_idle (m : SwdMsg.t) (ap addr val : Z) (l : L) :
  msg_idle m ->
  exists m' l', SwdMsg.write m ap addr val l = Some (m', l') /\ msg_idle m'.
Proof.
  intros Hi.
  destruct (msg_write_completes m ap addr val l (proj1 Hi) (idle_clean _ Hi))
    as (m' & l' & E & Hwf & Hd & Hc).
  exists m', l'. split; [exact E|]. split; [exact Hwf|]. split; [|exact Hd].
  apply Hc, Hi.
Qed.

(** X12: Whatever the line does, a read or a write on a message whose transmit
    buffer holds no pending sample entry completes without raising, and
    leaves the message with its frame layouts, with the fixed header bits
    (Start 1, Stop 0, Park 1) if it had them, and with both buffers
    empty. *)
Theorem transactions_complete_and_leave_buffers_empty
        (m : SwdMsg.t) (ap addr val : Z) (l : L) :
  msg_wf m -> sample_count (GpioDrv.txdata (SwdMsg.drv m)) = O ->
  (exists m' l', SwdMsg.read m ap addr l = Some (m', l') /\
                 msg_wf m' /\ SwdMsg.drv m' = GpioDrv.init /\
                 (hdr_consts m -> hdr_consts m')) /\
  (exists m' l', SwdMsg.write m ap addr val l = Some (m', l') /\
                 msg_wf m' /\ SwdMsg.drv m' = GpioDrv.init /\
                 (hdr_consts m -> hdr_consts m')).
Proof.
  intros Hwf Hclean. split.
  - apply msg_read_completes; assumption.
  - apply msg_write_completes; assumption.
Qed.

End Idle.

Lemma transactions_complete_and_leave_buffers_empty_witness :
  (exists m' l', SwdMsg.read (SwdMsg.init GpioDrv.init) SWD_DP 0 (PatternLine.start []) =
                   Some (m', l') /\ msg_wf m' /\ SwdMsg.drv m' = GpioDrv.init /\
                 (hdr_consts (SwdMsg.init GpioDrv.init) -> hdr_consts m')) /\
  (exists m' l', SwdMsg.write (SwdMsg.init GpioDrv.init) SWD_DP 0 0x1e
                   (PatternLine.start []) = Some (m', l') /\
                 msg_wf m' /\ SwdMsg.drv m' = GpioDrv.init /\
                 (hdr_consts (SwdMsg.init GpioDrv.init) -> hdr_consts m')).
Proof.
  apply (transactions_complete_and_leave_buffers_empty
           (SwdMsg.init GpioDrv.init) SWD_DP 0 0x1e (PatternLine.start [])).
  - apply msg_wf_init.
  - reflexivity.
Defined.

(** ** Wake-up and reset sequences *)

(** X13: [swd_reset_msg] appends 56 driven ones followed by 8 driven zeros (at
    least 50 high, then at least 2 low) and touches nothing else. *)
Theorem swd_reset_msg_plan (m : SwdMsg.t) :
  SwdMsg.swd_reset_msg m =
  SwdMsg.set_drv m
    (GpioDrv.mk (GpioDrv.txdata (SwdMsg.drv m) ++
                 repeat "1"%char 56 ++ repeat "0"%char 8)
                (GpioDrv.rxdata (SwdMsg.drv m))).
Proof. unfold SwdMsg.swd_reset_msg. rewrite send_bytes_fold. reflexivity. Qed.


Lemma msg_idle_init : msg_idle (SwdMsg.init GpioDrv.init).
Proof. split; [apply msg_wf_init|]. split; [|reflexivity]. vm_compute. auto. Qed.

(** ** The connection *)

Section Connection.
Context {L : Type} `{Gpio L}.

Lemma wake_reset_xfer (m : SwdMsg.t) (l : L) :
  msg_idle m ->
  msg_idle (SwdMsg.xfer (SwdMsg.swd_reset_msg (SwdMsg.arm_wakeup_msg m)) l).1.
Proof.
  intros (Hwf & Hc & Hd). unfold SwdMsg.xfer.
  pose proof (xfer_buffers
                (SwdMsg.drv (SwdMsg.swd_reset_msg (SwdMsg.arm_wakeup_msg m))) l)
    as [Htx Hrx].
  destruct (GpioDrv.xfer _ l) as [d l'] eqn:E. cbn [fst] in *.
  split; [exact Hwf|]. split; [exact Hc|].
  change (d = GpioDrv.init). apply drv_empty; [exact Htx|].
  rewrite Hrx. unfold SwdMsg.swd_reset_msg, SwdMsg.arm_wakeup_msg.
  change (SwdMsg.drv (SwdMsg.set_drv _ ?d)) with d.
  rewrite !send_bytes_fold, send_bits_eq, Hd. reflexivity.
Qed.

Lemma reset_xfer (m : SwdMsg.t) (l : L) :
  msg_idle m -> msg_idle (SwdMsg.xfer (SwdMsg.swd_reset_msg m) l).1.
Proof.
  intros (Hwf & Hc & Hd). unfold SwdMsg.xfer.
  pose proof (xfer_buffers (SwdMsg.drv (SwdMsg.swd_reset_msg m)) l) as [Htx Hrx].
  destruct (GpioDrv.xfer _ l) as [d l'] eqn:E. cbn [fst] in *.
  split; [exact Hwf|]. split; [exact Hc|].
  change (d = GpioDrv.init). apply drv_empty; [exact Htx|].
  rewrite Hrx. unfold SwdMsg.swd_reset_msg.
  change (SwdMsg.drv (SwdMsg.set_drv _ ?d)) with d.
  rewrite !send_bytes_fold, Hd. reflexivity.
Qed.

Lemma connect_runs (c : SwdConnection.t) (l : L) :
  msg_idle (SwdConnection.msg c) ->
  exists m' l',
    SwdConnection.connect c l = Some (true, SwdConnection.set_msg c m', l') /\
    msg_idle m'.
Proof.
  intros Hidle. unfold SwdConnection.connect.
  pose proof (wake_reset_xfer (SwdConnection.msg c) l Hidle) as Hi.
  destruct (SwdMsg.xfer _ l) as [m1 l1]. cbn [fst] in Hi.
  destruct (msg_write_idle m1 SWD_DP 0xc (SwdConnection.dp c) l1 Hi)
    as (m' & l' & E & Hi').
  exists m', l'. rewrite (bind_Some_eq _ _ _ E). split; [reflexivity | exact Hi'].
Qed.

(** X15: [connect] reports success whatever the target puts on the line: the
    select write is sent and its acknowledgement is not looked at.  The
    connected flag and the selected core are left as they were. *)
Theorem connect_always_true (c : SwdConnection.t) (l : L) :
  msg_idle (SwdConnection.msg c) ->
  exists c' l',
    SwdConnection.connect c l = Some (true, c', l') /\
    msg_idle (SwdConnection.msg c') /\
    SwdConnection.connected c' = SwdConnection.connected c /\
    SwdConnection.dp c' = SwdConnection.dp c.
Proof.
  intros Hidle. destruct (connect_runs c l Hidle) as (m' & l' & E & Hi).
  exists (SwdConnection.set_msg c m'), l'. repeat split; try exact E; apply Hi.
Qed.

Lemma get_dpidr_runs (c : SwdConnection.t) (l : L) :
  msg_idle (SwdConnection.msg c) ->
  exists r m' l',
    SwdConnection.get_dpidr c l = Some (r, SwdConnection.set_msg c m', l') /\
    msg_idle m'.
Proof.
  intros Hi. unfold SwdConnection.get_dpidr.
  destruct (msg_read_idle (SwdConnection.msg c) SWD_DP 0 l Hi)
    as (m' & l' & E & Hi').
  eexists _, m', l'. rewrite (bind_Some_eq _ _ _ E). split; [reflexivity | exact Hi'].
Qed.

Ltac step_write m l Hi :=
  let m' := fresh "m" in let l' := fresh "l" in
  let E := fresh "E" in let Hi' := fresh "Hi" in
  match goal with
  | |- context [SwdMsg.write m ?ap ?addr ?val l] =>
      destruct (msg_write_idle m ap addr val l Hi)
        as (m' & l' & E & Hi');
      rewrite (bind_Some_eq _ _ _ E); cbv beta iota
  end.

Ltac step_read m l Hi :=
  let m' := fresh "m" in let l' := fresh "l" in
  let E := fresh "E" in let Hi' := fresh "Hi" in
  match goal with
  | |- context [SwdMsg.read m ?ap ?addr l] =>
      destruct (msg_read_idle m ap addr l Hi)
        as (m' & l' & E & Hi');
      rewrite (bind_Some_eq _ _ _ E); cbv beta iota
  end.

Lemma power_up_runs (c : SwdConnection.t) (l : L) :
  msg_idle (SwdConnection.msg c) ->
  exists r m' l',
    SwdConnection.power_up c l = Some (r, SwdConnection.set_msg c m', l') /\
    msg_idle m'.
Proof.
  intros Hi. unfold SwdConnection.power_up.
  step_write (SwdConnection.msg c) l Hi.
  step_write m l0 Hi0. step_write m0 l1 Hi1. step_read m1 l2 Hi2.
  step_write m2 l3 Hi3. step_read m3 l4 Hi4. step_read m4 l5 Hi5.
  step_write m5 l6 Hi6. step_write m6 l7 Hi7.
  eexists _, m7, l8. split; [reflexivity | exact Hi8].
Qed.

Lemma peek_runs (c : SwdConnection.t) (addr : Z) (l : L) :
  msg_idle (SwdConnection.msg c) ->
  exists r m' l',
    SwdConnection.peek c addr l = Some (r, SwdConnection.set_msg c m', l') /\
    msg_idle m'.
Proof.
  intros Hi. unfold SwdConnection.peek, SwdConnection.peek_steps.
  step_write (SwdConnection.msg c) l Hi.
  step_read m l0 Hi0. step_read m0 l1 Hi1.
  eexists _, m1, l2. split; [reflexivity | exact Hi2].
Qed.

Lemma reconnect_runs (tries : Z) (c : SwdConnection.t) (l : L) :
  msg_idle (SwdConnection.msg c) ->
  exists tries' c' l',
    SwdConnection.reconnect tries c l = Some (tries', c', l') /\
    msg_idle (SwdConnection.msg c') /\
    (if SwdConnection.connected c
     then c' = c /\ l' = l /\ tries' = tries
     else if SwdConnection.connected c' then tries' = NUM_TRIES
          else tries' = tries).
Proof.
  intros Hi. unfold SwdConnection.reconnect.
  destruct (SwdConnection.connected c) eqn:Hc; cbn [negb].
  { exists tries, c, l. split; [reflexivity|]. split; [exact Hi|]. auto. }
  destruct (connect_runs c l Hi) as (m1 & l1 & E1 & Hi1).
  rewrite (bind_Some_eq _ _ _ E1). cbv beta iota.
  destruct (get_dpidr_runs
              (SwdConnection.set_connected (SwdConnection.set_msg c m1) true) l1 Hi1)
    as (r2 & m2 & l2 & E2 & Hi2).
  rewrite (bind_Some_eq _ _ _ E2). cbv beta iota.
  destruct r2 as [dpidr|].
  2:{ eexists _, _, _. split; [reflexivity|]. split; [exact Hi2|]. reflexivity. }
  match goal with
  | |- context [SwdConnection.power_up ?c2 l2] =>
      destruct (power_up_runs c2 l2 Hi2) as (r3 & m3 & l3 & E3 & Hi3)
  end.
  rewrite (bind_Some_eq _ _ _ E3). cbv beta iota.
  destruct r3 as [apidr|].
  - eexists _, _, _. split; [reflexivity|]. split; [exact Hi3|]. reflexivity.
  - eexists _, _, _. split; [reflexivity|]. split; [exact Hi3|]. reflexivity.
Qed.

Lemma connect_only_loop (n : nat) : forall fuel tries (c : SwdConnection.t) (l : L),
  (Z.to_nat tries <= n)%nat -> (n < fuel)%nat ->
  msg_idle (SwdConnection.msg c) ->
  exists c' l',
    SwdConnection.retry_loop fuel None None tries c l =
      SwdConnection.Returned (None, c', l') /\
    msg_idle (SwdConnection.msg c').
Proof.
  induction n as [|n IH]; intros fuel tries c l Hn Hfuel Hi;
    (destruct fuel as [|fuel]; [lia|]); cbn [SwdConnection.retry_loop].
  - destruct (Z.ltb_spec 0 tries); [lia|]. cbn [andb]. eauto.
  - destruct (Z.ltb_spec 0 tries); cbn [andb]; [|eauto].
    rewrite bool_decide_eq_true_2 by reflexivity.
    unfold SwdConnection.retry_body.
    destruct (reconnect_runs tries c l Hi) as (t1 & c1 & l1 & E & Hi1 & Hcase).
    rewrite (bind_Some_eq _ _ _ E). cbv beta iota.
    destruct (SwdConnection.connected c1) eqn:Hc1; cbn [negb].
    + eauto.
    + destruct (SwdConnection.connected c) eqn:Hc.
      * destruct Hcase as (-> & _ & _). congruence.
      * subst t1. apply IH; [lia | lia | exact Hi1].
Qed.

(** X16: Called without a user function, [conn_func_retry] always returns, with
    no value, after at most [NUM_TRIES] passes of its loop, whatever the
    line does: a pass either connects, which ends the loop, or fails and
    uses up one try. *)
Theorem connect_only_terminates (fuel : nat) (c : SwdConnection.t) (l : L) :
  msg_idle (SwdConnection.msg c) -> (4 <= fuel)%nat ->
  exists c' l',
    SwdConnection.conn_func_retry fuel None c l =
      SwdConnection.Returned (None, c', l') /\
    msg_idle (SwdConnection.msg c').
Proof.
  intros Hi Hfuel. unfold SwdConnection.conn_func_retry.
  apply (connect_only_loop 3); [reflexivity | lia | exact Hi].
Qed.

Lemma retry_loop_result (f : SwdConnection.user_func) (fuel : nat) :
  forall tries (c : SwdConnection.t) (l : L) val c' l',
    SwdConnection.retry_loop fuel (Some f) None tries c l =
      SwdConnection.Returned (val, c', l') ->
    0 < tries \/ SwdConnection.connected c = false ->
    (val = None -> SwdConnection.connected c' = false) /\
    (forall v, val = Some v ->
       exists c1 l1,
         SwdConnection.connected c1 = true /\ f c1 l1 = Some (Some v, c', l')).
Proof.
  induction fuel as [|fuel IH]; intros tries c l val c' l' E Hpre; [discriminate|].
  cbn [SwdConnection.retry_loop] in E.
  rewrite bool_decide_eq_true_2, andb_true_r in E by reflexivity.
  destruct (Z.ltb_spec 0 tries) as [Ht|Ht].
  2:{ injection E as <- <- <-. split; [intros _; destruct Hpre; [lia|done] | done]. }
  unfold SwdConnection.retry_body in E.
  destruct (SwdConnection.reconnect tries c l) as [[[t1 c1] l1]|]; [|discriminate].
  cbn [mbind option_bind] in E.
  destruct (SwdConnection.connected c1) eqn:Hc1; cbn [negb] in E.
  - destruct (f c1 l1) as [[[[v|] c2] l2]|] eqn:Ef; cbn [mbind option_bind] in E;
      [| |discriminate].
    + destruct fuel as [|fuel]; [discriminate|].
      cbn [SwdConnection.retry_loop] in E.
      rewrite bool_decide_eq_false_2, andb_false_r in E by discriminate.
      injection E as <- <- <-. split; [discriminate|].
      intros v' Hv. injection Hv as <-. eauto.
    + apply (IH _ _ _ _ _ _ E). right. reflexivity.
  - apply (IH _ _ _ _ _ _ E). right. exact Hc1.
Qed.

(** X17: Whenever [conn_func_retry] returns from a call with a user function:
    a returned value is the value of a call of that function made while
    the connection was marked connected, and when no value is returned the
    connection is left marked disconnected. *)
Theorem conn_func_retry_result (f : SwdConnection.user_func) (fuel : nat)
        (c : SwdConnection.t) (l : L) val c' l' :
  SwdConnection.conn_func_retry fuel (Some f) c l =
    SwdConnection.Returned (val, c', l') ->
  (val = None -> SwdConnection.connected c' = false) /\
  (forall v, val = Some v ->
     exists c1 l1,
       SwdConnection.connected c1 = true /\ f c1 l1 = Some (Some v, c', l')).
Proof.
  intros E. apply (retry_loop_result f fuel NUM_TRIES c l val c' l' E).
  left. reflexivity.
Qed.

(** X18: On a connection already marked connected nothing is sent to reconnect:
    without a user function the call returns at once and the line is not
    touched; with one, a first call that yields a value ends the loop with
    that value. *)
Theorem conn_func_retry_when_connected (f : SwdConnection.user_func) (fuel : nat)
        (c : SwdConnection.t) (l : L) :
  SwdConnection.connected c = true ->
  SwdConnection.conn_func_retry (S fuel) None c l =
    SwdConnection.Returned (None, c, l) /\
  (forall v c' l',
      f c l = Some (Some v, c', l') ->
      SwdConnection.conn_func_retry (S (S fuel)) (Some f) c l =
        SwdConnection.Returned (Some v, c', l')).
Proof.
  intros Hc. unfold SwdConnection.conn_func_retry.
  assert (Hr : forall tries, SwdConnection.reconnect tries c l = Some (tries, c, l)).
  { intros tries. unfold SwdConnection.reconnect. rewrite Hc. reflexivity. }
  split.
  - cbn [SwdConnection.retry_loop]. unfold SwdConnection.retry_body.
    rewrite (bind_Some_eq _ _ _ (Hr _)). cbv beta iota.
    rewrite Hc, bool_decide_eq_true_2 by reflexivity. reflexivity.
  - intros v c' l' Ef. cbn [SwdConnection.retry_loop].
    unfold SwdConnection.retry_body.
    rewrite (bind_Some_eq _ _ _ (Hr _)). cbv beta iota.
    rewrite Hc, bool_decide_eq_true_2 by reflexivity. cbn [negb].
    rewrite (bind_Some_eq _ _ _ Ef). cbv beta iota.
    rewrite bool_decide_eq_false_2 by discriminate. reflexivity.
Qed.

(** X19: [disconnect] marks the connection disconnected, keeps the selected
    core, leaves both buffers empty and, whatever the line does, never
    raises. *)
Theorem disconnect_clears (c : SwdConnection.t) (l : L) :
  msg_idle (SwdConnection.msg c) ->
  SwdConnection.connected (SwdConnection.disconnect c l).1 = false /\
  SwdConnection.dp (SwdConnection.disconnect c l).1 = SwdConnection.dp c /\
  msg_idle (SwdConnection.msg (SwdConnection.disconnect c l).1).
Proof.
  intros Hi. unfold SwdConnection.disconnect.
  pose proof (reset_xfer (SwdConnection.msg c) l Hi) as Hi'.
  destruct (SwdMsg.xfer _ l) as [m1 l1]. cbn [fst] in *. auto.
Qed.

End Connection.

Lemma connect_always_true_witness :
  exists c' l',
    SwdConnection.connect (SwdConnection.set_core opened 1) (PatternLine.start []) =
      Some (true, c', l') /\
    msg_idle (SwdConnection.msg c') /\
    SwdConnection.connected c' =
      SwdConnection.connected (SwdConnection.set_core opened 1) /\
    SwdConnection.dp c' = SwdConnection.dp (SwdConnection.set_core opened 1).
Proof.
  apply (connect_always_true (SwdConnection.set_core opened 1) (PatternLine.start [])).
  apply msg_idle_init.
Defined.

Lemma connect_only_terminates_witness :
  exists c' l',
    SwdConnection.conn_func_retry 4 None opened (PatternLine.start []) =
      SwdConnection.Returned (None, c', l') /\
    msg_idle (SwdConnection.msg c').
Proof.
  apply (connect_only_terminates 4 opened (PatternLine.start [])).
  - apply msg_idle_init.
  - lia.
Defined.

Lemma conn_func_retry_result_witness :
  (Some 42 = None ->
   SwdConnection.connected
     (match peek_test_addr (SwdConnection.set_connected opened true)
           (PatternLine.mk [] (write_samples SWD_ACK_OK ++ read_samples SWD_ACK_OK 0 0 ++
            read_samples SWD_ACK_OK 42 1)) with
   | Some (_, c', _) => c'
   | None => opened
   end) = false) /\
  (forall v, Some 42 = Some v ->
     exists c1 l1,
       SwdConnection.connected c1 = true /\
       peek_test_addr c1 l1 =
         Some (Some v,
               match peek_test_addr (SwdConnection.set_connected opened true)
           (PatternLine.mk [] (write_samples SWD_ACK_OK ++ read_samples SWD_ACK_OK 0 0 ++
            read_samples SWD_ACK_OK 42 1)) with
   | Some (_, c', _) => c'
   | None => opened
   end,
               PatternLine.mk [] [])).
Proof.
  apply (conn_func_retry_result peek_test_addr 2
           (SwdConnection.set_connected opened true)
           (PatternLine.mk [] (write_samples SWD_ACK_OK ++ read_samples SWD_ACK_OK 0 0 ++
            read_samples SWD_ACK_OK 42 1))).
  vm_compute. reflexivity.
Defined.

Lemma conn_func_retry_when_connected_witness :
  SwdConnection.conn_func_retry 1 None (SwdConnection.set_connected opened true)
    (PatternLine.start (write_samples SWD_ACK_OK ++ read_samples SWD_ACK_OK 0 0 ++ read_samples SWD_ACK_OK 42 1)) =
    SwdConnection.Returned
      (None, SwdConnection.set_connected opened true,
       PatternLine.start (write_samples SWD_ACK_OK ++ read_samples SWD_ACK_OK 0 0 ++ read_samples SWD_ACK_OK 42 1)) /\
  (forall v c' l',
      peek_test_addr (SwdConnection.set_connected opened true)
        (PatternLine.start (write_samples SWD_ACK_OK ++ read_samples SWD_ACK_OK 0 0 ++ read_samples SWD_ACK_OK 42 1)) =
        Some (Some v, c', l') ->
      SwdConnection.conn_func_retry 2 (Some peek_test_addr)
        (SwdConnection.set_connected opened true)
        (PatternLine.start (write_samples SWD_ACK_OK ++ read_samples SWD_ACK_OK 0 0 ++ read_samples SWD_ACK_OK 42 1)) =
        SwdConnection.Returned (Some v, c', l')).
Proof.
  apply (conn_func_retry_when_connected peek_test_addr 0
           (SwdConnection.set_connected opened true)
           (PatternLine.start (write_samples SWD_ACK_OK ++ read_samples SWD_ACK_OK 0 0 ++ read_samples SWD_ACK_OK 42 1))).
  reflexivity.
Defined.

Lemma disconnect_clears_witness :
  SwdConnection.connected
    (SwdConnection.disconnect (SwdConnection.set_connected opened true)
       (PatternLine.start [])).1 = false /\
  SwdConnection.dp
    (SwdConnection.disconnect (SwdConnection.set_connected opened true)
       (PatternLine.start [])).1 =
    SwdConnection.dp (SwdConnection.set_connected opened true) /\
  msg_idle (SwdConnection.msg
              (SwdConnection.disconnect (SwdConnection.set_connected opened true)
                 (PatternLine.start [])).1).
Proof.
  apply (disconnect_clears (SwdConnection.set_connected opened true)
           (PatternLine.start [])).
  apply msg_idle_init.
Defined.

(** ** The connection against a scripted target *)

Lemma parity32_bit v : 0 <= parity32 v < 2.
Proof.
  unfold parity32. cbv zeta.
  match goal with |- 0 <= Z.land ?x 1 < 2 => generalize x end.
  intros x. change 1 with (Z.ones 1). rewrite Z.land_ones by lia.
  apply Z.mod_pos_bound. lia.
Qed.

Lemma init_clean m :
  SwdMsg.drv m = GpioDrv.init -> sample_count (GpioDrv.txdata (SwdMsg.drv m)) = O.
Proof. intros ->. reflexivity. Qed.

Ltac script_write m Hwf Hd m' E Hwf' Hd' Hok' :=
  match goal with
  | |- context [SwdMsg.write m ?ap ?addr ?val
                  (PatternLine.mk ?pat (write_samples ?a ++ ?rest))] =>
      let Hr := fresh "Hr" in
      assert (Hr : 0 <= a < 8) by (first [assumption | unfold SWD_ACK_OK; lia]);
      destruct (msg_write_script m ap addr val a pat rest Hwf (init_clean _ Hd) Hr)
        as (m' & E & Hwf' & Hd' & _ & _ & Hok');
      rewrite (bind_Some_eq _ _ _ E); cbv beta iota; clear Hr E
  end.

Ltac script_read m Hwf Hd m' E Hwf' Hd' Hv' Hok' :=
  match goal with
  | |- context [SwdMsg.read m ?ap ?addr
                  (PatternLine.mk ?pat (read_samples ?a ?v ?p ++ ?rest))] =>
      let Hr := fresh "Hr" in let Hrv := fresh "Hrv" in let Hrp := fresh "Hrp" in
      assert (Hr : 0 <= a < 8) by (first [assumption | unfold SWD_ACK_OK; lia]);
      assert (Hrv : 0 <= v < 2 ^ 32) by assumption;
      assert (Hrp : 0 <= p < 2) by (first [assumption | apply parity32_bit]);
      destruct (msg_read_script m ap addr a v p pat rest Hwf (init_clean _ Hd)
                  Hr Hrv Hrp)
        as (m' & E & Hwf' & Hd' & _ & Hv' & _ & Hok');
      rewrite (bind_Some_eq _ _ _ E); cbv beta iota; clear Hr Hrv Hrp E
  end.

Lemma wake_reset_script m pat rest :
  SwdMsg.drv m = GpioDrv.init ->
  SwdMsg.xfer (SwdMsg.swd_reset_msg (SwdMsg.arm_wakeup_msg m)) (PatternLine.mk pat rest) =
  (m, PatternLine.mk pat rest).
Proof.
  intros Hd.
  rewrite (msg_xfer_script _ pat [] rest).
  - destruct m; cbn in *. by subst.
  - unfold SwdMsg.swd_reset_msg, SwdMsg.arm_wakeup_msg.
    change (SwdMsg.drv (SwdMsg.set_drv _ ?d)) with d.
    rewrite !send_bytes_fold, send_bits_eq, Hd. reflexivity.
Qed.

Lemma reset_script m pat rest :
  SwdMsg.drv m = GpioDrv.init ->
  SwdMsg.xfer (SwdMsg.swd_reset_msg m) (PatternLine.mk pat rest) =
  (m, PatternLine.mk pat rest).
Proof.
  intros Hd.
  rewrite (msg_xfer_script _ pat [] rest).
  - destruct m; cbn in *. by subst.
  - unfold SwdMsg.swd_reset_msg.
    change (SwdMsg.drv (SwdMsg.set_drv _ ?d)) with d.
    rewrite !send_bytes_fold, Hd. reflexivity.
Qed.

Lemma connect_script (c : SwdConnection.t) (a : Z) pat rest :
  msg_wf (SwdConnection.msg c) -> SwdMsg.drv (SwdConnection.msg c) = GpioDrv.init ->
  0 <= a < 8 ->
  exists m',
    SwdConnection.connect c (PatternLine.mk pat (write_samples a ++ rest)) =
      Some (true, SwdConnection.set_msg c m', PatternLine.mk pat rest) /\
    msg_wf m' /\ SwdMsg.drv m' = GpioDrv.init /\
    BitReg.getattr (SwdMsg.val32p m') "value" = SwdConnection.dp c mod 2 ^ 32.
Proof.
  intros Hwf Hd Ha. unfold SwdConnection.connect.
  rewrite wake_reset_script by exact Hd.
  destruct (msg_write_script (SwdConnection.msg c) SWD_DP 0xc (SwdConnection.dp c)
              a pat rest Hwf (init_clean _ Hd) Ha)
    as (m' & E & Hwf' & Hd' & _ & Hv & _).
  exists m'. rewrite (bind_Some_eq _ _ _ E). auto.
Qed.

Lemma get_dpidr_script (c : SwdConnection.t) (a v p : Z) pat rest :
  msg_wf (SwdConnection.msg c) -> SwdMsg.drv (SwdConnection.msg c) = GpioDrv.init ->
  0 <= a < 8 -> 0 <= v < 2 ^ 32 -> 0 <= p < 2 ->
  exists m',
    SwdConnection.get_dpidr c (PatternLine.mk pat (read_samples a v p ++ rest)) =
      Some (if (a =? SWD_ACK_OK) && (parity32 v =? p) then Some v else None,
            SwdConnection.set_msg c m', PatternLine.mk pat rest) /\
    msg_wf m' /\ SwdMsg.drv m' = GpioDrv.init.
Proof.
  intros Hwf Hd Ha Hv Hp. unfold SwdConnection.get_dpidr.
  script_read (SwdConnection.msg c) Hwf Hd m1 E1 Hwf1 Hd1 Hv1 Hok1.
  exists m1. unfold SwdConnection.value_if_ok. rewrite Hok1, Hv1. auto.
Qed.

Lemma peek_script (c : SwdConnection.t) (addr : Z)
      (a1 a2 v2 p2 a3 v3 p3 : Z) pat rest :
  msg_wf (SwdConnection.msg c) -> SwdMsg.drv (SwdConnection.msg c) = GpioDrv.init ->
  0 <= a1 < 8 -> 0 <= a2 < 8 -> 0 <= a3 < 8 ->
  0 <= v2 < 2 ^ 32 -> 0 <= v3 < 2 ^ 32 -> 0 <= p2 < 2 -> 0 <= p3 < 2 ->
  exists m',
    SwdConnection.peek c addr
      (PatternLine.mk pat (write_samples a1 ++ read_samples a2 v2 p2 ++
                           read_samples a3 v3 p3 ++ rest)) =
      Some (if (a3 =? SWD_ACK_OK) && (parity32 v3 =? p3) then Some v3 else None,
            SwdConnection.set_msg c m', PatternLine.mk pat rest) /\
    msg_wf m' /\ SwdMsg.drv m' = GpioDrv.init.
Proof.
  intros Hwf Hd Ha1 Ha2 Ha3 Hv2 Hv3 Hp2 Hp3.
  unfold SwdConnection.peek, SwdConnection.peek_steps.
  script_write (SwdConnection.msg c) Hwf Hd m1 E1 Hwf1 Hd1 Hok1.
  script_read m1 Hwf1 Hd1 m2 E2 Hwf2 Hd2 Hx2 Hok2.
  script_read m2 Hwf2 Hd2 m3 E3 Hwf3 Hd3 Hx3 Hok3.
  rewrite (bind_Some_eq _ _ _ eq_refl). cbv beta iota.
  exists m3. unfold SwdConnection.value_if_ok. rewrite Hok3, Hx3. auto.
Qed.

Lemma power_up_script (c : SwdConnection.t)
      (a1 a2 a3 a4 v4 p4 a5 a6 v6 p6 a7 v7 p7 a8 a9 : Z) pat rest :
  msg_wf (SwdConnection.msg c) -> SwdMsg.drv (SwdConnection.msg c) = GpioDrv.init ->
  Forall (fun a => 0 <= a < 8) [a1; a2; a3; a4; a5; a6; a7; a8; a9] ->
  Forall (fun v => 0 <= v < 2 ^ 32) [v4; v6; v7] ->
  Forall (fun p => 0 <= p < 2) [p4; p6; p7] ->
  exists m',
    SwdConnection.power_up c
      (PatternLine.mk pat
         (write_samples a1 ++ write_samples a2 ++ write_samples a3 ++
          read_samples a4 v4 p4 ++ write_samples a5 ++ read_samples a6 v6 p6 ++
          read_samples a7 v7 p7 ++ write_samples a8 ++ write_samples a9 ++ rest)) =
      Some (if (a9 =? SWD_ACK_OK) && ((a7 =? SWD_ACK_OK) && (parity32 v7 =? p7))
            then Some v7 else None,
            SwdConnection.set_msg c m', PatternLine.mk pat rest) /\
    msg_wf m' /\ SwdMsg.drv m' = GpioDrv.init.
Proof.
  intros Hwf Hd Ha Hv Hp.
  repeat (apply Forall_cons_1 in Ha as [? Ha]).
  repeat (apply Forall_cons_1 in Hv as [? Hv]).
  repeat (apply Forall_cons_1 in Hp as [? Hp]).
  unfold SwdConnection.power_up.
  script_write (SwdConnection.msg c) Hwf Hd m1 E1 Hwf1 Hd1 Hok1.
  script_write m1 Hwf1 Hd1 m2 E2 Hwf2 Hd2 Hok2.
  script_write m2 Hwf2 Hd2 m3 E3 Hwf3 Hd3 Hok3.
  script_read m3 Hwf3 Hd3 m4 E4 Hwf4 Hd4 Hx4 Hok4.
  script_write m4 Hwf4 Hd4 m5 E5 Hwf5 Hd5 Hok5.
  script_read m5 Hwf5 Hd5 m6 E6 Hwf6 Hd6 Hx6 Hok6.
  script_read m6 Hwf6 Hd6 m7 E7 Hwf7 Hd7 Hx7 Hok7.
  script_write m7 Hwf7 Hd7 m8 E8 Hwf8 Hd8 Hok8.
  script_write m8 Hwf8 Hd8 m9 E9 Hwf9 Hd9 Hok9.
  exists m9. unfold SwdConnection.value_if_ok. rewrite Hok9, Hok7, Hx7.
  split; [|auto].
  destruct (a9 =? SWD_ACK_OK), ((a7 =? SWD_ACK_OK) && (parity32 v7 =? p7)); reflexivity.
Qed.

(** X20: Against a target that answers the three transactions of [peek] with
    the given ack codes, data words and parity bits, [peek] takes exactly
    those 81 samples and returns the data word of the third answer when
    that answer has ack OK and the right parity, and no value otherwise;
    neither the first two ack codes nor the data word of the second answer
    have any influence. *)
Theorem peek_returns_third_answer (c : SwdConnection.t) (addr : Z)
        (a1 a2 v2 p2 a3 v3 p3 : Z) pat rest :
  msg_wf (SwdConnection.msg c) -> SwdMsg.drv (SwdConnection.msg c) = GpioDrv.init ->
  Forall (fun a => 0 <= a < 8) [a1; a2; a3] ->
  Forall (fun v => 0 <= v < 2 ^ 32) [v2; v3] ->
  Forall (fun p => 0 <= p < 2) [p2; p3] ->
  exists m',
    SwdConnection.peek c addr
      (PatternLine.mk pat (write_samples a1 ++ read_samples a2 v2 p2 ++
                           read_samples a3 v3 p3 ++ rest)) =
      Some (if (a3 =? SWD_ACK_OK) && (parity32 v3 =? p3) then Some v3 else None,
            SwdConnection.set_msg c m', PatternLine.mk pat rest) /\
    msg_wf m' /\ SwdMsg.drv m' = GpioDrv.init.
Proof.
  intros Hwf Hd Ha Hv Hp.
  repeat (apply Forall_cons_1 in Ha as [? Ha]).
  repeat (apply Forall_cons_1 in Hv as [? Hv]).
  repeat (apply Forall_cons_1 in Hp as [? Hp]).
  apply peek_script; assumption.
Qed.

Lemma peek_returns_third_answer_witness :
  exists m',
    SwdConnection.peek opened test_addr
      (PatternLine.mk [] (write_samples SWD_ACK_WAIT ++
                          read_samples SWD_ACK_ERROR 5 0 ++
                          read_samples SWD_ACK_OK 7 1 ++ [])) =
      Some (if (SWD_ACK_OK =? SWD_ACK_OK) && (parity32 7 =? 1) then Some 7 else None,
            SwdConnection.set_msg opened m', PatternLine.mk [] []) /\
    msg_wf m' /\ SwdMsg.drv m' = GpioDrv.init.
Proof.
  apply (peek_returns_third_answer opened test_addr
           SWD_ACK_WAIT SWD_ACK_ERROR 5 0 SWD_ACK_OK 7 1 [] []).
  - apply msg_wf_init.
  - reflexivity.
  - repeat constructor; vm_compute; congruence.
  - repeat constructor; vm_compute; congruence.
  - repeat constructor; vm_compute; congruence.
Defined.

(** X21: [power_up] against a target that answers its nine transactions: it
    takes exactly their samples and returns the data word of the seventh
    (the read of the AP identification register through DP register 0xC)
    when that answer has ack OK and the right parity and the ninth
    transaction has ack OK; otherwise it returns no value.  The ack codes
    of the other seven transactions, the status word read fourth and the
    ack of the eighth transaction are not looked at. *)
Theorem power_up_returns_ap_idr (c : SwdConnection.t)
        (a1 a2 a3 a4 v4 p4 a5 a6 v6 p6 a7 v7 p7 a8 a9 : Z) pat rest :
  msg_wf (SwdConnection.msg c) -> SwdMsg.drv (SwdConnection.msg c) = GpioDrv.init ->
  Forall (fun a => 0 <= a < 8) [a1; a2; a3; a4; a5; a6; a7; a8; a9] ->
  Forall (fun v => 0 <= v < 2 ^ 32) [v4; v6; v7] ->
  Forall (fun p => 0 <= p < 2) [p4; p6; p7] ->
  exists m',
    SwdConnection.power_up c
      (PatternLine.mk pat
         (write_samples a1 ++ write_samples a2 ++ write_samples a3 ++
          read_samples a4 v4 p4 ++ write_samples a5 ++ read_samples a6 v6 p6 ++
          read_samples a7 v7 p7 ++ write_samples a8 ++ write_samples a9 ++ rest)) =
      Some (if (a9 =? SWD_ACK_OK) && ((a7 =? SWD_ACK_OK) && (parity32 v7 =? p7))
            then Some v7 else None,
            SwdConnection.set_msg c m', PatternLine.mk pat rest) /\
    msg_wf m' /\ SwdMsg.drv m' = GpioDrv.init.
Proof. apply power_up_script. Qed.

Lemma power_up_returns_ap_idr_witness :
  exists m',
    SwdConnection.power_up opened
      (PatternLine.mk []
         (write_samples 4 ++ write_samples 2 ++ write_samples 0 ++
          read_samples 4 0 0 ++ write_samples 7 ++ read_samples 2 0 1 ++
          read_samples 1 0x04770031 1 ++ write_samples 4 ++ write_samples 1 ++ [])) =
      Some (if (1 =? SWD_ACK_OK) && ((1 =? SWD_ACK_OK) && (parity32 0x04770031 =? 1))
            then Some 0x04770031 else None,
            SwdConnection.set_msg opened m', PatternLine.mk [] []) /\
    msg_wf m' /\ SwdMsg.drv m' = GpioDrv.init.
Proof.
  apply (power_up_returns_ap_idr opened 4 2 0 4 0 0 7 2 0 1 1 0x04770031 1 4 1 [] []).
  - apply msg_wf_init.
  - reflexivity.
  - repeat constructor; vm_compute; congruence.
  - repeat constructor; vm_compute; congruence.
  - repeat constructor; vm_compute; congruence.
Defined.

Lemma eqb_ok_parity v : (SWD_ACK_OK =? SWD_ACK_OK) && (parity32 v =? parity32 v) = true.
Proof. by rewrite !Z.eqb_refl. Qed.

(** X22: Against a target that acknowledges every transaction and sends every
    data word with its parity, [conn_func_retry] around [peek] on a
    connection not yet marked connected returns within one pass of its
    loop: it connects, reads DPIDR, powers up, and returns the data word
    [v] of the last answer of [peek], with the connection marked
    connected and exactly the samples of these fifteen transactions taken
    from the line. *)
Theorem conn_func_retry_reads_value (fuel : nat) (c : SwdConnection.t) (addr : Z)
        (dpidr stat apr idr rd v : Z) pat rest :
  msg_wf (SwdConnection.msg c) -> SwdMsg.drv (SwdConnection.msg c) = GpioDrv.init ->
  SwdConnection.connected c = false ->
  Forall (fun v => 0 <= v < 2 ^ 32) [dpidr; stat; apr; idr; rd; v] ->
  exists c',
    SwdConnection.conn_func_retry (S (S fuel))
      (Some (fun c l => SwdConnection.peek c addr l)) c
      (PatternLine.mk pat (target_answers dpidr stat apr idr rd v ++ rest)) =
      SwdConnection.Returned (Some v, c', PatternLine.mk pat rest) /\
    SwdConnection.connected c' = true /\ SwdConnection.dp c' = SwdConnection.dp c /\
    msg_wf (SwdConnection.msg c') /\ SwdMsg.drv (SwdConnection.msg c') = GpioDrv.init.
Proof.
  intros Hwf Hd Hc Hv.
  repeat (apply Forall_cons_1 in Hv as [? Hv]).
  assert (Hok : 0 <= SWD_ACK_OK < 8) by (unfold SWD_ACK_OK; lia).
  unfold target_answers, ok_read, ok_write. rewrite <- !app_assoc.
  match goal with
  | |- context [PatternLine.mk pat (write_samples _ ++ ?r)] =>
      destruct (connect_script c SWD_ACK_OK pat r Hwf Hd Hok)
        as (m1 & E1 & Hwf1 & Hd1 & _)
  end.
  match type of E1 with
  | SwdConnection.connect c (PatternLine.mk pat (_ ++ read_samples _ _ _ ++ ?r)) = _ =>
      destruct (get_dpidr_script
                  (SwdConnection.set_connected (SwdConnection.set_msg c m1) true)
                  SWD_ACK_OK dpidr (parity32 dpidr) pat r Hwf1 Hd1 Hok
                  ltac:(assumption) (parity32_bit _))
        as (m2 & E2 & Hwf2 & Hd2)
  end.
  rewrite eqb_ok_parity in E2.
  match type of E2 with
  | SwdConnection.get_dpidr ?c1
      (PatternLine.mk pat (_ ++ _ ++ _ ++ _ ++ _ ++ _ ++ _ ++ _ ++ _ ++ _ ++ ?r)) = _ =>
      destruct (power_up_script (SwdConnection.set_msg c1 m2)
                  SWD_ACK_OK SWD_ACK_OK SWD_ACK_OK SWD_ACK_OK stat (parity32 stat)
                  SWD_ACK_OK SWD_ACK_OK apr (parity32 apr)
                  SWD_ACK_OK idr (parity32 idr) SWD_ACK_OK SWD_ACK_OK pat r Hwf2 Hd2)
        as (m3 & E3 & Hwf3 & Hd3)
  end.
  { repeat first [exact Hok | apply List.Forall_cons | apply List.Forall_nil]. }
  { repeat first [assumption | apply List.Forall_cons | apply List.Forall_nil]. }
  { repeat first [apply parity32_bit | apply List.Forall_cons | apply List.Forall_nil]. }
  rewrite Z.eqb_refl, eqb_ok_parity in E3. cbn [andb] in E3.
  match type of E3 with
  | SwdConnection.power_up ?c2 _ = Some (_, ?c3, _) =>
      destruct (peek_script c3 addr SWD_ACK_OK SWD_ACK_OK rd (parity32 rd)
                  SWD_ACK_OK v (parity32 v) pat rest Hwf3 Hd3 Hok Hok Hok
                  ltac:(assumption) ltac:(assumption)
                  (parity32_bit _) (parity32_bit _))
        as (m4 & E4 & Hwf4 & Hd4)
  end.
  rewrite eqb_ok_parity in E4.
  eexists. split.
  - unfold SwdConnection.conn_func_retry. cbn [SwdConnection.retry_loop].
    rewrite bool_decide_eq_true_2 by reflexivity.
    change (0 <? NUM_TRIES) with true. cbn [andb].
    unfold SwdConnection.retry_body, SwdConnection.reconnect.
    rewrite Hc. cbn [negb].
    rewrite (bind_Some_eq _ _ _ E1). cbv beta iota.
    rewrite (bind_Some_eq _ _ _ E2). cbv beta iota.
    rewrite (bind_Some_eq _ _ _ E3). cbv beta iota.
    rewrite (bind_Some_eq _ _ _ eq_refl). cbv beta iota.
    cbn [SwdConnection.connected SwdConnection.set_msg SwdConnection.set_connected negb].
    rewrite (bind_Some_eq _ _ _ E4). cbv beta iota.
    change (0 <? NUM_TRIES) with true.
    rewrite bool_decide_eq_false_2 by discriminate. reflexivity.
  - cbn [SwdConnection.connected SwdConnection.set_msg SwdConnection.set_connected
         SwdConnection.dp SwdConnection.msg]. auto.
Qed.

Lemma conn_func_retry_reads_value_witness :
  exists c',
    SwdConnection.conn_func_retry 2
      (Some (fun c l => SwdConnection.peek c test_addr l)) opened
      (PatternLine.mk [] (target_answers 0x0bc12477 0 0 0x04770031 0 42 ++ [])) =
      SwdConnection.Returned (Some 42, c', PatternLine.mk [] []) /\
    SwdConnection.connected c' = true /\ SwdConnection.dp c' = SwdConnection.dp opened /\
    msg_wf (SwdConnection.msg c') /\ SwdMsg.drv (SwdConnection.msg c') = GpioDrv.init.
Proof.
  apply (conn_func_retry_reads_value 0 opened test_addr
           0x0bc12477 0 0 0x04770031 0 42 [] []).
  - apply msg_wf_init.
  - reflexivity.
  - reflexivity.
  - repeat constructor; vm_compute; congruence.
Defined.

(** ** A sampled frame needs its whole width in the receive buffer *)

Lemma recv_fields_short fs : forall r d,
  BitReg.recv r = true ->
  Forall (fun f => 0 <= f.2) fs ->
  (length (GpioDrv.rxdata d) < layout_nat_width fs)%nat ->
  BitReg.recv_fields fs r d = None.
Proof.
  induction fs as [|f fs IH]; intros r d Hr Hpos Hlen.
  - cbn in Hlen. lia.
  - apply Forall_cons in Hpos as [Hf Hpos].
    unfold layout_nat_width in Hlen. cbn [map foldr] in Hlen.
    fold (layout_nat_width fs) in Hlen.
    cbn [BitReg.recv_fields]. rewrite Hr.
    destruct (Z.leb_spec f.2 (Z.of_nat (length (GpioDrv.rxdata d)))) as [Hle|Hgt].
    + destruct (recv_bits_enough d f.2 (conj Hf Hle)) as (v & ->).
      apply IH.
      * by rewrite (proj2 (setattr_shape r f.1 v)).
      * exact Hpos.
      * cbn [GpioDrv.rxdata]. rewrite length_drop. lia.
    + unfold GpioDrv.recv_bits.
      destruct (Z.leb_spec f.2 (Z.of_nat (length (GpioDrv.rxdata d)))); [lia|].
      reflexivity.
Qed.

(** X23: [recv_vals] on a frame in sampled mode raises exactly when the receive
    buffer holds fewer entries than the frame has bits; otherwise it takes
    exactly that many entries from the front of the buffer, and leaves
    the transmit buffer, the layout and the mode as they were. *)
Theorem recv_vals_needs_whole_frame (r : BitReg.t) (d : GpioDrv.t) :
  BitReg.recv r = true -> Forall (fun f => 0 <= f.2) (BitReg.fields r) ->
  (BitReg.recv_vals r d = None <->
   (length (GpioDrv.rxdata d) < layout_nat_width (BitReg.fields r))%nat) /\
  (forall r' d',
      BitReg.recv_vals r d = Some (r', d') ->
      d' = GpioDrv.mk (GpioDrv.txdata d)
                      (drop (layout_nat_width (BitReg.fields r)) (GpioDrv.rxdata d)) /\
      BitReg.fields r' = BitReg.fields r /\ BitReg.recv r' = true).
Proof.
  intros Hr Hpos. unfold BitReg.recv_vals.
  destruct (Nat.lt_ge_cases (length (GpioDrv.rxdata d))
                            (layout_nat_width (BitReg.fields r))) as [Hlt|Hge].
  - rewrite (recv_fields_short _ r d Hr Hpos Hlt). split; [tauto | discriminate].
  - destruct (recv_fields_enough _ r d Hr Hpos Hge) as (r1 & -> & Hf & Hrecv).
    split; [split; [discriminate | lia]|].
    intros r' d' E. injection E as <- <-. auto.
Qed.

Lemma recv_vals_needs_whole_frame_witness :
  (BitReg.recv_vals (BitReg.init swd_val32p true)
     (GpioDrv.mk ["0"%char] (repeat "1"%char 32)) = None <->
   (length (GpioDrv.rxdata (GpioDrv.mk ["0"%char] (repeat "1"%char 32))) <
    layout_nat_width (BitReg.fields (BitReg.init swd_val32p true)))%nat) /\
  (forall r' d',
      BitReg.recv_vals (BitReg.init swd_val32p true)
        (GpioDrv.mk ["0"%char] (repeat "1"%char 32)) = Some (r', d') ->
      d' = GpioDrv.mk (GpioDrv.txdata (GpioDrv.mk ["0"%char] (repeat "1"%char 32)))
             (drop (layout_nat_width (BitReg.fields (BitReg.init swd_val32p true)))
                   (GpioDrv.rxdata (GpioDrv.mk ["0"%char] (repeat "1"%char 32)))) /\
      BitReg.fields r' = BitReg.fields (BitReg.init swd_val32p true) /\
      BitReg.recv r' = true).
Proof.
  apply (recv_vals_needs_whole_frame (BitReg.init swd_val32p true)
           (GpioDrv.mk ["0"%char] (repeat "1"%char 32))).
  - reflexivity.
  - repeat first [apply List.Forall_cons | apply List.Forall_nil]; simpl; lia.
Defined.

(** ** The value column of the register tree *)

Lemma field_extract value lo n :
  0 <= lo -> 0 <= n ->
  Z.land (Z.shiftr value lo) (Z.shiftl 1 n - 1) = (value / 2 ^ lo) mod 2 ^ n.
Proof.
  intros Hlo Hn. rewrite Z.shiftl_1_l, Z.sub_1_r, <- Z.ones_equiv.
  rewrite Z.land_ones, Z.shiftr_div_pow2 by lia. reflexivity.
Qed.

Lemma item_value_display_runs hi lo value :
  0 <= lo -> lo <= hi + 1 ->
  exists c,
    TreeWidget.item_value_display (Some (hi, lo)) (Some value) =
      Some (TreeWidget.Number c ((value / 2 ^ lo) mod 2 ^ (hi - lo + 1))) /\
    match c with
    | TreeWidget.Unsigned => hi - lo + 1 <= 3
    | TreeWidget.Hex n => (hi - lo + 1 <= 32 -> hi - lo + 1 <= 4 * n) /\ 3 < hi - lo + 1
    end.
Proof.
  intros Hlo Hhi. unfold TreeWidget.item_value_display.
  cbn [fst snd]. cbv zeta.
  destruct (Z.ltb_spec lo 0); [lia|].
  destruct (Z.ltb_spec (hi - lo + 1) 0); [lia|]. cbn [orb].
  rewrite field_extract by lia.
  destruct (Z.leb_spec (hi - lo + 1) 3); [eexists; split; [reflexivity | cbv beta iota; lia]|].
  destruct (Z.leb_spec (hi - lo + 1) 4); [eexists; split; [reflexivity | cbv beta iota; lia]|].
  destruct (Z.leb_spec (hi - lo + 1) 8); [eexists; split; [reflexivity | cbv beta iota; lia]|].
  destruct (Z.leb_spec (hi - lo + 1) 16); eexists; (split; [reflexivity | cbv beta iota; lia]).
Qed.

(** X24: For a bit field [hi:lo] with [0 <= lo <= hi + 1], the number shown in
    the value column is the field cut out of the register value: bit [i]
    of it is bit [lo + i] of the value for [i <= hi - lo] and 0 above.  It
    is printed in decimal only when it is below 8, and otherwise with at
    least as many hexadecimal digits as a field of up to 32 bits can need.
    For an item without a bit range the low 32 bits of the value are shown
    with eight digits, and without a value the column is blank. *)
Theorem item_value_display_field (hi lo value : Z) :
  0 <= lo -> lo <= hi + 1 ->
  (exists c val,
     TreeWidget.item_value_display (Some (hi, lo)) (Some value) =
       Some (TreeWidget.Number c val) /\
     val = (value / 2 ^ lo) mod 2 ^ (hi - lo + 1) /\
     (forall i, 0 <= i ->
        Z.testbit val i = (i <=? hi - lo) && Z.testbit value (lo + i)) /\
     match c with
     | TreeWidget.Unsigned => 0 <= val < 8
     | TreeWidget.Hex n => hi - lo + 1 <= 32 -> 0 <= val < 16 ^ n
     end) /\
  TreeWidget.item_value_display None (Some value) =
    Some (TreeWidget.Number (TreeWidget.Hex 8) (value mod 2 ^ 32)) /\
  TreeWidget.item_value_display (Some (hi, lo)) None = Some TreeWidget.Blank.
Proof.
  intros Hlo Hhi. split; [|split].
  - destruct (item_value_display_runs hi lo value Hlo Hhi) as (c & E & Hc).
    exists c, ((value / 2 ^ lo) mod 2 ^ (hi - lo + 1)).
    split; [exact E|]. split; [reflexivity|].
    assert (Hb : 0 <= (value / 2 ^ lo) mod 2 ^ (hi - lo + 1) < 2 ^ (hi - lo + 1))
      by (apply Z.mod_pos_bound; lia).
    split.
    + intros i Hi. destruct (Z.leb_spec i (hi - lo)).
      * rewrite Z.mod_pow2_bits_low by lia.
        rewrite <- Z.shiftr_div_pow2, Z.shiftr_spec by lia.
        cbn [andb]. f_equal. lia.
      * rewrite Z.mod_pow2_bits_high by lia. reflexivity.
    + destruct c as [|n].
      * assert (2 ^ (hi - lo + 1) <= 2 ^ 3) by (apply Z.pow_le_mono_r; lia). lia.
      * intros H32. destruct Hc as [Hc Hn]. specialize (Hc H32).
        assert (2 ^ (hi - lo + 1) <= 2 ^ (4 * n)) by (apply Z.pow_le_mono_r; lia).
        replace (16 ^ n) with (2 ^ (4 * n)); [lia|].
        rewrite Z.pow_mul_r by lia. reflexivity.
  - unfold TreeWidget.item_value_display. cbn [fst snd]. cbv zeta.
    change (31 - 0 + 1) with 32. cbn [Z.ltb Z.leb Z.compare Pos.compare Pos.compare_cont orb].
    rewrite field_extract by lia. rewrite Z.pow_0_r, Z.div_1_r. reflexivity.
  - reflexivity.
Qed.

Lemma item_value_display_field_witness :
  (exists c val,
     TreeWidget.item_value_display (Some (11, 8)) (Some 0xd0000a5c) =
       Some (TreeWidget.Number c val) /\
     val = (0xd0000a5c / 2 ^ 8) mod 2 ^ (11 - 8 + 1) /\
     (forall i, 0 <= i ->
        Z.testbit val i = (i <=? 11 - 8) && Z.testbit 0xd0000a5c (8 + i)) /\
     match c with
     | TreeWidget.Unsigned => 0 <= val < 8
     | TreeWidget.Hex n => 11 - 8 + 1 <= 32 -> 0 <= val < 16 ^ n
     end) /\
  TreeWidget.item_value_display None (Some 0xd0000a5c) =
    Some (TreeWidget.Number (TreeWidget.Hex 8) (0xd0000a5c mod 2 ^ 32)) /\
  TreeWidget.item_value_display (Some (11, 8)) None = Some TreeWidget.Blank.
Proof.
  apply (item_value_display_field 11 8 0xd0000a5c); lia.
Defined.
